(** * Plank challenge: the frame classifier and its stability filter

    A shallow embedding of the plank-position classifier of
    [lib/poseDetection] (calculateAngle, areLandmarksVisible,
    calculatePoseAngles, detectPlankPosition), of its two overlays
    (drawPoseSkeleton, drawDetectionFeedback), of the debounce logic of
    [hooks/usePoseDetection.ts] (detectPose, reset) and of the recorder
    class of [utils/videoRecorder.ts].

    Numbers.  Landmark coordinates and visibilities are JavaScript numbers,
    i.e. IEEE 754 binary64 values: they are modelled by Rocq's primitive
    floats, whose operations are the same binary64 operations (round to
    nearest even).  The running confidence only ever holds the integers
    [100 - p1 - ... - pk] for integer penalties [pi <= 30], and the frame
    counters of the hook only count up by one; such doubles are exact, so
    both are modelled in [Z].  For the confidence this is checked below:
    it stays between -140 and 100 ([running_confidence_range]), where the
    double operations applied to it agree with those of [Z]
    ([confidence_exact]).

    Exceptions.  Reading a property of [undefined] raises a [TypeError];
    code that can do so returns a [completion].

    The angle.  [Math.atan2] is supplied by the engine: the angle
    functions take it as a parameter, and what is proved of them is proved
    for every function with the properties stated there (values between
    [-Math.PI] and [Math.PI], the values ECMAScript names on the axes).
    The bounds on the arithmetic are proved on [SpecFloat], the
    specification of the primitive floats.

    Effects.  The overlays only call the 2D context: they are modelled by
    the list of the calls they make, in order.  The recorder is an object
    with mutable fields, driven by calls of its methods and by the events
    of the browser: its methods and handlers are functions on the fields,
    and a history is a list of events. *)

From Stdlib Require Import Floats ZArith List String Bool Lia.
From Stdlib Require Uint63.
Import ListNotations.

#[local] Set Warnings "-inexact-float".
#[local] Open Scope Z_scope.

(** ** The fragment of JavaScript the sources rely on *)

Module JS.

(** ToBoolean on a number: [0], [-0] and [NaN] are falsy. *)
Definition truthy (v : float) : bool := negb (is_zero v || is_nan v).

Definition Math_abs (v : float) : float := abs v.

(** [Math.max] on two numbers: [NaN] if either is, and [+0] above [-0]. *)
Definition Math_max (a b : float) : float :=
  if is_nan a || is_nan b then nan
  else if (a <? b)%float then b
  else if (b <? a)%float then a
  else if get_sign a then b else a.

(** [Math.PI] *)
Definition Math_PI : float := 0x1.921fb54442d18p+1%float.

(** [Array.prototype.join] on an array of strings. *)
Fixpoint join (sep : string) (parts : list string) : string :=
  match parts with
  | [] => EmptyString
  | [p] => p
  | p :: rest => (p ++ sep ++ join sep rest)%string
  end.

Inductive error : Set := TypeError.

(** The outcome of running a function body: a returned value or a throw. *)
Inductive completion (A : Type) : Type :=
| Returned (a : A)
| Threw (e : error).
Arguments Returned {A} a.
Arguments Threw {A} e.

Definition bind {A B : Type} (c : completion A) (k : A -> completion B)
  : completion B :=
  match c with
  | Returned a => k a
  | Threw e => Threw e
  end.

(** Property access on a value that may be [undefined]. *)
Definition deref {A : Type} (o : option A) : completion A :=
  match o with
  | Some a => Returned a
  | None => Threw TypeError
  end.

End JS.

Notation "x <- c ;; k" := (JS.bind c (fun x => k))
  (at level 61, c at next level, right associativity).

(** ** lib/poseDetection *)

Module PoseDetection.
Import JS.

Record NormalizedLandmark : Set := mkLandmark {
  x : float;
  y : float;
  z : float;
  visibility : float;
}.

(** A landmark array, as the estimator hands it over: every landmark
    carries its four numbers; an entry may be [undefined], and an index past the
    end reads as [undefined]. *)
Definition Landmarks : Set := list (option NormalizedLandmark).

Definition at_index (landmarks : Landmarks) (idx : nat)
  : option NormalizedLandmark :=
  match nth_error landmarks idx with
  | Some entry => entry
  | None => None
  end.

Record PlankDetectionResult : Set := mkResult {
  isPlank : bool;
  confidence : Z;
  feedback : list string;
  landmarks : option Landmarks;
}.

Record PoseAngles : Set := mkAngles {
  leftShoulder : float;
  rightShoulder : float;
  leftElbow : float;
  rightElbow : float;
  leftHip : float;
  rightHip : float;
  leftKnee : float;
  rightKnee : float;
  bodyAlignment : float;
}.

Module POSE_LANDMARKS.
Definition NOSE : nat := 0.
Definition LEFT_SHOULDER : nat := 11.
Definition RIGHT_SHOULDER : nat := 12.
Definition LEFT_ELBOW : nat := 13.
Definition RIGHT_ELBOW : nat := 14.
Definition LEFT_WRIST : nat := 15.
Definition RIGHT_WRIST : nat := 16.
Definition LEFT_HIP : nat := 23.
Definition RIGHT_HIP : nat := 24.
Definition LEFT_KNEE : nat := 25.
Definition RIGHT_KNEE : nat := 26.
Definition LEFT_ANKLE : nat := 27.
Definition RIGHT_ANKLE : nat := 28.
End POSE_LANDMARKS.
Import POSE_LANDMARKS.

(** *** Angles

    [Math.atan2] is provided by the JavaScript engine ("an
    implementation-approximated value"); the angle functions take it as a
    parameter. *)
Section Angles.
Variable Math_atan2 : float -> float -> float.

Definition calculateAngle (a b c : NormalizedLandmark) : float :=
  let radians :=
    (Math_atan2 (y c - y b) (x c - x b)
     - Math_atan2 (y a - y b) (x a - x b))%float in
  let angle := Math_abs ((radians * 180.0) / Math_PI)%float in
  if (180.0 <? angle)%float then (360 - angle)%float else angle.

Definition angleAt (landmarks : Landmarks) (ia ib ic : nat)
  : completion float :=
  a <- deref (at_index landmarks ia) ;;
  b <- deref (at_index landmarks ib) ;;
  c <- deref (at_index landmarks ic) ;;
  Returned (calculateAngle a b c).

Definition calculatePoseAngles (landmarks : Landmarks)
  : completion PoseAngles :=
  leftShoulder <- angleAt landmarks LEFT_ELBOW LEFT_SHOULDER LEFT_HIP ;;
  rightShoulder <- angleAt landmarks RIGHT_ELBOW RIGHT_SHOULDER RIGHT_HIP ;;
  leftElbow <- angleAt landmarks LEFT_SHOULDER LEFT_ELBOW LEFT_WRIST ;;
  rightElbow <- angleAt landmarks RIGHT_SHOULDER RIGHT_ELBOW RIGHT_WRIST ;;
  leftHip <- angleAt landmarks LEFT_SHOULDER LEFT_HIP LEFT_KNEE ;;
  rightHip <- angleAt landmarks RIGHT_SHOULDER RIGHT_HIP RIGHT_KNEE ;;
  leftKnee <- angleAt landmarks LEFT_HIP LEFT_KNEE LEFT_ANKLE ;;
  rightKnee <- angleAt landmarks RIGHT_HIP RIGHT_KNEE RIGHT_ANKLE ;;
  alignLeft <- angleAt landmarks LEFT_SHOULDER LEFT_HIP LEFT_ANKLE ;;
  alignRight <- angleAt landmarks RIGHT_SHOULDER RIGHT_HIP RIGHT_ANKLE ;;
  Returned (mkAngles leftShoulder rightShoulder leftElbow rightElbow
              leftHip rightHip leftKnee rightKnee
              ((alignLeft + alignRight) / 2)%float).
End Angles.

(** *** The visibility gate *)

(** [landmarks[idx] && landmarks[idx].visibility &&
     landmarks[idx].visibility >= minVisibility] *)
Definition visibleAt (landmarks : Landmarks) (minVisibility : float)
  (idx : nat) : bool :=
  match at_index landmarks idx with
  | Some l => truthy (visibility l) && (minVisibility <=? visibility l)%float
  | None => false
  end.

Definition criticalIndices : list nat :=
  [NOSE; LEFT_SHOULDER; RIGHT_SHOULDER; LEFT_HIP; RIGHT_HIP].

Definition optionalIndices : list nat :=
  [LEFT_ELBOW; RIGHT_ELBOW; LEFT_KNEE; RIGHT_KNEE; LEFT_ANKLE; RIGHT_ANKLE].

Definition areLandmarksVisible (landmarks : Landmarks)
  (minVisibility : float) : bool :=
  let criticalVisible :=
    forallb (visibleAt landmarks minVisibility) criticalIndices in
  if negb criticalVisible then false
  else
    let optionalVisible :=
      List.length
        (filter (visibleAt landmarks minVisibility) optionalIndices) in
    (4 <=? optionalVisible)%nat.

(** The default value of [minVisibility]. *)
Definition defaultMinVisibility : float := 0.3%float.

Definition getVerticalDistance (a b : NormalizedLandmark) : float :=
  Math_abs (y a - y b)%float.

Definition getHorizontalDistance (a b : NormalizedLandmark) : float :=
  Math_abs (x a - x b)%float.

(** *** The classifier *)

(** [!l || !l.visibility || l.visibility < 0.3] *)
Definition notSeen (l : option NormalizedLandmark) : bool :=
  match l with
  | None => true
  | Some l => negb (truthy (visibility l)) || (visibility l <? 0.3)%float
  end.

(** The message of the result returned when the visibility gate fails. *)
Definition noPersonFeedback (landmarks : Landmarks) : string :=
  let nose := at_index landmarks NOSE in
  let leftShoulder := at_index landmarks LEFT_SHOULDER in
  let rightShoulder := at_index landmarks RIGHT_SHOULDER in
  let leftHip := at_index landmarks LEFT_HIP in
  let rightHip := at_index landmarks RIGHT_HIP in
  let missingParts : list string := [] in
  let missingParts :=
    if notSeen nose then missingParts ++ ["face"%string]
    else missingParts in
  let missingParts :=
    if notSeen leftShoulder || notSeen rightShoulder
    then missingParts ++ ["shoulders"%string] else missingParts in
  let missingParts :=
    if notSeen leftHip || notSeen rightHip
    then missingParts ++ ["hips"%string] else missingParts in
  if (0 <? List.length missingParts)%nat
  then ("Cannot see: " ++ join ", " missingParts
        ++ ". Move back to show full body.")%string
  else "Cannot see enough body parts. Move back to show full body."%string.

(** The two locals the checks update: [feedback] and [confidence]. *)
Record Score : Set := mkScore {
  messages : list string;
  points : Z;
}.

(** [feedback.push(msg)] *)
Definition push (msg : string) (s : Score) : Score :=
  mkScore (messages s ++ [msg]) (points s).

(** [confidence -= penalty] *)
Definition deduct (penalty : Z) (s : Score) : Score :=
  mkScore (messages s) (points s - penalty).

(** The landmarks the checks read, once each is known to be an object. *)
Record KeyLandmarks : Set := mkKey {
  kNose : NormalizedLandmark;
  kLeftShoulder : NormalizedLandmark;
  kRightShoulder : NormalizedLandmark;
  kLeftElbow : NormalizedLandmark;
  kRightElbow : NormalizedLandmark;
  kLeftHip : NormalizedLandmark;
  kRightHip : NormalizedLandmark;
  kLeftKnee : NormalizedLandmark;
  kRightKnee : NormalizedLandmark;
  kLeftAnkle : NormalizedLandmark;
  kRightAnkle : NormalizedLandmark;
}.

Definition at_y (v : float) : NormalizedLandmark := mkLandmark 0 v 0 1.

(** 1. body is horizontal *)
Definition checkBodyLevel (bodyLevelness : float) (s : Score) : Score :=
  if (0.15 <? bodyLevelness)%float
  then deduct 30 (push "Keep your body straight and level" s)
  else if (0.10 <? bodyLevelness)%float
  then deduct 15 (push "Body alignment could be better" s)
  else s.

(** 2. head position *)
Definition checkHead (noseShoulderDiff : float) (s : Score) : Score :=
  if (0.15 <? noseShoulderDiff)%float
  then deduct 20 (push "Lift your head - look at the camera" s)
  else if (0.10 <? noseShoulderDiff)%float
  then deduct 10 s
  else s.

(** 3. arms are extended *)
Definition checkArms (leftArmExtended rightArmExtended : bool) (s : Score)
  : Score :=
  if negb leftArmExtended || negb rightArmExtended
  then deduct 25 (push "Extend your arms toward the camera" s)
  else s.

(** 4. elbow alignment *)
Definition checkElbows (elbowLevelness : float) (s : Score) : Score :=
  if (0.1 <? elbowLevelness)%float
  then deduct 15 (push "Keep elbows level" s)
  else s.

(** 5. shoulder width *)
Definition checkShoulderWidth (shoulderWidth : float) (s : Score) : Score :=
  if (shoulderWidth <? 0.15)%float
  then deduct 20 (push "Position camera to see both shoulders" s)
  else s.

(** 6. legs are straight *)
Definition checkLegs (legStraightness : float) (s : Score) : Score :=
  if (0.15 <? legStraightness)%float
  then deduct 25 (push "Straighten your legs" s)
  else if (0.10 <? legStraightness)%float
  then deduct 10 s
  else s.

(** 7. body is not too high or low in the frame *)
Definition checkFraming (avgBodyY : float) (s : Score) : Score :=
  if (avgBodyY <? 0.3)%float
  then deduct 15
         (push "Move camera higher or position yourself lower in frame" s)
  else if (0.8 <? avgBodyY)%float
  then deduct 15
         (push "Move camera lower or position yourself higher in frame" s)
  else s.

(** 8. symmetry *)
Definition checkSymmetry (leftRightSymmetry : float) (s : Score) : Score :=
  if (0.15 <? leftRightSymmetry)%float
  then deduct 15 (push "Balance your weight evenly on both sides" s)
  else s.

(** The measurements the eight checks compare against their thresholds. *)
Section Measurements.
Variable k : KeyLandmarks.

Definition shoulderY : float :=
  ((y (kLeftShoulder k) + y (kRightShoulder k)) / 2)%float.
Definition hipY : float := ((y (kLeftHip k) + y (kRightHip k)) / 2)%float.
Definition kneeY : float :=
  ((y (kLeftKnee k) + y (kRightKnee k)) / 2)%float.
Definition ankleY : float :=
  ((y (kLeftAnkle k) + y (kRightAnkle k)) / 2)%float.

Definition bodyLevelness : float :=
  Math_max (getVerticalDistance (at_y shoulderY) (at_y hipY))
           (getVerticalDistance (at_y hipY) (at_y kneeY)).
Definition noseShoulderDiff : float :=
  getVerticalDistance (kNose k) (kLeftShoulder k).
Definition leftArmExtended : bool :=
  (y (kLeftShoulder k) - 0.05 <? y (kLeftElbow k))%float.
Definition rightArmExtended : bool :=
  (y (kRightShoulder k) - 0.05 <? y (kRightElbow k))%float.
Definition elbowLevelness : float :=
  getVerticalDistance (kLeftElbow k) (kRightElbow k).
Definition shoulderWidth : float :=
  getHorizontalDistance (kLeftShoulder k) (kRightShoulder k).
Definition legStraightness : float :=
  (Math_abs (kneeY - hipY) + Math_abs (kneeY - ankleY))%float.
Definition avgBodyY : float := ((shoulderY + hipY + kneeY) / 3)%float.
Definition leftRightSymmetry : float :=
  (Math_abs (y (kLeftShoulder k) - y (kRightShoulder k))
   + Math_abs (y (kLeftHip k) - y (kRightHip k))
   + Math_abs (y (kLeftKnee k) - y (kRightKnee k)))%float.
End Measurements.

(** [feedback = []; confidence = 100] *)
Definition initialScore : Score := mkScore [] 100.

(** The body of the classifier between the initialisation of [feedback]
    and [confidence] and the verdict: the eight checks, in program order. *)
Definition scoreFrame (k : KeyLandmarks) : Score :=
  let s := initialScore in
  let s := checkBodyLevel (bodyLevelness k) s in
  let s := checkHead (noseShoulderDiff k) s in
  let s := checkArms (leftArmExtended k) (rightArmExtended k) s in
  let s := checkElbows (elbowLevelness k) s in
  let s := checkShoulderWidth (shoulderWidth k) s in
  let s := checkLegs (legStraightness k) s in
  let s := checkFraming (avgBodyY k) s in
  let s := checkSymmetry (leftRightSymmetry k) s in
  s.

Definition PASS_THRESHOLD : Z := 55.
Definition MAX_VIOLATIONS : nat := 3.

(** The verdict, the affirmation put in front on a pass, and the result. *)
Definition verdict (landmarks : Landmarks) (s : Score)
  : PlankDetectionResult :=
  let confidence := points s in
  let feedback := messages s in
  let isPlank :=
    (PASS_THRESHOLD <=? confidence)
    && (List.length feedback <=? MAX_VIOLATIONS)%nat in
  let feedback :=
    if isPlank && (85 <=? confidence)
    then "Perfect plank form! 💪"%string :: feedback
    else if isPlank && (70 <=? confidence)
    then "Good plank position - keep it up!"%string :: feedback
    else if isPlank
    then "Plank detected - maintain form"%string :: feedback
    else feedback in
  mkResult isPlank (Z.max 0 confidence) feedback (Some landmarks).

(** Reading the landmarks the checks use; each [deref] stands at the first
    property access of that landmark in the function body. *)
Definition keyLandmarks (landmarks : Landmarks) : completion KeyLandmarks :=
  let nose := at_index landmarks NOSE in
  let leftShoulder := at_index landmarks LEFT_SHOULDER in
  let rightShoulder := at_index landmarks RIGHT_SHOULDER in
  let leftElbow := at_index landmarks LEFT_ELBOW in
  let rightElbow := at_index landmarks RIGHT_ELBOW in
  let leftWrist := at_index landmarks LEFT_WRIST in
  let rightWrist := at_index landmarks RIGHT_WRIST in
  let leftHip := at_index landmarks LEFT_HIP in
  let rightHip := at_index landmarks RIGHT_HIP in
  let leftKnee := at_index landmarks LEFT_KNEE in
  let rightKnee := at_index landmarks RIGHT_KNEE in
  let leftAnkle := at_index landmarks LEFT_ANKLE in
  let rightAnkle := at_index landmarks RIGHT_ANKLE in
  leftShoulder <- deref leftShoulder ;;
  rightShoulder <- deref rightShoulder ;;
  leftHip <- deref leftHip ;;
  rightHip <- deref rightHip ;;
  leftKnee <- deref leftKnee ;;
  rightKnee <- deref rightKnee ;;
  leftAnkle <- deref leftAnkle ;;
  rightAnkle <- deref rightAnkle ;;
  nose <- deref nose ;;
  leftElbow <- deref leftElbow ;;
  rightElbow <- deref rightElbow ;;
  Returned (mkKey nose leftShoulder rightShoulder leftElbow rightElbow
              leftHip rightHip leftKnee rightKnee leftAnkle rightAnkle).

Definition detectPlankPosition (landmarks : Landmarks)
  : completion PlankDetectionResult :=
  if negb (areLandmarksVisible landmarks defaultMinVisibility)
  then
    Returned (mkResult false 0 [noPersonFeedback landmarks] (Some landmarks))
  else
    k <- keyLandmarks landmarks ;;
    Returned (verdict landmarks (scoreFrame k)).

End PoseDetection.

(** ** hooks/usePoseDetection.ts *)

Module UsePoseDetection.
Import JS PoseDetection.

(** The options the stability filter reads.  The two callbacks are
    modelled by the events they stand for. *)
Record UsePoseDetectionOptions : Set := mkOptions {
  stabilityFrames : Z;
  gracePeriodFrames : Z;
}.

(** The defaults of the hook's parameter list. *)
Definition defaultOptions : UsePoseDetectionOptions :=
  mkOptions 5 10.

(** The options the video recorder component passes to the hook. *)
Definition recorderOptions : UsePoseDetectionOptions :=
  mkOptions 5 30.

Inductive Callback : Set :=
| onPlankDetected
| onPlankLost.

(** The refs and the React state the detection loop updates. *)
Record HookState : Set := mkHook {
  plankDetectedCount : Z;
  plankLostCount : Z;
  isPlankActive : bool;
  detectionResult : option PlankDetectionResult;
  error : option string;
}.

Definition initialState : HookState := mkHook 0 0 false None None.

(** The result shown when the estimator finds nobody. *)
Definition noPersonResult : PlankDetectionResult :=
  mkResult false 0 ["No person detected. Position yourself in frame."%string]
    None.

(** One run of [detectPose] on a frame that the estimator has processed:
    [poses] is [result.landmarks], one landmark array per person found.
    Returns the new state and the callbacks invoked, in order.  (The
    early returns before the estimator runs, when it is not ready or when
    less than 66 ms have passed, leave everything as it is.) *)
Definition detectPose (opts : UsePoseDetectionOptions) (st : HookState)
  (poses : list Landmarks) : HookState * list Callback :=
  match poses with
  | landmarks :: _ =>
      match detectPlankPosition landmarks with
      | Threw _ =>
          (* caught: [setError('Detection error occurred')] *)
          (mkHook (plankDetectedCount st) (plankLostCount st)
             (isPlankActive st) (detectionResult st)
             (Some "Detection error occurred"%string), [])
      | Returned plankResult =>
          if isPlank plankResult then
            let detected := plankDetectedCount st + 1 in
            let lost := 0 in
            if negb (isPlankActive st) && (stabilityFrames opts <=? detected)
            then (mkHook detected lost true (Some plankResult) (error st),
                  [onPlankDetected])
            else (mkHook detected lost (isPlankActive st) (Some plankResult)
                    (error st), [])
          else
            let lost := plankLostCount st + 1 in
            let detected := 0 in
            if isPlankActive st && (gracePeriodFrames opts <=? lost)
            then (mkHook detected lost false (Some plankResult) (error st),
                  [onPlankLost])
            else (mkHook detected lost (isPlankActive st) (Some plankResult)
                    (error st), [])
      end
  | [] =>
      let lost := plankLostCount st + 1 in
      let detected := 0 in
      if isPlankActive st && (gracePeriodFrames opts <=? lost)
      then (mkHook detected lost false (Some noPersonResult) (error st),
            [onPlankLost])
      else (mkHook detected lost (isPlankActive st) (Some noPersonResult)
              (error st), [])
  end.

(** [reset] *)
Definition reset (st : HookState) : HookState := mkHook 0 0 false None None.

(** The detection loop over a sequence of processed frames. *)
Fixpoint detectLoop (opts : UsePoseDetectionOptions) (st : HookState)
  (frames : list (list Landmarks)) : HookState * list Callback :=
  match frames with
  | [] => (st, [])
  | poses :: rest =>
      let '(st1, fired) := detectPose opts st poses in
      let '(st2, later) := detectLoop opts st1 rest in
      (st2, fired ++ later)
  end.

End UsePoseDetection.

(** ** Sample frames *)

Module Frames.
Import JS PoseDetection PoseDetection.POSE_LANDMARKS.

Definition pt (px py : float) : option NormalizedLandmark :=
  Some (mkLandmark px py 0 1).

(** A 33-slot frame from the thirteen landmarks the classifier names; the
    other slots hold a visible point at the centre of the image. *)
Definition frame33
  (nose lSh rSh lEl rEl lWr rWr lHip rHip lKn rKn lAn rAn
     : option NormalizedLandmark) : Landmarks :=
  let o := pt 0.5 0.5 in
  [nose; o; o; o; o; o; o; o; o; o; o;
   lSh; rSh; lEl; rEl; lWr; rWr;
   o; o; o; o; o; o;
   lHip; rHip; lKn; rKn; lAn; rAn;
   o; o; o; o].

(** A level, centred, symmetric plank seen from the front. *)
Definition goodPlank : Landmarks :=
  frame33 (pt 0.5 0.5)
    (pt 0.4 0.5) (pt 0.6 0.5) (pt 0.4 0.55) (pt 0.6 0.55)
    (pt 0.4 0.6) (pt 0.6 0.6)
    (pt 0.45 0.5) (pt 0.55 0.5) (pt 0.45 0.5) (pt 0.55 0.5)
    (pt 0.45 0.5) (pt 0.55 0.5).

(** The same plank with the head lowered by 0.12. *)
Definition headLowered : Landmarks :=
  frame33 (pt 0.5 0.62)
    (pt 0.4 0.5) (pt 0.6 0.5) (pt 0.4 0.55) (pt 0.6 0.55)
    (pt 0.4 0.6) (pt 0.6 0.6)
    (pt 0.45 0.5) (pt 0.55 0.5) (pt 0.45 0.5) (pt 0.55 0.5)
    (pt 0.45 0.5) (pt 0.55 0.5).

(** A person standing sideways near the top of the image: every check of
    the classifier is violated. *)
Definition standing : Landmarks :=
  frame33 (pt 0.5 (-0.2))
    (pt 0.5 0.0) (pt 0.55 0.2) (pt 0.5 (-0.3)) (pt 0.55 (-0.1))
    (pt 0.5 0.0) (pt 0.55 0.0)
    (pt 0.5 0.2) (pt 0.55 0.4) (pt 0.5 0.0) (pt 0.55 0.2)
    (pt 0.5 0.9) (pt 0.55 0.9).

(** The good plank with each wrist placed on the shoulder of its side, the
    arm folded back on itself. *)
Definition wristsOnShoulders : Landmarks :=
  frame33 (pt 0.5 0.5)
    (pt 0.4 0.5) (pt 0.6 0.5) (pt 0.4 0.55) (pt 0.6 0.55)
    (pt 0.4 0.5) (pt 0.6 0.5)
    (pt 0.45 0.5) (pt 0.55 0.5) (pt 0.45 0.5) (pt 0.55 0.5)
    (pt 0.45 0.5) (pt 0.55 0.5).

(** The good plank as an estimator would cut it off after the knees: the
    array ends before the ankle slots. *)
Definition anklesCutOff : Landmarks := firstn 27 goodPlank.

End Frames.

(** ** Notions used to state the properties *)

Module Analysis.
Import JS PoseDetection PoseDetection.POSE_LANDMARKS UsePoseDetection.

(** The slots whose [x], [y] the form checks read, in the order of their
    first access. *)
Definition formSlots : list nat :=
  [LEFT_SHOULDER; RIGHT_SHOULDER; LEFT_HIP; RIGHT_HIP; LEFT_KNEE; RIGHT_KNEE;
   LEFT_ANKLE; RIGHT_ANKLE; NOSE; LEFT_ELBOW; RIGHT_ELBOW].

Definition present (landmarks : Landmarks) (idx : nat) : bool :=
  match at_index landmarks idx with
  | Some _ => true
  | None => false
  end.

Definition slotsPresent (landmarks : Landmarks) : bool :=
  forallb (present landmarks) formSlots.

(** The eight checks of [scoreFrame], as the list they are run in. *)
Definition formChecks (k : KeyLandmarks) : list (Score -> Score) :=
  [checkBodyLevel (bodyLevelness k);
   checkHead (noseShoulderDiff k);
   checkArms (leftArmExtended k) (rightArmExtended k);
   checkElbows (elbowLevelness k);
   checkShoulderWidth (shoulderWidth k);
   checkLegs (legStraightness k);
   checkFraming (avgBodyY k);
   checkSymmetry (leftRightSymmetry k)].

Definition runChecks (checks : list (Score -> Score)) (s : Score) : Score :=
  fold_left (fun s check => check s) checks s.

(** The amounts subtracted from the confidence along a run, one entry per
    check that lowered it. *)
Fixpoint deductions (checks : list (Score -> Score)) (s : Score) : list Z :=
  match checks with
  | [] => []
  | check :: rest =>
      let s' := check s in
      (if points s' =? points s then [] else [points s - points s'])
        ++ deductions rest s'
  end.

(** Whether a check lowers the confidence and leaves the feedback list as
    long as it was. *)
Definition silentAt (check : Score -> Score) (s : Score) : bool :=
  negb (points (check s) =? points s)
  && (List.length (messages (check s)) =? List.length (messages s))%nat.

(** The number of such checks along a run. *)
Fixpoint silentDeductions (checks : list (Score -> Score)) (s : Score) : nat :=
  match checks with
  | [] => 0%nat
  | check :: rest =>
      ((if silentAt check s then 1 else 0)
       + silentDeductions rest (check s))%nat
  end.

Definition sumZ (l : list Z) : Z := fold_right Z.add 0 l.

(** The feedback texts of the checks, in check order. *)
Definition checkTexts : list (list string) :=
  [["Keep your body straight and level"; "Body alignment could be better"];
   ["Lift your head - look at the camera"];
   ["Extend your arms toward the camera"];
   ["Keep elbows level"];
   ["Position camera to see both shoulders"];
   ["Straighten your legs"];
   ["Move camera higher or position yourself lower in frame";
    "Move camera lower or position yourself higher in frame"];
   ["Balance your weight evenly on both sides"]]%string.

Definition violationTexts : list string := List.concat checkTexts.

Definition affirmationTexts : list string :=
  ["Perfect plank form! 💪"; "Good plank position - keep it up!";
   "Plank detected - maintain form"]%string.

(** The middle tiers of the head and leg checks. *)
Definition headMiddleTier (k : KeyLandmarks) : bool :=
  negb (0.15 <? noseShoulderDiff k)%float && (0.10 <? noseShoulderDiff k)%float.

Definition legsMiddleTier (k : KeyLandmarks) : bool :=
  negb (0.15 <? legStraightness k)%float && (0.10 <? legStraightness k)%float.

(** The number of messages of a result that are not the affirmation put in
    front on a pass. *)
Definition violationCount (r : PlankDetectionResult) : nat :=
  (List.length (feedback r) - (if isPlank r then 1 else 0))%nat.

(** [l1] is [l2] with some entries left out. *)
Inductive Subseq {A : Type} : list A -> list A -> Prop :=
| Subseq_nil : forall l, Subseq [] l
| Subseq_skip : forall a l1 l2, Subseq l1 l2 -> Subseq l1 (a :: l2)
| Subseq_take : forall a l1 l2, Subseq l1 l2 -> Subseq (a :: l1) (a :: l2).

(** What one check may do to the score: nothing, a penalty of 10 without a
    message (only where [quiet] allows it), or one message of its own
    together with a penalty. *)
Inductive CheckStep (quiet : bool) (texts : list string) (s : Score)
  : Score -> Prop :=
| step_pass : CheckStep quiet texts s s
| step_quiet : quiet = true -> CheckStep quiet texts s (deduct 10 s)
| step_flag : forall p m,
    In p [15; 20; 25; 30] -> In m texts ->
    CheckStep quiet texts s (deduct p (push m s)).

(** What a run of checks, each a [CheckStep], does to the score. *)
Record RunFacts (checks : list (Score -> Score)) (quiet : list bool)
  (texts : list (list string)) (s : Score) (added : list string) : Prop := {
  run_messages : messages (runChecks checks s) = messages s ++ added;
  run_order : Subseq added (List.concat texts);
  run_points :
    points (runChecks checks s) = points s - sumZ (deductions checks s);
  run_penalties :
    Forall (fun p => In p [10; 15; 20; 25; 30]) (deductions checks s);
  run_pairing :
    List.length (deductions checks s)
    = (List.length added + silentDeductions checks s)%nat;
  run_quiet :
    (silentDeductions checks s <= List.length (filter id quiet))%nat;
}.

(** Which checks have a tier without a message. *)
Definition checkQuiet : list bool :=
  [false; true; false; false; false; true; false; false].

(** The three ways a call of the classifier ends. *)
Inductive Outcome (landmarks : Landmarks)
  : completion PlankDetectionResult -> Prop :=
| NoPerson :
    areLandmarksVisible landmarks defaultMinVisibility = false ->
    Outcome landmarks
      (Returned (mkResult false 0 [noPersonFeedback landmarks]
                   (Some landmarks)))
| Scored : forall k,
    areLandmarksVisible landmarks defaultMinVisibility = true ->
    slotsPresent landmarks = true ->
    keyLandmarks landmarks = Returned k ->
    Outcome landmarks (Returned (verdict landmarks (scoreFrame k)))
| Crashed :
    areLandmarksVisible landmarks defaultMinVisibility = true ->
    slotsPresent landmarks = false ->
    Outcome landmarks (Threw TypeError).

(** The message of the arm check. *)
Definition armText : string := "Extend your arms toward the camera".

(** The two bands of elbow angles, forearm plank and straight-arm plank. *)
Definition inBand (angle : float) : bool :=
  ((70 <=? angle)%float && (angle <=? 130)%float)
  || ((145 <=? angle)%float && (angle <=? 200)%float).

(** The reading under which the arm check goes by the elbow angles: a
    frame that passes the gate and draws no arm message has both
    shoulder-elbow-wrist angles in a band. *)
Definition armCheckByAngle (Math_atan2 : float -> float -> float) : Prop :=
  forall landmarks r angles,
    areLandmarksVisible landmarks defaultMinVisibility = true ->
    detectPlankPosition landmarks = Returned r ->
    calculatePoseAngles Math_atan2 landmarks = Returned angles ->
    ~ In armText (feedback r) ->
    inBand (leftElbow angles) = true /\ inBand (rightElbow angles) = true.

(** Two frames that agree in every slot but the two wrists. *)
Definition agreeOffWrists (landmarks landmarks' : Landmarks) : Prop :=
  forall i, i <> LEFT_WRIST -> i <> RIGHT_WRIST ->
            at_index landmarks i = at_index landmarks' i.

(** The double that holds the integer [n]. *)
Definition number (n : Z) : float :=
  match n with
  | Z0 => 0%float
  | Zpos _ => of_uint63 (Uint63.of_Z n)
  | Zneg p => (- of_uint63 (Uint63.of_Z (Zpos p)))%float
  end.

(** The operations the classifier applies to its confidence, run on the
    double [number n] and compared with their results on [n]: subtracting
    a penalty, comparing with a threshold, and the final [Math.max]. *)
Definition exactAt (n : Z) : bool :=
  forallb (fun p => Leibniz.eqb (number n - number p)%float (number (n - p)))
    [10; 15; 20; 25; 30]
  && forallb (fun t => Bool.eqb (number t <=? number n)%float (t <=? n))
       [55; 70; 85]
  && Leibniz.eqb (Math_max 0 (number n)) (number (Z.max 0 n)).

(** The integers from -140 to 100. *)
Definition confidenceRange : list Z :=
  map (fun i => Z.of_nat i - 140) (seq 0 241).

(** How a processed frame counts for the stability filter: [Some true] for
    a passing classification, [Some false] for a failing one or for a frame
    without a person, [None] when the classifier throws. *)
Definition frameVerdict (poses : list Landmarks) : option bool :=
  match poses with
  | [] => Some false
  | landmarks :: _ =>
      match detectPlankPosition landmarks with
      | Returned r => Some (isPlank r)
      | Threw _ => None
      end
  end.

Definition passing (poses : list Landmarks) : Prop :=
  frameVerdict poses = Some true.

Definition failing (poses : list Landmarks) : Prop :=
  frameVerdict poses = Some false.

End Analysis.

(** ** lib/poseDetection: the overlays *)

Module PoseOverlay.
Import JS PoseDetection PoseDetection.POSE_LANDMARKS Analysis.

(** The calls made on the 2D context, in order; an assignment to a
    property of the context is a call of its setter. *)
Inductive CanvasCall : Set :=
| SetStrokeStyle (style : string)
| SetLineWidth (width : float)
| SetFillStyle (style : string)
| SetFont (font : string)
| SetTextAlign (align : string)
| SetTextBaseline (baseline : string)
| BeginPath
| MoveTo (px py : float)
| LineTo (px py : float)
| Stroke
| Arc (px py radius startAngle endAngle : float)
| Fill
| FillRect (px py width height : float)
| FillText (text : string) (px py : float).

(** [Math.min] on two numbers: [NaN] if either is, and [-0] below [+0]. *)
Definition Math_min (a b : float) : float :=
  if is_nan a || is_nan b then nan
  else if (a <? b)%float then a
  else if (b <? a)%float then b
  else if get_sign a then a else b.

(** [l && l.visibility && l.visibility > 0.5] *)
Definition drawn (l : option NormalizedLandmark) : bool :=
  match l with
  | Some l => truthy (visibility l) && (0.5 <? visibility l)%float
  | None => false
  end.

Definition connections : list (nat * nat) :=
  [(LEFT_SHOULDER, RIGHT_SHOULDER); (LEFT_SHOULDER, LEFT_HIP);
   (RIGHT_SHOULDER, RIGHT_HIP); (LEFT_HIP, RIGHT_HIP);
   (LEFT_SHOULDER, LEFT_ELBOW); (LEFT_ELBOW, LEFT_WRIST);
   (RIGHT_SHOULDER, RIGHT_ELBOW); (RIGHT_ELBOW, RIGHT_WRIST);
   (LEFT_HIP, LEFT_KNEE); (LEFT_KNEE, LEFT_ANKLE);
   (RIGHT_HIP, RIGHT_KNEE); (RIGHT_KNEE, RIGHT_ANKLE)].

(** The body of the loop over the connections. *)
Definition drawConnection (landmarks : Landmarks)
  (canvasWidth canvasHeight : float) (connection : nat * nat)
  : list CanvasCall :=
  let '(start, finish) := connection in
  let startLandmark := at_index landmarks start in
  let endLandmark := at_index landmarks finish in
  match startLandmark, endLandmark with
  | Some s, Some e =>
      if drawn startLandmark && drawn endLandmark
      then [BeginPath;
            MoveTo (x s * canvasWidth) (y s * canvasHeight);
            LineTo (x e * canvasWidth) (y e * canvasHeight);
            Stroke]
      else []
  | _, _ => []
  end.

(** The body of the loop over the landmarks. *)
Definition drawLandmark (canvasWidth canvasHeight : float)
  (landmark : option NormalizedLandmark) : list CanvasCall :=
  match landmark with
  | Some l =>
      if drawn landmark
      then [BeginPath;
            Arc (x l * canvasWidth) (y l * canvasHeight) 5 0 (2 * Math_PI);
            Fill]
      else []
  | None => []
  end.

Definition drawPoseSkeleton (landmarks : Landmarks)
  (canvasWidth canvasHeight : float) (color : string) : list CanvasCall :=
  [SetStrokeStyle color; SetLineWidth 3]
    ++ flat_map (drawConnection landmarks canvasWidth canvasHeight) connections
    ++ [SetFillStyle color]
    ++ flat_map (drawLandmark canvasWidth canvasHeight) landmarks.

(** The default of the [color] parameter. *)
Definition defaultColor : string := "#00FF00".

Definition meterWidth : float := 200.
Definition meterHeight : float := 20.
Definition padding : float := 15.

(** [(result.confidence / 100) * meterWidth] *)
Definition fillWidth (result : PlankDetectionResult) : float :=
  ((number (confidence result) / 100) * meterWidth)%float.

Definition meterColor (result : PlankDetectionResult) : string :=
  if 80 <=? confidence result then "#00FF00"
  else if 60 <=? confidence result then "#FFFF00"
  else "#FF0000".

Section Feedback.
(** The conversion of a number to a string in a template literal is the
    engine's. *)
Variable numberToString : float -> string.

(** The loop over the feedback, [index] counting from [start]. *)
Fixpoint drawFeedbackLines (isPlank : bool) (lineHeight : float)
  (index : Z) (texts : list string) : list CanvasCall :=
  match texts with
  | [] => []
  | text :: rest =>
      let color :=
        if isPlank && (index =? 0) then "#00FF00"%string
        else "#FFFF00"%string in
      [SetFillStyle color;
       FillText text (padding * 2)
         (padding * 1.5 + number index * lineHeight)]
        ++ drawFeedbackLines isPlank lineHeight (index + 1) rest
  end.

(** The confidence is a whole number, which [Math.round] leaves as it
    is. *)
Definition drawDetectionFeedback (result : PlankDetectionResult)
  (canvasWidth canvasHeight : float) : list CanvasCall :=
  let fontSize := (Math_min canvasWidth canvasHeight * 0.04)%float in
  let lineHeight := (fontSize * 1.4)%float in
  let feedbackHeight :=
    (number (Z.of_nat (List.length (feedback result))) * lineHeight
     + padding * 2)%float in
  let meterX := (canvasWidth - meterWidth - padding)%float in
  let meterY := (canvasHeight - meterHeight - padding)%float in
  [SetFont ("bold " ++ numberToString fontSize ++ "px sans-serif");
   SetTextAlign "left";
   SetTextBaseline "top";
   SetFillStyle "rgba(0, 0, 0, 0.7)";
   FillRect padding padding (canvasWidth - padding * 2) feedbackHeight]
    ++ drawFeedbackLines (isPlank result) lineHeight 0 (feedback result)
    ++ [SetFillStyle "rgba(0, 0, 0, 0.7)";
        FillRect (meterX - 10) (meterY - 10) (meterWidth + 20)
          (meterHeight + 30);
        SetFont (numberToString (fontSize * 0.8) ++ "px sans-serif");
        SetFillStyle "#FFFFFF";
        SetTextAlign "left";
        FillText "Detection:" meterX (meterY - 5);
        SetFillStyle "rgba(255, 255, 255, 0.3)";
        FillRect meterX (meterY + 15) meterWidth meterHeight;
        SetFillStyle (meterColor result);
        FillRect meterX (meterY + 15) (fillWidth result) meterHeight;
        SetFont ("bold " ++ numberToString (fontSize * 0.9)
                 ++ "px sans-serif");
        SetFillStyle "#FFFFFF";
        SetTextAlign "center";
        FillText (numberToString (number (confidence result)) ++ "%")
          (meterX + meterWidth / 2)
          (meterY + 15 + meterHeight / 2 + 2)]%float%string.
End Feedback.

(** The points a sequence of calls touches. *)
Definition touched (call : CanvasCall) : list (float * float) :=
  match call with
  | MoveTo px py | LineTo px py | Arc px py _ _ _ => [(px, py)]
  | _ => []
  end.

(** The calls that put ink on the canvas. *)
Definition inks (call : CanvasCall) : bool :=
  match call with
  | Stroke | Fill | FillRect _ _ _ _ | FillText _ _ _ => true
  | _ => false
  end.

End PoseOverlay.

(** ** utils/videoRecorder.ts *)

Module VideoRecorderUtil.

(** An optional property of an options object: absent, or present with a
    value that may be [undefined]. *)
Definition optional (A : Type) : Type := option (option A).

(** Reading a property: an absent one reads as [undefined]. *)
Definition read {A : Type} (property : optional A) : option A :=
  match property with
  | Some value => value
  | None => None
  end.

(** A property of [{ name: default, ...options }]: the own property of
    [options] wins, also when its value is [undefined]. *)
Definition spreadOver {A : Type} (default : A) (own : optional A)
  : optional A :=
  match own with
  | Some value => Some value
  | None => Some (Some default)
  end.

Record RecorderOptions : Type := mkRecorderOptions {
  mimeType : optional string;
  videoBitsPerSecond : optional float;
}.

(** [{}], the default of the constructor's parameter. *)
Definition noOptions : RecorderOptions := mkRecorderOptions None None.

Definition types : list string :=
  ["video/webm;codecs=vp9"; "video/webm;codecs=vp8"; "video/webm";
   "video/mp4"]%string.

(** What a call of [start] meets in the browser: [new MediaRecorder] may
    throw, and so may the recorder's own [start]. *)
Inductive BrowserStart : Set := StartOk | ConstructorThrows | StartThrows.

(** What is thrown or what a promise is rejected with: an [Error] made by
    this file, or whatever the browser threw. *)
Inductive Failure : Set :=
| NewError (message : string)
| BrowserError.

(** How the promise of [stop] stands when [stop] returns. *)
Inductive Settlement : Set :=
| Pending
| Rejected (reason : Failure).

Section Recorder.
(** What the browser provides: blobs and their [size], media streams, and
    [MediaRecorder.isTypeSupported]. *)
Variable Blob : Type.
Variable size : Blob -> Z.
Variable MediaStream : Type.
Variable isTypeSupported : string -> bool.

(** The loop of [getSupportedMimeType] over the candidates left, and the
    fallback after it. *)
Fixpoint firstSupported (candidates : list string) : string :=
  match candidates with
  | [] => "video/webm"
  | type :: rest =>
      if isTypeSupported type then type else firstSupported rest
  end.

Definition getSupportedMimeType : string := firstSupported types.

(** The fields of the class.  Of the [MediaRecorder] the class only tests
    whether there is one, so [mediaRecorder] records just that. *)
Record VideoRecorder : Type := mkVideoRecorder {
  options : RecorderOptions;
  mediaRecorder : bool;
  recordedChunks : list Blob;
  stream : option MediaStream;
}.

(** The constructor. *)
Definition new_VideoRecorder (given : RecorderOptions) : VideoRecorder :=
  mkVideoRecorder
    (mkRecorderOptions
       (spreadOver getSupportedMimeType (mimeType given))
       (spreadOver 2500000%float (videoBitsPerSecond given)))
    false [] None.

(** [start]: the new state, and what it threw if it threw. *)
Definition start (browser : BrowserStart) (canvasStream : MediaStream)
  (this : VideoRecorder) : VideoRecorder * option Failure :=
  let this :=
    mkVideoRecorder (options this) (mediaRecorder this) []
      (Some canvasStream) in
  match browser with
  | ConstructorThrows => (this, Some (NewError "Failed to start recording"))
  | StartThrows =>
      (mkVideoRecorder (options this) true (recordedChunks this)
         (stream this),
       Some (NewError "Failed to start recording"))
  | StartOk =>
      (mkVideoRecorder (options this) true (recordedChunks this)
         (stream this),
       None)
  end.

(** The handler of [dataavailable] that [start] installs; [data] is
    [event.data]. *)
Definition ondataavailable (data : option Blob) (this : VideoRecorder)
  : VideoRecorder :=
  match data with
  | Some blob =>
      if 0 <? size blob
      then mkVideoRecorder (options this) (mediaRecorder this)
             (recordedChunks this ++ [blob]) (stream this)
      else this
  | None => this
  end.

(** [stop], up to its return: the promise is rejected at once, or left to
    the handlers of [stop] and [error]; [browserThrows] says whether the
    recorder's own [stop] throws. *)
Definition stop (browserThrows : bool) (this : VideoRecorder) : Settlement :=
  if negb (mediaRecorder this)
  then Rejected (NewError "No active recording")
  else if browserThrows then Rejected BrowserError
  else Pending.

(** The arguments of [new Blob(parts, { type })]. *)
Record BlobArguments : Type := mkBlobArguments {
  parts : list Blob;
  type : option string;
}.

(** The handler of [stop] that [stop] installs: the blob the promise is
    resolved with. *)
Definition onstop (this : VideoRecorder) : BlobArguments :=
  mkBlobArguments (recordedChunks this) (read (mimeType (options this))).

(** The handler of [error] that [stop] installs. *)
Definition onerror : Settlement := Rejected (NewError "Recording error").

(** What happens to a recorder: calls of its methods and runs of its
    [dataavailable] handler, in the order the browser makes them. *)
Inductive Event : Type :=
| CallStart (browser : BrowserStart) (canvasStream : MediaStream)
| DataAvailable (data : option Blob)
| CallStop (browserThrows : bool).

Definition step (this : VideoRecorder) (event : Event) : VideoRecorder :=
  match event with
  | CallStart browser canvasStream => fst (start browser canvasStream this)
  | DataAvailable data => ondataavailable data this
  | CallStop _ => this
  end.

Definition run (events : list Event) (this : VideoRecorder) : VideoRecorder :=
  fold_left step events this.

Definition isStart (event : Event) : bool :=
  match event with
  | CallStart _ _ => true
  | _ => false
  end.

(** Whether an event is a call of [start] that gets a [MediaRecorder]
    made. *)
Definition constructs (event : Event) : bool :=
  match event with
  | CallStart StartOk _ | CallStart StartThrows _ => true
  | _ => false
  end.

(** The data delivered by a sequence of events, empty blobs left out. *)
Definition delivered (events : list Event) : list Blob :=
  flat_map (fun event =>
              match event with
              | DataAvailable (Some blob) =>
                  if 0 <? size blob then [blob] else []
              | _ => []
              end) events.

End Recorder.

Arguments options {Blob MediaStream} _.
Arguments mediaRecorder {Blob MediaStream} _.
Arguments recordedChunks {Blob MediaStream} _.
Arguments stream {Blob MediaStream} _.
Arguments start {Blob MediaStream} browser canvasStream this.
Arguments ondataavailable {Blob} size {MediaStream} data this.
Arguments stop {Blob MediaStream} browserThrows this.
Arguments mkBlobArguments {Blob} parts type.
Arguments onstop {Blob MediaStream} this.
Arguments CallStart {Blob MediaStream} browser canvasStream.
Arguments DataAvailable {Blob MediaStream} data.
Arguments CallStop {Blob MediaStream} browserThrows.
Arguments step {Blob} size {MediaStream} this event.
Arguments run {Blob} size {MediaStream} events this.
Arguments isStart {Blob MediaStream} event.
Arguments constructs {Blob MediaStream} event.
Arguments delivered {Blob} size {MediaStream} events.

End VideoRecorderUtil.

(** ** Further notions *)

Module Derived.
Import JS PoseDetection PoseDetection.POSE_LANDMARKS UsePoseDetection Analysis.

(** The slots [calculatePoseAngles] reads, in the order of their first
    access. *)
Definition angleSlots : list nat :=
  [LEFT_ELBOW; LEFT_SHOULDER; LEFT_HIP; RIGHT_ELBOW; RIGHT_SHOULDER;
   RIGHT_HIP; LEFT_WRIST; RIGHT_WRIST; LEFT_KNEE; RIGHT_KNEE; LEFT_ANKLE;
   RIGHT_ANKLE].

(** What the classifier reads of a landmark: [x], [y] and [visibility]. *)
Definition planar (l : NormalizedLandmark) : float * float * float :=
  (x l, y l, visibility l).

(** Two frames that look the same to the classifier: in each of the eleven
    slots it names, both have no landmark or landmarks with the same [x],
    [y] and [visibility]. *)
Definition sameView (landmarks landmarks' : Landmarks) : Prop :=
  forall i, In i formSlots ->
            option_map planar (at_index landmarks i)
            = option_map planar (at_index landmarks' i).

(** What two results have in common when they differ at most in the
    landmark array handed back. *)
Definition sameVerdict (r r' : PlankDetectionResult) : Prop :=
  isPlank r' = isPlank r /\ confidence r' = confidence r
  /\ feedback r' = feedback r.

(** *** The stability filter *)

(** Whether a sequence of callbacks takes turns, given whether the filter
    is active before it: [onPlankLost] only while active,
    [onPlankDetected] only while inactive. *)
Fixpoint takesTurns (active : bool) (fired : list Callback) : bool :=
  match fired with
  | [] => true
  | onPlankDetected :: rest => negb active && takesTurns true rest
  | onPlankLost :: rest => active && takesTurns false rest
  end.

(** Whether the filter is active after a sequence of callbacks. *)
Definition activeAfter (active : bool) (fired : list Callback) : bool :=
  fold_left (fun _ callback =>
               match callback with
               | onPlankDetected => true
               | onPlankLost => false
               end) fired active.

(** The shape of the counters in every state the detection loop reaches:
    neither is negative, one of them is 0, an inactive filter has counted
    fewer passes than [stabilityFrames] and an active one fewer failures
    than [gracePeriodFrames]. *)
Definition countersInShape (opts : UsePoseDetectionOptions) (st : HookState)
  : Prop :=
  0 <= plankDetectedCount st /\ 0 <= plankLostCount st
  /\ (plankDetectedCount st = 0 \/ plankLostCount st = 0)
  /\ (if isPlankActive st
      then plankLostCount st < gracePeriodFrames opts
      else plankDetectedCount st < stabilityFrames opts).

(** Whether the classifier throws on a frame. *)
Definition throwsOn (poses : list Landmarks) : bool :=
  match frameVerdict poses with
  | None => true
  | Some _ => false
  end.

(** The longest run of failing frames in a sequence, the run in progress
    being [current] long; a frame on which the classifier throws neither
    adds to a run nor ends it. *)
Fixpoint longestFailRun (current : Z) (frames : list (list Landmarks)) : Z :=
  match frames with
  | [] => current
  | poses :: rest =>
      match frameVerdict poses with
      | Some false => longestFailRun (current + 1) rest
      | Some true => Z.max current (longestFailRun 0 rest)
      | None => longestFailRun current rest
      end
  end.

(** The longest run of passing frames, likewise. *)
Fixpoint longestPassRun (current : Z) (frames : list (list Landmarks)) : Z :=
  match frames with
  | [] => current
  | poses :: rest =>
      match frameVerdict poses with
      | Some true => longestPassRun (current + 1) rest
      | Some false => Z.max current (longestPassRun 0 rest)
      | None => longestPassRun current rest
      end
  end.

(** The texts drawn while the fill style is [style], the style being
    [current] before the calls. *)
Fixpoint textsIn (style current : string)
  (calls : list PoseOverlay.CanvasCall) : list string :=
  match calls with
  | [] => []
  | PoseOverlay.SetFillStyle s :: rest => textsIn style s rest
  | PoseOverlay.FillText text _ _ :: rest =>
      if String.eqb current style
      then text :: textsIn style current rest
      else textsIn style current rest
  | _ :: rest => textsIn style current rest
  end.

(** The confidences a result can carry. *)
Definition confidenceValues : list Z :=
  map (fun n => 5 * Z.of_nat n) (seq 0 21).

(** The point of the canvas a landmark is drawn at. *)
Definition onCanvas (canvasWidth canvasHeight : float)
  (l : NormalizedLandmark) : float * float :=
  ((x l * canvasWidth)%float, (y l * canvasHeight)%float).

(** A browser that records VP8 and plain WebM. *)
Definition vp8Only (type : string) : bool :=
  String.eqb type "video/webm;codecs=vp8" || String.eqb type "video/webm".

(** The good plank with every landmark at visibility 0.4: enough for the
    gate, too little for the skeleton. *)
Definition goodPlankFaint : Landmarks :=
  map (option_map (fun l => mkLandmark (x l) (y l) (z l) 0.4))
    Frames.goodPlank.

(** The good plank cut off after the ankles, with another depth in every
    landmark. *)
Definition goodPlankDeep : Landmarks :=
  map (option_map (fun l => mkLandmark (x l) (y l) 0.7 (visibility l)))
    (firstn 29 Frames.goodPlank).

(** What [calculateAngle] reads of a landmark: [x] and [y]. *)
Definition position (l : NormalizedLandmark) : float * float := (x l, y l).

(** Two arrays that hold the same positions in the twelve slots
    [calculatePoseAngles] reads, or nothing in the same ones. *)
Definition sameOutline (landmarks landmarks' : Landmarks) : Prop :=
  forall i, In i angleSlots ->
            option_map position (at_index landmarks i)
            = option_map position (at_index landmarks' i).

(** The good plank with each wrist below its elbow and towards the middle,
    so that both shoulder-elbow-wrist angles are 135 degrees, between the
    two bands. *)
Definition elbowsAt135 : Landmarks :=
  Frames.frame33 (Frames.pt 0.5 0.5)
    (Frames.pt 0.4 0.5) (Frames.pt 0.6 0.5)
    (Frames.pt 0.4 0.55) (Frames.pt 0.6 0.55)
    (Frames.pt 0.45 0.6) (Frames.pt 0.55 0.6)
    (Frames.pt 0.45 0.5) (Frames.pt 0.55 0.5)
    (Frames.pt 0.45 0.5) (Frames.pt 0.55 0.5)
    (Frames.pt 0.45 0.5) (Frames.pt 0.55 0.5).

(** A landmark as the unit tests of the repository make it, with a
    visibility of 0.9. *)
Definition mockLandmark (px py : float) : option NormalizedLandmark :=
  Some (mkLandmark px py 0 0.9).

(** The frame of the unit test [should detect when elbow position is
    incorrect]: the left side of a plank seen from the side, the elbow 0.2
    in front of the shoulder; every other slot holds the default of the
    tests, a visible point at the centre. *)
Definition elbowTestFrame : Landmarks :=
  Frames.frame33 (mockLandmark 0.3 0.4)
    (mockLandmark 0.3 0.45) (Frames.pt 0.5 0.5)
    (mockLandmark 0.5 0.5) (Frames.pt 0.5 0.5)
    (mockLandmark 0.5 0.55) (Frames.pt 0.5 0.5)
    (mockLandmark 0.6 0.45) (Frames.pt 0.5 0.5)
    (mockLandmark 0.8 0.45) (Frames.pt 0.5 0.5)
    (mockLandmark 0.95 0.45) (Frames.pt 0.5 0.5).

End Derived.

(** ** Binary64 values

    Notions about the values of [SpecFloat], the specification that the
    primitive floats come with. *)

Module Binary64.
#[local] Open Scope Z_scope.

(** A shifted mantissa that has lost no set bit: neither the round bit nor
    the sticky bit is set. *)
Definition noBitsLost (mrs : shr_record) : Prop :=
  shr_r mrs = false /\ shr_s mrs = false.

(** A mantissa with all 53 digits. *)
Definition normal (m : positive) : Prop := 2 ^ 52 <= Z.pos m < 2 ^ 53.

(** A float of sign [s] that is a zero or has a magnitude of at most
    [mb * 2 ^ eb], a normal number. *)
Definition bounded_by (s : bool) (f : spec_float) (mb : positive) (eb : Z)
  : Prop :=
  f = S754_zero s
  \/ exists m e, f = S754_finite s m e
                 /\ (e < eb \/ (e = eb /\ Z.pos m <= Z.pos mb)).

(** A zero or a finite float of magnitude at most [mb * 2 ^ eb], whatever
    its sign. *)
Definition within (f : spec_float) (mb : positive) (eb : Z) : Prop :=
  match f with
  | S754_zero _ => True
  | S754_finite _ m e => e < eb \/ (e = eb /\ Z.pos m <= Z.pos mb)
  | _ => False
  end.

(** A float that is not a zero, with its sign. *)
Definition signed (s : bool) (f : spec_float) : Prop :=
  f = S754_infinity s \/ exists m e, f = S754_finite s m e.

End Binary64.

(** ** Notions about the angle primitive *)

Module AngleNotions.
Import JS PoseDetection.
#[local] Open Scope Z_scope.

(** [-Math.PI <= t && t <= Math.PI] *)
Definition inRange (t : float) : bool :=
  ((- Math_PI <=? t) && (t <=? Math_PI))%float.


(** What [calculateAngle] reads of a landmark is finite. *)
Definition finiteLandmark (l : NormalizedLandmark) : bool :=
  is_finite (x l) && is_finite (y l).

(** [Math.atan2] returns a polar angle between [-Math.PI] and [Math.PI]
    whenever no argument is [NaN]. *)
Definition atan2InRange (Math_atan2 : float -> float -> float) : Prop :=
  forall y x, is_nan y = false -> is_nan x = false ->
              inRange (Math_atan2 y x) = true.

(** The values of [Math.atan2] on the half-axes, for [y = +0] or
    [x = +0]: 0, [Math.PI], and a quarter turn either way. *)
Definition atan2OnAxes (Math_atan2 : float -> float -> float) : Prop :=
  (forall x, (0 <? x)%float = true -> Math_atan2 0%float x = 0%float)
  /\ (forall x, (x <? 0)%float = true -> Math_atan2 0%float x = Math_PI)
  /\ (forall y, (0 <? y)%float = true ->
                Math_atan2 y 0%float = (Math_PI / 2)%float)
  /\ (forall y, (y <? 0)%float = true ->
                Math_atan2 y 0%float = (- (Math_PI / 2))%float).

(** [v] lies strictly between [u] and [w]. *)
Definition strictlyBetween (u v w : float) : bool :=
  ((u <? v) && (v <? w) || (w <? v) && (v <? u))%float.

(** Three points on a horizontal or on a vertical line, the second
    strictly between the other two. *)
Definition betweenOnAxis (a b c : NormalizedLandmark) : Prop :=
  (y a = y b /\ y c = y b /\ strictlyBetween (x a) (x b) (x c) = true)
  \/ (x a = x b /\ x c = x b /\ strictlyBetween (y a) (y b) (y c) = true).

(** [Math.atan2] as far as this development evaluates it: on the axes the
    values ECMAScript names, at (5, 1) and (-5, -1) the doubles nearest to
    the arctangents, which the engines return; 0 elsewhere. *)
Definition knownAtan2 (y x : float) : float :=
  (if y =? 0 then
     if x <? 0 then (if get_sign y then - Math_PI else Math_PI)
     else (if get_sign y then -0 else 0)
   else if x =? 0 then
     if 0 <? y then Math_PI / 2 else - (Math_PI / 2)
   else if (y =? 1) && (x =? 5) then 0x1.94441f8f7260bp-3
   else if (y =? -1) && (x =? -5) then -0x1.78db734b4bab8p+1
   else 0)%float.

Definition planePoint (px py : float) : NormalizedLandmark :=
  mkLandmark px py 0 1.

(** The mantissas of [Math.PI], of 180 and 360, and of the double
    [2 * Math.PI * 180]. *)
Definition mantissaPI : positive := 7074237752028440.
Definition mantissa180 : positive := 6333186975989760.
Definition mantissaTurn : positive := 4974073419394997.

End AngleNotions.

(** ** Facts about binary64 arithmetic *)

Module FloatFacts.
Import JS PoseDetection Analysis.
#[local] Open Scope float_scope.

Lemma SFsub_diag (v : spec_float) :
  SF64sub v v = S754_zero false \/ SF64sub v v = S754_nan.
Proof.
  destruct v as [s | s | | s m e]; cbn.
  - left. destruct s; reflexivity.
  - right. destruct s; reflexivity.
  - right; reflexivity.
  - left. rewrite Z.sub_diag. reflexivity.
Qed.

Lemma sub_diag (t : float) : t - t = zero \/ t - t = nan.
Proof.
  destruct (SFsub_diag (Prim2SF t)) as [H | H];
    rewrite <- sub_spec in H; [left | right];
    apply Prim2SF_inj; rewrite H; reflexivity.
Qed.

Lemma binary_round_aux_abs (s s' : bool) (m e : Z) (l : location) :
  SFabs (binary_round_aux prec emax s m e l)
  = SFabs (binary_round_aux prec emax s' m e l).
Proof.
  unfold binary_round_aux.
  destruct (shr_fexp prec emax m e l) as [mrs' e'].
  destruct (shr_fexp prec emax _ e' loc_Exact) as [mrs'' e''].
  destruct (shr_m mrs''); [reflexivity | | reflexivity].
  destruct (e'' <=? emax - prec)%Z; reflexivity.
Qed.

Lemma binary_normalize_opp (m e : Z) :
  SFabs (binary_normalize prec emax (- m) e false)
  = SFabs (binary_normalize prec emax m e false).
Proof.
  destruct m; cbn [Z.opp binary_normalize]; [reflexivity | |];
    unfold binary_round;
    destruct (shl_align _ _ _) as [mz ez]; apply binary_round_aux_abs.
Qed.

Lemma SFsub_swap (u v : spec_float) :
  SFabs (SF64sub u v) = SFabs (SF64sub v u).
Proof.
  destruct u as [su | su | | su mu eu], v as [sv | sv | | sv mv ev];
    try (destruct su, sv; reflexivity); try (destruct su; reflexivity);
    try (destruct sv; reflexivity); try reflexivity.
  unfold SF64sub, SFsub.
  rewrite (Z.min_comm ev eu).
  rewrite <- binary_normalize_opp. f_equal. f_equal. lia.
Qed.

Lemma SFabs_cases (u v : spec_float) :
  SFabs u = SFabs v -> u = v \/ u = SFopp v.
Proof.
  destruct u as [su | su | | su mu eu], v as [sv | sv | | sv mv ev];
    cbn; intro H; try discriminate H; try (left; reflexivity);
    try (injection H as -> ->); destruct su, sv; auto.
Qed.

Lemma SFmul_opp (u c : spec_float) :
  SFabs (SF64mul (SFopp u) c) = SFabs (SF64mul u c).
Proof.
  destruct u as [su | su | | su mu eu], c as [sc | sc | | sc mc ec];
    cbn; try reflexivity.
  apply binary_round_aux_abs.
Qed.

Lemma SFdiv_opp (u c : spec_float) :
  SFabs (SF64div (SFopp u) c) = SFabs (SF64div u c).
Proof.
  destruct u as [su | su | | su mu eu], c as [sc | sc | | sc mc ec];
    cbn; try reflexivity.
  destruct (SFdiv_core_binary _ _ _ _ _ _) as [[mz ez] lz].
  apply binary_round_aux_abs.
Qed.

Lemma SFmul_abs (u v c : spec_float) :
  SFabs u = SFabs v -> SFabs (SF64mul u c) = SFabs (SF64mul v c).
Proof.
  intro H. destruct (SFabs_cases u v H) as [-> | ->];
    [reflexivity | apply SFmul_opp].
Qed.

Lemma SFdiv_abs (u v c : spec_float) :
  SFabs u = SFabs v -> SFabs (SF64div u c) = SFabs (SF64div v c).
Proof.
  intro H. destruct (SFabs_cases u v H) as [-> | ->];
    [reflexivity | apply SFdiv_opp].
Qed.

Lemma abs_scaled_difference (p q c d : float) :
  abs (((p - q) * c) / d) = abs (((q - p) * c) / d).
Proof.
  apply Prim2SF_inj.
  rewrite !abs_spec, !div_spec, !mul_spec, !sub_spec.
  apply SFdiv_abs, SFmul_abs, SFsub_swap.
Qed.

(** *** The confidence as a double

    The running confidence is a double that holds an integer between -140
    and 100 (see [running_confidence_range] below); there the double
    operations of the classifier agree with the integer ones. *)

Lemma confidenceRange_spec (n : Z) :
  (-140 <= n <= 100)%Z -> In n confidenceRange.
Proof.
  intro H. unfold confidenceRange. apply in_map_iff.
  exists (Z.to_nat (n + 140)). split; [lia |]. apply in_seq. lia.
Qed.

Lemma confidence_exact (n : Z) :
  (-140 <= n <= 100)%Z ->
  (forall p, In p [10; 15; 20; 25; 30]%Z ->
             number n - number p = number (n - p))
  /\ (forall t, In t [55; 70; 85]%Z ->
                (number t <=? number n) = (t <=? n)%Z)
  /\ Math_max 0 (number n) = number (Z.max 0 n).
Proof.
  intro H.
  assert (Hall : forallb exactAt confidenceRange = true)
    by (vm_compute; reflexivity).
  rewrite forallb_forall in Hall.
  specialize (Hall n (confidenceRange_spec n H)).
  unfold exactAt in Hall.
  apply andb_prop in Hall as [Hall Hmax].
  apply andb_prop in Hall as [Hsub Hcmp].
  rewrite forallb_forall in Hsub, Hcmp.
  repeat split.
  - intros p Hp. apply Leibniz.eqb_spec, Hsub, Hp.
  - intros t Ht. apply Bool.eqb_prop, Hcmp, Ht.
  - apply Leibniz.eqb_spec, Hmax.
Qed.

(** *** The angle primitive *)

Section Angle.
Variable Math_atan2 : float -> float -> float.

(** The symmetry stated in C9: swapping the two outer points does not
    change the angle, for all doubles and whatever [Math.atan2] returns. *)
Lemma calculateAngle_swap (a b c : NormalizedLandmark) :
  calculateAngle Math_atan2 a b c = calculateAngle Math_atan2 c b a.
Proof.
  unfold calculateAngle, Math_abs. cbn zeta.
  rewrite (abs_scaled_difference
             (Math_atan2 (y c - y b) (x c - x b))
             (Math_atan2 (y a - y b) (x a - x b))).
  reflexivity.
Qed.

(** When both outer points are the same the angle is 0, or [NaN] if
    [Math.atan2] returns no finite number. *)
Lemma calculateAngle_same_ray (a b : NormalizedLandmark) :
  calculateAngle Math_atan2 a b a = zero
  \/ calculateAngle Math_atan2 a b a = nan.
Proof.
  unfold calculateAngle. cbn zeta.
  destruct (sub_diag (Math_atan2 (y a - y b) (x a - x b))) as [-> | ->];
    [left | right]; vm_compute; reflexivity.
Qed.

(** Three points on a horizontal line, the vertex in the middle: with the
    values IEEE 754 prescribes for [atan2] on the axis the angle is 180. *)
Lemma calculateAngle_on_axis :
  Math_atan2 0 1 = 0 ->
  Math_atan2 0 (-1) = Math_PI ->
  calculateAngle Math_atan2
    (mkLandmark 0 0 0 1) (mkLandmark 1 0 0 1) (mkLandmark 2 0 0 1) = 180.
Proof.
  intros H0 Hpi. unfold calculateAngle. cbn [x y].
  replace (0 - 0) with 0 by reflexivity.
  replace (2 - 1) with 1 by reflexivity.
  replace (0 - 1) with (-1) by reflexivity.
  rewrite H0, Hpi. vm_compute. reflexivity.
Qed.

(** Three points on a slanted line, (0,0), (5,1), (10,2): with the
    correctly rounded values of [atan2] at (5,1) and (-5,-1) the two polar
    angles differ by one unit in the last place more than [Math.PI], and
    the angle returned is the double just below 180. *)
Remark calculateAngle_slanted_line :
  Math_atan2 1 5 = 0x1.94441f8f7260bp-3 ->
  Math_atan2 (-1) (-5) = (-0x1.78db734b4bab8p+1) ->
  calculateAngle Math_atan2
    (mkLandmark 0 0 0 1) (mkLandmark 5 1 0 1) (mkLandmark 10 2 0 1)
  = 0x1.67fffffffffffp+7.
Proof.
  intros H1 H2. unfold calculateAngle. cbn [x y].
  replace (2 - 1) with 1 by reflexivity.
  replace (10 - 5) with 5 by reflexivity.
  replace (0 - 1) with (-1) by reflexivity.
  replace (0 - 5) with (-5) by reflexivity.
  rewrite H1, H2. vm_compute. reflexivity.
Qed.

End Angle.

End FloatFacts.

(** ** The classifier *)

Module ClassifierFacts.
Import JS PoseDetection PoseDetection.POSE_LANDMARKS Analysis.

(** *** The checks, one by one and in a run *)

Lemma scoreFrame_runChecks (k : KeyLandmarks) :
  scoreFrame k = runChecks (formChecks k) initialScore.
Proof. reflexivity. Qed.

#[local] Ltac step_cases :=
  repeat match goal with
    | |- context [if ?b then _ else _] => destruct b
    end;
  first [ apply step_pass
        | apply step_quiet; reflexivity
        | apply step_flag; simpl; tauto ].

Lemma formChecks_steps (k : KeyLandmarks) :
  Forall2 (fun check qt => forall s, CheckStep (fst qt) (snd qt) s (check s))
    (formChecks k) (combine checkQuiet checkTexts).
Proof.
  unfold formChecks, checkQuiet, checkTexts; simpl combine.
  repeat constructor; intro s; simpl fst; simpl snd.
  - unfold checkBodyLevel; step_cases.
  - unfold checkHead; step_cases.
  - unfold checkArms; step_cases.
  - unfold checkElbows; step_cases.
  - unfold checkShoulderWidth; step_cases.
  - unfold checkLegs; step_cases.
  - unfold checkFraming; step_cases.
  - unfold checkSymmetry; step_cases.
Qed.

Lemma Subseq_app {A : Type} (a b l1 l2 : list A) :
  Subseq a l1 -> Subseq b l2 -> Subseq (a ++ b) (l1 ++ l2).
Proof.
  intros Ha Hb; induction Ha as [l | x a l Ha IH | x a l Ha IH]; simpl.
  - induction l as [| x l IH]; simpl; [assumption | now constructor].
  - now constructor.
  - now constructor.
Qed.

Lemma Subseq_In {A : Type} (m : A) (l : list A) : In m l -> Subseq [m] l.
Proof.
  induction l as [| x l IH]; simpl; [tauto |].
  intros [-> | H]; [apply Subseq_take, Subseq_nil | apply Subseq_skip, IH, H].
Qed.

Lemma run_steps (checks : list (Score -> Score))
  (qts : list (bool * list string)) :
  Forall2 (fun check qt => forall s, CheckStep (fst qt) (snd qt) s (check s))
    checks qts ->
  forall s, exists added, RunFacts checks (map fst qts) (map snd qts) s added.
Proof.
  induction 1 as [| check [quiet texts] checks qts Hstep _ IH]; intro s.
  - exists []. split; simpl; try rewrite app_nil_r; try constructor; try lia.
  - simpl in Hstep. specialize (Hstep s).
    destruct (IH (check s)) as [added [Hm Ho Hp Hf Hc Hq]].
    assert (Hskip : Subseq added (texts ++ List.concat (map snd qts))).
    { change added with ([] ++ added).
      apply Subseq_app; [constructor | exact Ho]. }
    unfold runChecks in *.
    remember (check s) as s1 eqn:Es1.
    destruct Hstep as [| Hquiet | p m Hp' Hm'].
    + exists added.
      split; unfold runChecks;
        cbn [fold_left map fst snd List.concat deductions
             silentDeductions filter]; unfold silentAt;
        rewrite <- ?Es1; rewrite ?Z.eqb_refl; cbn [negb andb app];
        auto.
      destruct (id quiet); simpl; lia.
    + subst quiet. exists added.
      assert (Hne : (points s - 10 =? points s) = false)
        by (apply Z.eqb_neq; lia).
      split; unfold runChecks;
        cbn [fold_left map fst snd List.concat deductions
             silentDeductions filter id]; unfold silentAt;
        rewrite <- ?Es1; cbn [deduct points messages] in *;
        rewrite ?Hne, ?Nat.eqb_refl; cbn [negb andb app List.length];
        auto.
      * unfold sumZ in *. cbn [fold_right]. lia.
      * constructor; [left; lia | exact Hf].
      * lia.
      * lia.
    + exists (m :: added).
      assert (Hne : (points s - p =? points s) = false)
        by (apply Z.eqb_neq; simpl in Hp'; lia).
      assert (Hlen : (List.length (messages s ++ [m])
                      =? List.length (messages s))%nat = false)
        by (apply Nat.eqb_neq; rewrite length_app; simpl; lia).
      split; unfold runChecks;
        cbn [fold_left map fst snd List.concat deductions
             silentDeductions filter]; unfold silentAt;
        rewrite <- ?Es1; cbn [deduct push points messages] in *;
        rewrite ?Hne, ?Hlen; cbn [negb andb app List.length].
      * rewrite Hm, <- app_assoc. reflexivity.
      * change (m :: added) with ([m] ++ added).
        apply Subseq_app; [apply Subseq_In, Hm' | exact Ho].
      * unfold sumZ in *. cbn [fold_right]. lia.
      * constructor; [| exact Hf].
        replace (points s - (points s - p)) with p by lia.
        simpl in *; tauto.
      * lia.
      * destruct (id quiet); simpl; lia.
Qed.

Lemma scoreFrame_facts (k : KeyLandmarks) :
  exists added, RunFacts (formChecks k) checkQuiet checkTexts initialScore added.
Proof.
  destruct (run_steps _ _ (formChecks_steps k) initialScore) as [added H].
  exists added. exact H.
Qed.

(** *** The visibility gate *)

(** The gate fails as soon as one critical landmark (nose, a shoulder, a
    hip) is absent, has a falsy visibility or one below the threshold. *)
Lemma gate_needs_critical (landmarks : Landmarks) (minVisibility : float)
  (idx : nat) :
  In idx criticalIndices ->
  visibleAt landmarks minVisibility idx = false ->
  areLandmarksVisible landmarks minVisibility = false.
Proof.
  intros Hin Hnot. unfold areLandmarksVisible.
  destruct (forallb (visibleAt landmarks minVisibility) criticalIndices)
    eqn:Hall; [| reflexivity].
  rewrite forallb_forall in Hall. rewrite (Hall idx Hin) in Hnot.
  discriminate Hnot.
Qed.

Lemma gate_needs_critical_witness :
  areLandmarksVisible (None :: tl Frames.goodPlank) defaultMinVisibility
  = false.
Proof.
  apply (gate_needs_critical (None :: tl Frames.goodPlank)
           defaultMinVisibility NOSE).
  - simpl. tauto.
  - reflexivity.
Defined.

(** *** When the classifier returns *)

Lemma keyLandmarks_cases (landmarks : Landmarks) :
  (exists k, keyLandmarks landmarks = Returned k
             /\ slotsPresent landmarks = true)
  \/ (keyLandmarks landmarks = Threw TypeError
      /\ slotsPresent landmarks = false).
Proof.
  unfold keyLandmarks, slotsPresent, formSlots, present.
  cbn [forallb].
  repeat match goal with
    | |- context [at_index landmarks ?i] =>
        destruct (at_index landmarks i);
        cbn [deref bind andb];
        try (right; split; reflexivity)
    end.
  left. eexists. split; reflexivity.
Qed.

Lemma detectPlankPosition_outcome (landmarks : Landmarks) :
  Outcome landmarks (detectPlankPosition landmarks).
Proof.
  unfold detectPlankPosition.
  destruct (areLandmarksVisible landmarks defaultMinVisibility) eqn:Hgate;
    cbn [negb].
  - destruct (keyLandmarks_cases landmarks) as [[k [Hk Hp]] | [Hk Hp]];
      rewrite Hk; cbn [bind].
    + now apply Scored.
    + now apply Crashed.
  - now apply NoPerson.
Qed.

(** *** The verdict *)

Lemma verdict_isPlank (landmarks : Landmarks) (s : Score) :
  isPlank (verdict landmarks s) = true
  <-> 55 <= confidence (verdict landmarks s)
      /\ (List.length (messages s) <= 3)%nat.
Proof.
  unfold verdict, PASS_THRESHOLD, MAX_VIOLATIONS; cbn [isPlank confidence].
  rewrite andb_true_iff, Z.leb_le, Nat.leb_le. lia.
Qed.

Lemma verdict_feedback (landmarks : Landmarks) (s : Score) :
  let r := verdict landmarks s in
  if isPlank r
  then exists a, In a affirmationTexts /\ feedback r = a :: messages s
  else feedback r = messages s.
Proof.
  unfold verdict; cbn [isPlank feedback].
  destruct (_ && _)%bool; cbn [andb]; [| reflexivity].
  destruct (85 <=? points s); [| destruct (70 <=? points s)];
    eexists; (split; [| reflexivity]); simpl; tauto.
Qed.

Lemma verdict_violationCount (landmarks : Landmarks) (s : Score) :
  violationCount (verdict landmarks s) = List.length (messages s).
Proof.
  unfold violationCount.
  pose proof (verdict_feedback landmarks s) as H; cbn zeta in H.
  destruct (isPlank (verdict landmarks s)).
  - destruct H as [a [_ ->]]. simpl. lia.
  - rewrite H. lia.
Qed.

(** C1. On a frame that passes the visibility gate the classifier returns
    [isPlank = true] exactly when the returned confidence is at least 55 and
    at most 3 violation messages were appended, the messages being counted
    before the affirmation is put in front of them.  (The classifier throws
    instead of returning only if a slot it reads is absent.) *)
Theorem verdict_rule (landmarks : Landmarks) :
  areLandmarksVisible landmarks defaultMinVisibility = true ->
  match detectPlankPosition landmarks with
  | Returned r =>
      exists k,
        keyLandmarks landmarks = Returned k
        /\ violationCount r = List.length (messages (scoreFrame k))
        /\ (isPlank r = true
            <-> 55 <= confidence r /\ (violationCount r <= 3)%nat)
        /\ (confidence r < 55 -> isPlank r = false)
        /\ ((3 < violationCount r)%nat -> isPlank r = false)
  | Threw _ => slotsPresent landmarks = false
  end.
Proof.
  intro Hgate.
  destruct (detectPlankPosition_outcome landmarks) as [Hno | k _ _ Hk | _ Hp].
  - congruence.
  - exists k. split; [exact Hk |].
    rewrite verdict_violationCount.
    pose proof (verdict_isPlank landmarks (scoreFrame k)) as Hiff.
    repeat split; try tauto.
    + intro Hlow. destruct (isPlank _); [| reflexivity].
      assert (55 <= confidence (verdict landmarks (scoreFrame k))) by tauto.
      lia.
    + intro Hmany. destruct (isPlank _); [| reflexivity].
      assert (List.length (messages (scoreFrame k)) <= 3)%nat by tauto.
      lia.
  - exact Hp.
Qed.

Lemma verdict_rule_witness :
  match detectPlankPosition Frames.goodPlank with
  | Returned r =>
      exists k,
        keyLandmarks Frames.goodPlank = Returned k
        /\ violationCount r = List.length (messages (scoreFrame k))
        /\ (isPlank r = true
            <-> 55 <= confidence r /\ (violationCount r <= 3)%nat)
        /\ (confidence r < 55 -> isPlank r = false)
        /\ ((3 < violationCount r)%nat -> isPlank r = false)
  | Threw _ => slotsPresent Frames.goodPlank = false
  end.
Proof. apply (verdict_rule Frames.goodPlank). vm_compute. reflexivity. Defined.

(** *** Confidence *)

Lemma deductions_length (checks : list (Score -> Score)) (s : Score) :
  (List.length (deductions checks s) <= List.length checks)%nat.
Proof.
  revert s; induction checks as [| check rest IH]; intro s;
    cbn [deductions List.length]; [lia |].
  rewrite length_app. specialize (IH (check s)).
  destruct (points (check s) =? points s); cbn [List.length]; lia.
Qed.

Lemma sumZ_bound (l : list Z) :
  Forall (fun p => In p [10; 15; 20; 25; 30]) l ->
  0 <= sumZ l <= 30 * Z.of_nat (List.length l).
Proof.
  induction 1 as [| p l Hp _ IH]; unfold sumZ in *;
    cbn [fold_right List.length].
  - lia.
  - simpl in Hp. lia.
Qed.

Lemma Forall2_prefix {A B : Type} (R : A -> B -> Prop) (n : nat) :
  forall l1 l2, Forall2 R l1 l2 -> Forall2 R (firstn n l1) (firstn n l2).
Proof.
  induction n as [| n IH]; intros l1 l2 H; [constructor |].
  destruct H; cbn [firstn]; constructor; auto.
Qed.

(** After any number of the checks the running confidence is an integer
    between -140 and 100. *)
Lemma running_confidence_range (k : KeyLandmarks) (n : nat) :
  -140 <= points (runChecks (firstn n (formChecks k)) initialScore) <= 100.
Proof.
  destruct (run_steps _ _ (Forall2_prefix _ n _ _ (formChecks_steps k))
              initialScore) as [added [_ _ Hpts Hpen _ _]].
  pose proof (sumZ_bound _ Hpen) as Hsum.
  pose proof (deductions_length (firstn n (formChecks k)) initialScore) as Hlen.
  rewrite length_firstn in Hlen.
  change (List.length (formChecks k)) with 8%nat in Hlen.
  cbn [initialScore points] in Hpts. lia.
Qed.

Lemma sumZ_penalties (l : list Z) :
  Forall (fun p => In p [10; 15; 20; 25; 30]) l -> 0 <= sumZ l.
Proof.
  induction 1 as [| p l Hp _ IH]; unfold sumZ in *; cbn [fold_right].
  - lia.
  - simpl in Hp. lia.
Qed.

(** C6. On a frame that passes the visibility gate the returned confidence
    lies in [0, 100]: it is 100 minus the penalties of the checks that
    applied, each one of 10, 15, 20, 25 or 30, and 0 when these exceed 100. *)
Theorem confidence_bounds (landmarks : Landmarks) :
  areLandmarksVisible landmarks defaultMinVisibility = true ->
  match detectPlankPosition landmarks with
  | Returned r =>
      0 <= confidence r <= 100
      /\ exists k,
          keyLandmarks landmarks = Returned k
          /\ let penalties := deductions (formChecks k) initialScore in
             Forall (fun p => In p [10; 15; 20; 25; 30]) penalties
             /\ confidence r = Z.max 0 (100 - sumZ penalties)
  | Threw _ => slotsPresent landmarks = false
  end.
Proof.
  intro Hgate.
  destruct (detectPlankPosition_outcome landmarks) as [Hno | k _ _ Hk | _ Hp].
  - congruence.
  - destruct (scoreFrame_facts k) as [added [_ _ Hpts Hpen _ _]].
    rewrite <- scoreFrame_runChecks in Hpts. cbn [initialScore points] in Hpts.
    pose proof (sumZ_penalties _ Hpen) as Hnonneg.
    unfold verdict; cbn [confidence].
    split; [lia |].
    exists k. cbn zeta. repeat split; [exact Hk | exact Hpen | lia].
  - exact Hp.
Qed.

Lemma confidence_bounds_witness :
  match detectPlankPosition Frames.standing with
  | Returned r =>
      0 <= confidence r <= 100
      /\ exists k,
          keyLandmarks Frames.standing = Returned k
          /\ let penalties := deductions (formChecks k) initialScore in
             Forall (fun p => In p [10; 15; 20; 25; 30]) penalties
             /\ confidence r = Z.max 0 (100 - sumZ penalties)
  | Threw _ => slotsPresent Frames.standing = false
  end.
Proof.
  apply (confidence_bounds Frames.standing). vm_compute. reflexivity.
Defined.

(** The frame [standing] violates all eight checks: the penalties add up
    to 165 and the confidence returned is 0. *)
Example standing_scores_zero :
  exists k,
    keyLandmarks Frames.standing = Returned k
    /\ deductions (formChecks k) initialScore = [30; 20; 25; 15; 20; 25; 15; 15]
    /\ points (scoreFrame k) = -65
    /\ detectPlankPosition Frames.standing
       = Returned (mkResult false 0 (messages (scoreFrame k))
                     (Some Frames.standing)).
Proof. eexists. split; [reflexivity |]. vm_compute. auto. Qed.

(** *** Deductions and messages *)

Lemma silentAt_deduct (p : Z) (s : Score) :
  p <> 0 -> silentAt (deduct p) s = true.
Proof.
  intro Hp. unfold silentAt, deduct; cbn [points messages].
  rewrite Nat.eqb_refl, andb_true_r.
  apply negb_true_iff, Z.eqb_neq. lia.
Qed.

Lemma silentAt_flag (p : Z) (m : string) (s : Score) :
  silentAt (fun s => deduct p (push m s)) s = false.
Proof.
  unfold silentAt, deduct, push; cbn [points messages].
  rewrite length_app; cbn [List.length].
  replace (List.length (messages s) + 1 =? List.length (messages s))%nat
    with false by (symmetry; apply Nat.eqb_neq; lia).
  apply andb_false_r.
Qed.

Lemma silentAt_keep (s : Score) : silentAt (fun s => s) s = false.
Proof. unfold silentAt. now rewrite Z.eqb_refl. Qed.

Lemma silentAt_checkHead (d : float) (s : Score) :
  silentAt (checkHead d) s = negb (0.15 <? d)%float && (0.10 <? d)%float.
Proof.
  unfold silentAt, checkHead.
  destruct (0.15 <? d)%float; [| destruct (0.10 <? d)%float]; cbn [negb andb].
  - apply (silentAt_flag 20 _ s).
  - apply (silentAt_deduct 10 s); discriminate.
  - apply (silentAt_keep s).
Qed.

Lemma silentAt_checkLegs (d : float) (s : Score) :
  silentAt (checkLegs d) s = negb (0.15 <? d)%float && (0.10 <? d)%float.
Proof.
  unfold silentAt, checkLegs.
  destruct (0.15 <? d)%float; [| destruct (0.10 <? d)%float]; cbn [negb andb].
  - apply (silentAt_flag 25 _ s).
  - apply (silentAt_deduct 10 s); discriminate.
  - apply (silentAt_keep s).
Qed.

Lemma silentAt_checkBodyLevel (d : float) (s : Score) :
  silentAt (checkBodyLevel d) s = false.
Proof.
  unfold silentAt, checkBodyLevel.
  destruct (0.15 <? d)%float; [| destruct (0.10 <? d)%float].
  - apply (silentAt_flag 30 _ s).
  - apply (silentAt_flag 15 _ s).
  - apply (silentAt_keep s).
Qed.

Lemma silentAt_checkArms (l r : bool) (s : Score) :
  silentAt (checkArms l r) s = false.
Proof.
  unfold silentAt, checkArms. destruct (negb l || negb r).
  - apply (silentAt_flag 25 _ s).
  - apply (silentAt_keep s).
Qed.

Lemma silentAt_checkElbows (d : float) (s : Score) :
  silentAt (checkElbows d) s = false.
Proof.
  unfold silentAt, checkElbows. destruct (0.1 <? d)%float.
  - apply (silentAt_flag 15 _ s).
  - apply (silentAt_keep s).
Qed.

Lemma silentAt_checkShoulderWidth (d : float) (s : Score) :
  silentAt (checkShoulderWidth d) s = false.
Proof.
  unfold silentAt, checkShoulderWidth. destruct (d <? 0.15)%float.
  - apply (silentAt_flag 20 _ s).
  - apply (silentAt_keep s).
Qed.

Lemma silentAt_checkFraming (d : float) (s : Score) :
  silentAt (checkFraming d) s = false.
Proof.
  unfold silentAt, checkFraming.
  destruct (d <? 0.3)%float; [| destruct (0.8 <? d)%float].
  - apply (silentAt_flag 15 _ s).
  - apply (silentAt_flag 15 _ s).
  - apply (silentAt_keep s).
Qed.

Lemma silentAt_checkSymmetry (d : float) (s : Score) :
  silentAt (checkSymmetry d) s = false.
Proof.
  unfold silentAt, checkSymmetry. destruct (0.15 <? d)%float.
  - apply (silentAt_flag 15 _ s).
  - apply (silentAt_keep s).
Qed.

(** Only the middle tiers of the head and leg checks deduct in silence. *)
Lemma silentDeductions_formChecks (k : KeyLandmarks) :
  silentDeductions (formChecks k) initialScore
  = ((if headMiddleTier k then 1 else 0)
     + (if legsMiddleTier k then 1 else 0))%nat.
Proof.
  unfold formChecks; cbn [silentDeductions].
  rewrite silentAt_checkBodyLevel, silentAt_checkHead, silentAt_checkArms,
    silentAt_checkElbows, silentAt_checkShoulderWidth, silentAt_checkLegs,
    silentAt_checkFraming, silentAt_checkSymmetry.
  unfold headMiddleTier, legsMiddleTier. lia.
Qed.

(** C7, as the code has it.  On a frame that passes the visibility gate
    every violation message comes with one deduction, and the messages
    stand in check order; but the head check and the leg check each have a
    middle tier that subtracts 10 and appends nothing, so the deductions
    outnumber the messages by the number of middle tiers met (at most 2). *)
Theorem deductions_and_messages (landmarks : Landmarks) :
  areLandmarksVisible landmarks defaultMinVisibility = true ->
  match detectPlankPosition landmarks with
  | Returned r =>
      exists k,
        keyLandmarks landmarks = Returned k
        /\ Subseq (messages (scoreFrame k)) violationTexts
        /\ violationCount r = List.length (messages (scoreFrame k))
        /\ List.length (deductions (formChecks k) initialScore)
           = (violationCount r
              + (if headMiddleTier k then 1 else 0)
              + (if legsMiddleTier k then 1 else 0))%nat
  | Threw _ => slotsPresent landmarks = false
  end.
Proof.
  intro Hgate.
  destruct (detectPlankPosition_outcome landmarks) as [Hno | k _ _ Hk | _ Hp].
  - congruence.
  - destruct (scoreFrame_facts k) as [added [Hmsg Hord _ _ Hpair _]].
    rewrite <- scoreFrame_runChecks in Hmsg.
    cbn [initialScore messages app] in Hmsg.
    rewrite silentDeductions_formChecks in Hpair.
    exists k. rewrite verdict_violationCount, Hmsg.
    repeat split; [exact Hk | exact Hord | lia].
  - exact Hp.
Qed.

Lemma deductions_and_messages_witness :
  match detectPlankPosition Frames.headLowered with
  | Returned r =>
      exists k,
        keyLandmarks Frames.headLowered = Returned k
        /\ Subseq (messages (scoreFrame k)) violationTexts
        /\ violationCount r = List.length (messages (scoreFrame k))
        /\ List.length (deductions (formChecks k) initialScore)
           = (violationCount r
              + (if headMiddleTier k then 1 else 0)
              + (if legsMiddleTier k then 1 else 0))%nat
  | Threw _ => slotsPresent Frames.headLowered = false
  end.
Proof.
  apply (deductions_and_messages Frames.headLowered). vm_compute. reflexivity.
Defined.

(** C7 as stated fails: on [headLowered] one deduction (10 points, head
    check) is applied and no violation message is appended. *)
Lemma deduction_without_message :
  ~ (forall landmarks k r,
       areLandmarksVisible landmarks defaultMinVisibility = true ->
       keyLandmarks landmarks = Returned k ->
       detectPlankPosition landmarks = Returned r ->
       List.length (deductions (formChecks k) initialScore) = violationCount r).
Proof.
  intro H.
  destruct (keyLandmarks Frames.headLowered) as [k |] eqn:Hk;
    [| discriminate Hk].
  destruct (detectPlankPosition Frames.headLowered) as [r |] eqn:Hr;
    [| discriminate Hr].
  specialize (H Frames.headLowered k r eq_refl Hk Hr).
  vm_compute in Hk. injection Hk as <-.
  vm_compute in Hr. injection Hr as <-.
  vm_compute in H. discriminate H.
Qed.

Example headLowered_result :
  detectPlankPosition Frames.headLowered
  = Returned (mkResult true 90 ["Perfect plank form! 💪"%string]
                (Some Frames.headLowered)).
Proof. vm_compute. reflexivity. Qed.

(** *** The no-person outcome *)

Lemma append_assoc (a b c : string) :
  ((a ++ b) ++ c = a ++ (b ++ c))%string.
Proof. induction a as [| ch a IH]; simpl; [reflexivity | now rewrite IH]. Qed.

(** The message of the no-person outcome names what cannot be seen and
    ends with the request to move back. *)
Lemma noPersonFeedback_shape (landmarks : Landmarks) :
  exists what,
    noPersonFeedback landmarks
    = ("Cannot see" ++ what ++ " Move back to show full body.")%string.
Proof.
  unfold noPersonFeedback.
  match goal with
  | |- context [if (0 <? List.length ?parts)%nat then _ else _] =>
      generalize parts; intro missingParts
  end.
  destruct (0 <? List.length missingParts)%nat.
  - exists (": " ++ join ", " missingParts ++ ".")%string.
    rewrite !append_assoc. reflexivity.
  - exists " enough body parts."%string. reflexivity.
Qed.

Lemma noPersonFeedback_distinct (landmarks : Landmarks) :
  ~ In (noPersonFeedback landmarks) (violationTexts ++ affirmationTexts).
Proof.
  destruct (noPersonFeedback_shape landmarks) as [what ->].
  cbn. intuition discriminate.
Qed.

(** C4. When the visibility gate returns false the classifier returns,
    without running any check, the no-person outcome: no plank, confidence
    0, and a single message that asks the user to move back into view and
    differs from every message of the form checks and from every
    affirmation. *)
Theorem no_person_outcome (landmarks : Landmarks) :
  areLandmarksVisible landmarks defaultMinVisibility = false ->
  exists msg what,
    detectPlankPosition landmarks
    = Returned (mkResult false 0 [msg] (Some landmarks))
    /\ msg = ("Cannot see" ++ what ++ " Move back to show full body.")%string
    /\ ~ In msg (violationTexts ++ affirmationTexts).
Proof.
  intro Hgate.
  destruct (noPersonFeedback_shape landmarks) as [what Hshape].
  exists (noPersonFeedback landmarks), what.
  split; [| split].
  - unfold detectPlankPosition. rewrite Hgate. reflexivity.
  - exact Hshape.
  - apply noPersonFeedback_distinct.
Qed.

Lemma no_person_outcome_witness :
  exists msg what,
    detectPlankPosition []
    = Returned (mkResult false 0 [msg] (Some []))
    /\ msg = ("Cannot see" ++ what ++ " Move back to show full body.")%string
    /\ ~ In msg (violationTexts ++ affirmationTexts).
Proof. apply (no_person_outcome []). vm_compute. reflexivity. Defined.

Example empty_frame_result :
  detectPlankPosition []
  = Returned
      (mkResult false 0
         ["Cannot see: face, shoulders, hips. Move back to show full body."%string]
         (Some [])).
Proof. vm_compute. reflexivity. Qed.

(** *** The landmarks handed back *)

(** C10. Whenever the classifier returns, on the no-person path and on the
    scoring path alike, the result carries the caller's landmark array
    unchanged; it fails to return only by throwing, on a frame that passes
    the gate with a slot the checks read absent. *)
Theorem landmarks_returned (landmarks : Landmarks) :
  match detectPlankPosition landmarks with
  | Returned r => PoseDetection.landmarks r = Some landmarks
  | Threw _ =>
      areLandmarksVisible landmarks defaultMinVisibility = true
      /\ slotsPresent landmarks = false
  end.
Proof.
  destruct (detectPlankPosition_outcome landmarks) as [_ | k _ _ _ | Hg Hp].
  - reflexivity.
  - reflexivity.
  - split; assumption.
Qed.

(** *** Absent slots *)

(** When C5 fails: the classifier throws exactly on the frames that pass
    the visibility gate with one of the slots read by the checks absent. *)
Lemma detectPlankPosition_throws (landmarks : Landmarks) :
  (exists e, detectPlankPosition landmarks = Threw e)
  <-> areLandmarksVisible landmarks defaultMinVisibility = true
      /\ slotsPresent landmarks = false.
Proof.
  split.
  - intros [e He].
    destruct (detectPlankPosition_outcome landmarks) as [_ | k _ _ _ | Hg Hp];
      [discriminate He | discriminate He | split; assumption].
  - intros [Hg Hp].
    destruct (detectPlankPosition_outcome landmarks) as [Hno | k _ Hyes _ | _ _].
    + congruence.
    + congruence.
    + eexists. reflexivity.
Qed.

(** C5 fails on [anklesCutOff], a frame of 27 entries: nose, shoulders,
    hips, elbows and knees are visible, so the gate passes with 4 of the 6
    optional landmarks, and reading [leftAnkle.y] throws. *)
Theorem ankles_absent_throws :
  List.length Frames.anklesCutOff = 27%nat
  /\ areLandmarksVisible Frames.anklesCutOff defaultMinVisibility = true
  /\ at_index Frames.anklesCutOff LEFT_ANKLE = None
  /\ at_index Frames.anklesCutOff RIGHT_ANKLE = None
  /\ detectPlankPosition Frames.anklesCutOff = Threw TypeError.
Proof. vm_compute. auto. Qed.

(** *** The arm check *)

Lemma In_flagged (t m : string) (p : Z) (s : Score) :
  m <> t ->
  In t (messages (deduct p (push m s))) <-> In t (messages s).
Proof.
  intro Hne. cbn [deduct push messages]. rewrite in_app_iff. simpl. tauto.
Qed.

#[local] Ltac other_check :=
  repeat match goal with
    | |- context [if ?b then _ else _] => destruct b
    end;
  first [ reflexivity
        | apply In_flagged; discriminate
        | cbn [deduct messages]; reflexivity ].

Lemma arm_message_iff (k : KeyLandmarks) :
  In armText (messages (scoreFrame k))
  <-> leftArmExtended k && rightArmExtended k = false.
Proof.
  unfold scoreFrame. cbn zeta.
  transitivity (In armText (messages
    (checkArms (leftArmExtended k) (rightArmExtended k)
       (checkHead (noseShoulderDiff k)
          (checkBodyLevel (bodyLevelness k) initialScore))))).
  { repeat match goal with
      | |- In _ (messages (?check ?d ?s)) <-> _ =>
          lazymatch check with
          | checkArms _ => fail
          | _ =>
              transitivity (In armText (messages s));
              [unfold check; other_check |]
          end
      end.
    reflexivity. }
  assert (Hbefore : ~ In armText (messages
            (checkHead (noseShoulderDiff k)
               (checkBodyLevel (bodyLevelness k) initialScore)))).
  { unfold checkHead, checkBodyLevel, initialScore.
    repeat match goal with
      | |- context [if ?b then _ else _] => destruct b
      end; cbn; intuition discriminate. }
  unfold checkArms.
  destruct (leftArmExtended k), (rightArmExtended k); cbn [negb orb andb];
    cbn [deduct push messages];
    rewrite ?in_app_iff; simpl; intuition discriminate.
Qed.

#[local] Ltac same_slots H :=
  repeat match goal with
    | |- context [at_index ?l ?i] =>
        rewrite (H i ltac:(discriminate) ltac:(discriminate))
    end.

Lemma agree_gate (landmarks landmarks' : Landmarks) (minVisibility : float) :
  agreeOffWrists landmarks landmarks' ->
  areLandmarksVisible landmarks minVisibility
  = areLandmarksVisible landmarks' minVisibility.
Proof.
  intro H. unfold areLandmarksVisible, criticalIndices, optionalIndices.
  cbn [forallb filter]. unfold visibleAt. same_slots H. reflexivity.
Qed.

Lemma agree_noPersonFeedback (landmarks landmarks' : Landmarks) :
  agreeOffWrists landmarks landmarks' ->
  noPersonFeedback landmarks = noPersonFeedback landmarks'.
Proof. intro H. unfold noPersonFeedback. same_slots H. reflexivity. Qed.

Lemma agree_keyLandmarks (landmarks landmarks' : Landmarks) :
  agreeOffWrists landmarks landmarks' ->
  keyLandmarks landmarks = keyLandmarks landmarks'.
Proof. intro H. unfold keyLandmarks. cbn zeta. same_slots H. reflexivity. Qed.

Lemma In_feedback_verdict (t : string) (landmarks : Landmarks) (s : Score) :
  ~ In t affirmationTexts ->
  In t (feedback (verdict landmarks s)) <-> In t (messages s).
Proof.
  intro Hno.
  pose proof (verdict_feedback landmarks s) as H. cbn zeta in H.
  destruct (isPlank (verdict landmarks s)).
  - destruct H as [a [Ha ->]]. simpl. split; [| tauto].
    intros [-> | Hin]; [contradiction | exact Hin].
  - rewrite H. reflexivity.
Qed.

(** The result depends on the frame only through the slots other than the
    wrists, up to the landmark array handed back. *)
Lemma agree_detectPlankPosition (landmarks landmarks' : Landmarks) :
  agreeOffWrists landmarks landmarks' ->
  detectPlankPosition landmarks'
  = match detectPlankPosition landmarks with
    | Returned r =>
        Returned (mkResult (isPlank r) (confidence r) (feedback r)
                    (Some landmarks'))
    | Threw e => Threw e
    end.
Proof.
  intro H. unfold detectPlankPosition.
  rewrite <- (agree_gate _ _ _ H), <- (agree_noPersonFeedback _ _ H),
    <- (agree_keyLandmarks _ _ H).
  destruct (areLandmarksVisible landmarks defaultMinVisibility); cbn [negb];
    [| reflexivity].
  destruct (keyLandmarks landmarks); reflexivity.
Qed.

(** The arm check of this classifier.  It never reads the wrists, so no
    shoulder-elbow-wrist angle enters its result: two frames that differ
    only in the wrist slots get the same verdict, confidence and feedback.
    Its arm check compares heights: the arm message is appended exactly
    when an elbow does not lie below its shoulder's height minus 0.05, and
    that costs 25 points. *)
Theorem arm_check_by_height (landmarks landmarks' : Landmarks) :
  agreeOffWrists landmarks landmarks' ->
  match detectPlankPosition landmarks, detectPlankPosition landmarks' with
  | Returned r, Returned r' =>
      isPlank r' = isPlank r
      /\ confidence r' = confidence r
      /\ feedback r' = feedback r
      /\ (areLandmarksVisible landmarks defaultMinVisibility = true ->
          exists k,
            keyLandmarks landmarks = Returned k
            /\ (In armText (feedback r)
                <-> ~ ((y (kLeftShoulder k) - 0.05 <? y (kLeftElbow k))%float
                         = true
                       /\ (y (kRightShoulder k) - 0.05 <? y (kRightElbow k))%float
                          = true))
            /\ forall s,
                points (checkArms (leftArmExtended k) (rightArmExtended k) s)
                = points s - (if leftArmExtended k && rightArmExtended k
                              then 0 else 25))
  | Threw _, Threw _ => slotsPresent landmarks = false
  | _, _ => False
  end.
Proof.
  intro H.
  rewrite (agree_detectPlankPosition _ _ H).
  destruct (detectPlankPosition_outcome landmarks) as [Hno | k Hg _ Hk | Hg Hp].
  - repeat split. congruence.
  - repeat split. intros _. exists k.
    assert (Hiff : In armText (feedback (verdict landmarks (scoreFrame k)))
                   <-> leftArmExtended k && rightArmExtended k = false).
    { rewrite In_feedback_verdict; [apply arm_message_iff |].
      cbn; intuition discriminate. }
    split; [exact Hk | split].
    + rewrite Hiff. unfold leftArmExtended, rightArmExtended.
      rewrite andb_false_iff.
      destruct (_ <? y (kLeftElbow k))%float,
               (_ <? y (kRightElbow k))%float; intuition discriminate.
    + intro s. unfold checkArms.
      destruct (leftArmExtended k), (rightArmExtended k);
        cbn [negb orb andb deduct push points]; lia.
  - exact Hp.
Qed.

Lemma goodPlank_wristsOnShoulders :
  agreeOffWrists Frames.goodPlank Frames.wristsOnShoulders.
Proof.
  intros i Hl Hr.
  do 33 (destruct i as [| i];
         [first [ reflexivity
                | exfalso; apply Hl; reflexivity
                | exfalso; apply Hr; reflexivity ]
         |]).
  destruct i; reflexivity.
Qed.

Lemma arm_check_by_height_witness :
  match detectPlankPosition Frames.goodPlank,
        detectPlankPosition Frames.wristsOnShoulders with
  | Returned r, Returned r' =>
      isPlank r' = isPlank r
      /\ confidence r' = confidence r
      /\ feedback r' = feedback r
      /\ (areLandmarksVisible Frames.goodPlank defaultMinVisibility = true ->
          exists k,
            keyLandmarks Frames.goodPlank = Returned k
            /\ (In armText (feedback r)
                <-> ~ ((y (kLeftShoulder k) - 0.05 <? y (kLeftElbow k))%float
                         = true
                       /\ (y (kRightShoulder k) - 0.05 <? y (kRightElbow k))%float
                          = true))
            /\ forall s,
                points (checkArms (leftArmExtended k) (rightArmExtended k) s)
                = points s - (if leftArmExtended k && rightArmExtended k
                              then 0 else 25))
  | Threw _, Threw _ => slotsPresent Frames.goodPlank = false
  | _, _ => False
  end.
Proof.
  apply (arm_check_by_height Frames.goodPlank Frames.wristsOnShoulders).
  exact goodPlank_wristsOnShoulders.
Defined.

(** No check goes by the elbow angle.  The frame [wristsOnShoulders]
    passes every check and is returned as a perfect plank, while each
    shoulder-elbow-wrist angle is 0 (or [NaN]), in neither band, whatever
    [Math.atan2] is. *)
Lemma arm_check_not_by_angle :
  ~ exists Math_atan2, armCheckByAngle Math_atan2.
Proof.
  intros [Math_atan2 Hclaim].
  eassert (Hangles : calculatePoseAngles Math_atan2 Frames.wristsOnShoulders
                     = Returned _)
    by (cbv -[calculateAngle PrimFloat.add PrimFloat.div]; reflexivity).
  assert (Hresult : detectPlankPosition Frames.wristsOnShoulders
                    = Returned (mkResult true 100
                                  ["Perfect plank form! 💪"%string]
                                  (Some Frames.wristsOnShoulders)))
    by (vm_compute; reflexivity).
  destruct (Hclaim Frames.wristsOnShoulders _ _ eq_refl Hresult Hangles)
    as [Hleft _].
  - cbn. intuition discriminate.
  - cbn [leftElbow] in Hleft.
    destruct (FloatFacts.calculateAngle_same_ray Math_atan2
                (mkLandmark 0.4 0.5 0 1) (mkLandmark 0.4 0.55 0 1))
      as [E | E]; rewrite E in Hleft; vm_compute in Hleft; discriminate Hleft.
Qed.

End ClassifierFacts.

(** ** The stability filter *)

Module StabilityFacts.
Import JS PoseDetection UsePoseDetection Analysis.

Section Filter.
Variable opts : UsePoseDetectionOptions.

(** The effect of one passing frame on the refs. *)
Lemma detectPose_passing (st : HookState) (poses : list Landmarks) :
  passing poses ->
  let detected := plankDetectedCount st + 1 in
  let edge := negb (isPlankActive st) && (stabilityFrames opts <=? detected) in
  let '(st', fired) := detectPose opts st poses in
  plankDetectedCount st' = detected
  /\ plankLostCount st' = 0
  /\ isPlankActive st' = (isPlankActive st || edge)
  /\ fired = (if edge then [onPlankDetected] else []).
Proof.
  unfold passing, frameVerdict, detectPose.
  destruct poses as [| landmarks rest]; [discriminate |].
  destruct (detectPlankPosition landmarks) as [r | e]; [| discriminate].
  intros [= ->]. cbn zeta.
  destruct (isPlankActive st) eqn:Hact; cbn [negb andb orb].
  - cbn. auto.
  - destruct (stabilityFrames opts <=? plankDetectedCount st + 1); cbn; auto.
Qed.

(** The effect of one failing frame, with or without a person in it. *)
Lemma detectPose_failing (st : HookState) (poses : list Landmarks) :
  failing poses ->
  let lost := plankLostCount st + 1 in
  let edge := isPlankActive st && (gracePeriodFrames opts <=? lost) in
  let '(st', fired) := detectPose opts st poses in
  plankDetectedCount st' = 0
  /\ plankLostCount st' = lost
  /\ isPlankActive st' = (isPlankActive st && negb edge)
  /\ fired = (if edge then [onPlankLost] else []).
Proof.
  unfold failing, frameVerdict, detectPose.
  destruct poses as [| landmarks rest].
  - intros _. cbn zeta.
    destruct (isPlankActive st) eqn:Hact; cbn [negb andb].
    + destruct (gracePeriodFrames opts <=? plankLostCount st + 1); cbn; auto.
    + cbn. auto.
  - destruct (detectPlankPosition landmarks) as [r | e]; [| discriminate].
    intros [= ->]. cbn zeta.
    destruct (isPlankActive st) eqn:Hact; cbn [negb andb].
    + destruct (gracePeriodFrames opts <=? plankLostCount st + 1); cbn; auto.
    + cbn. auto.
Qed.

(** While the filter is active, passing frames invoke no callback. *)
Lemma passing_while_active (frames : list (list Landmarks)) :
  forall st,
    Forall passing frames ->
    isPlankActive st = true ->
    let '(st', fired) := detectLoop opts st frames in
    fired = []
    /\ isPlankActive st' = true
    /\ plankDetectedCount st'
       = plankDetectedCount st + Z.of_nat (List.length frames).
Proof.
  induction frames as [| poses rest IH]; intros st Hall Hact.
  - cbn. repeat split; auto; lia.
  - inversion Hall as [| ? ? Hp Hrest]; subst.
    cbn [detectLoop].
    pose proof (detectPose_passing st poses Hp) as Hstep. cbn zeta in Hstep.
    destruct (detectPose opts st poses) as [st1 fired1].
    destruct Hstep as [Hd [_ [Ha Hf]]].
    rewrite Hact in Ha, Hf. cbn [negb andb orb] in Ha, Hf.
    specialize (IH st1 Hrest Ha).
    destruct (detectLoop opts st1 rest) as [st2 fired2].
    destruct IH as [-> [Ha2 Hd2]]. subst fired1.
    repeat split; auto. rewrite Hd2, Hd. cbn [List.length]. lia.
Qed.

(** While the filter is inactive, passing frames count up to the
    threshold, and the frame that reaches it invokes [onPlankDetected]. *)
Lemma passing_while_inactive (frames : list (list Landmarks)) :
  forall st,
    Forall passing frames ->
    isPlankActive st = false ->
    plankDetectedCount st < stabilityFrames opts ->
    let '(st', fired) := detectLoop opts st frames in
    let n := plankDetectedCount st + Z.of_nat (List.length frames) in
    fired = (if n <? stabilityFrames opts then [] else [onPlankDetected])
    /\ isPlankActive st' = negb (n <? stabilityFrames opts)
    /\ plankDetectedCount st' = n.
Proof.
  induction frames as [| poses rest IH]; intros st Hall Hact Hlt.
  - cbn [detectLoop List.length Z.of_nat]. cbn zeta. rewrite Z.add_0_r.
    replace (plankDetectedCount st <? stabilityFrames opts) with true
      by (symmetry; apply Z.ltb_lt; exact Hlt).
    auto.
  - inversion Hall as [| ? ? Hp Hrest]; subst.
    cbn [detectLoop].
    pose proof (detectPose_passing st poses Hp) as Hstep. cbn zeta in Hstep.
    destruct (detectPose opts st poses) as [st1 fired1].
    destruct Hstep as [Hd [_ [Ha Hf]]].
    rewrite Hact in Ha, Hf. cbn [negb andb orb] in Ha, Hf.
    destruct (stabilityFrames opts <=? plankDetectedCount st + 1) eqn:Hedge.
    + apply Z.leb_le in Hedge.
      pose proof (passing_while_active rest st1 Hrest Ha) as Hrun.
      destruct (detectLoop opts st1 rest) as [st2 fired2].
      destruct Hrun as [-> [Ha2 Hd2]]. subst fired1. cbn zeta.
      replace (plankDetectedCount st + Z.of_nat (List.length (poses :: rest))
               <? stabilityFrames opts) with false
        by (symmetry; apply Z.ltb_ge; cbn [List.length]; lia).
      repeat split; auto. rewrite Hd2, Hd. cbn [List.length]. lia.
    + apply Z.leb_gt in Hedge.
      assert (Hlt1 : plankDetectedCount st1 < stabilityFrames opts) by lia.
      specialize (IH st1 Hrest Ha Hlt1).
      destruct (detectLoop opts st1 rest) as [st2 fired2].
      cbn zeta in IH |- *.
      replace (plankDetectedCount st + Z.of_nat (List.length (poses :: rest)))
        with (plankDetectedCount st1 + Z.of_nat (List.length rest))
        by (rewrite Hd; cbn [List.length]; lia).
      subst fired1. exact IH.
Qed.

(** While the filter is inactive, failing frames invoke no callback. *)
Lemma failing_while_inactive (frames : list (list Landmarks)) :
  forall st,
    Forall failing frames ->
    isPlankActive st = false ->
    let '(st', fired) := detectLoop opts st frames in
    fired = []
    /\ isPlankActive st' = false
    /\ plankLostCount st' = plankLostCount st + Z.of_nat (List.length frames).
Proof.
  induction frames as [| poses rest IH]; intros st Hall Hact.
  - cbn. repeat split; auto; lia.
  - inversion Hall as [| ? ? Hp Hrest]; subst.
    cbn [detectLoop].
    pose proof (detectPose_failing st poses Hp) as Hstep. cbn zeta in Hstep.
    destruct (detectPose opts st poses) as [st1 fired1].
    destruct Hstep as [_ [Hl [Ha Hf]]].
    rewrite Hact in Ha, Hf. cbn [negb andb orb] in Ha, Hf.
    specialize (IH st1 Hrest Ha).
    destruct (detectLoop opts st1 rest) as [st2 fired2].
    destruct IH as [-> [Ha2 Hl2]]. subst fired1.
    repeat split; auto. rewrite Hl2, Hl. cbn [List.length]. lia.
Qed.

(** While the filter is active, failing frames count up to the grace
    period, and the frame that reaches it invokes [onPlankLost]. *)
Lemma failing_while_active (frames : list (list Landmarks)) :
  forall st,
    Forall failing frames ->
    isPlankActive st = true ->
    plankLostCount st < gracePeriodFrames opts ->
    let '(st', fired) := detectLoop opts st frames in
    let n := plankLostCount st + Z.of_nat (List.length frames) in
    fired = (if n <? gracePeriodFrames opts then [] else [onPlankLost])
    /\ isPlankActive st' = (n <? gracePeriodFrames opts)
    /\ plankLostCount st' = n.
Proof.
  induction frames as [| poses rest IH]; intros st Hall Hact Hlt.
  - cbn [detectLoop List.length Z.of_nat]. cbn zeta. rewrite Z.add_0_r.
    replace (plankLostCount st <? gracePeriodFrames opts) with true
      by (symmetry; apply Z.ltb_lt; exact Hlt).
    auto.
  - inversion Hall as [| ? ? Hp Hrest]; subst.
    cbn [detectLoop].
    pose proof (detectPose_failing st poses Hp) as Hstep. cbn zeta in Hstep.
    destruct (detectPose opts st poses) as [st1 fired1].
    destruct Hstep as [_ [Hl [Ha Hf]]].
    rewrite Hact in Ha, Hf. cbn [negb andb orb] in Ha, Hf.
    destruct (gracePeriodFrames opts <=? plankLostCount st + 1) eqn:Hedge;
      cbn [negb] in Ha.
    + apply Z.leb_le in Hedge.
      pose proof (failing_while_inactive rest st1 Hrest Ha) as Hrun.
      destruct (detectLoop opts st1 rest) as [st2 fired2].
      destruct Hrun as [-> [Ha2 Hl2]]. subst fired1. cbn zeta.
      replace (plankLostCount st + Z.of_nat (List.length (poses :: rest))
               <? gracePeriodFrames opts) with false
        by (symmetry; apply Z.ltb_ge; cbn [List.length]; lia).
      repeat split; auto. rewrite Hl2, Hl. cbn [List.length]. lia.
    + apply Z.leb_gt in Hedge.
      assert (Hlt1 : plankLostCount st1 < gracePeriodFrames opts) by lia.
      specialize (IH st1 Hrest Ha Hlt1).
      destruct (detectLoop opts st1 rest) as [st2 fired2].
      cbn zeta in IH |- *.
      replace (plankLostCount st + Z.of_nat (List.length (poses :: rest)))
        with (plankLostCount st1 + Z.of_nat (List.length rest))
        by (rewrite Hl; cbn [List.length]; lia).
      subst fired1. exact IH.
Qed.

End Filter.

(** C2. From an inactive filter with no pass counted, consecutive passing
    frames invoke [onPlankDetected] exactly once, at the frame that brings
    their number to [stabilityFrames] (5 by default): fewer frames invoke
    nothing, and once the filter is active further passing frames invoke
    nothing. *)
Theorem position_acquired_once (opts : UsePoseDetectionOptions)
  (st : HookState) (frames : list (list Landmarks)) :
  1 <= stabilityFrames opts ->
  isPlankActive st = false ->
  plankDetectedCount st = 0 ->
  Forall passing frames ->
  let '(st', fired) := detectLoop opts st frames in
  let n := Z.of_nat (List.length frames) in
  fired = (if n <? stabilityFrames opts then [] else [onPlankDetected])
  /\ isPlankActive st' = negb (n <? stabilityFrames opts)
  /\ plankDetectedCount st' = n
  /\ forall more,
       Forall passing more -> isPlankActive st' = true ->
       snd (detectLoop opts st' more) = [].
Proof.
  intros Hn Hact Hzero Hall.
  pose proof (passing_while_inactive opts frames st Hall Hact) as Hrun.
  rewrite Hzero in Hrun. specialize (Hrun ltac:(lia)).
  destruct (detectLoop opts st frames) as [st' fired].
  cbn zeta in Hrun |- *. rewrite Z.add_0_l in Hrun.
  destruct Hrun as [Hf [Ha Hd]].
  repeat split; auto.
  intros more Hmore Hact'.
  pose proof (passing_while_active opts more st' Hmore Hact') as Hrun.
  destruct (detectLoop opts st' more) as [st'' fired'].
  cbn [snd]. tauto.
Qed.

Lemma position_acquired_once_witness :
  let '(st', fired) :=
    detectLoop defaultOptions initialState (repeat [Frames.goodPlank] 5) in
  let n := Z.of_nat (List.length (repeat [Frames.goodPlank] 5)) in
  fired = (if n <? stabilityFrames defaultOptions
           then [] else [onPlankDetected])
  /\ isPlankActive st' = negb (n <? stabilityFrames defaultOptions)
  /\ plankDetectedCount st' = n
  /\ forall more,
       Forall passing more -> isPlankActive st' = true ->
       snd (detectLoop defaultOptions st' more) = [].
Proof.
  apply (position_acquired_once defaultOptions initialState
           (repeat [Frames.goodPlank] 5)).
  - vm_compute. discriminate.
  - reflexivity.
  - reflexivity.
  - repeat constructor.
Defined.

(** With the default options, four good frames invoke nothing, the fifth
    invokes [onPlankDetected], and three more invoke nothing further. *)
Example acquisition_runs :
  stabilityFrames defaultOptions = 5
  /\ snd (detectLoop defaultOptions initialState
            (repeat [Frames.goodPlank] 4)) = []
  /\ snd (detectLoop defaultOptions initialState
            (repeat [Frames.goodPlank] 5)) = [onPlankDetected]
  /\ snd (detectLoop defaultOptions initialState
            (repeat [Frames.goodPlank] 8)) = [onPlankDetected].
Proof. vm_compute. auto. Qed.

(** C3, as the code has it.  While the filter is active with no failure
    counted, consecutive failing frames (frames without a person among
    them) invoke [onPlankLost] exactly once, at the frame that brings their
    number to [gracePeriodFrames]; fewer invoke nothing, and then one
    passing frame sets the fail counter back to 0 with the filter still
    active.  [gracePeriodFrames] is 10 by default and 30 in the recorder. *)
Theorem position_lost_after_grace (opts : UsePoseDetectionOptions)
  (st : HookState) (frames : list (list Landmarks)) :
  1 <= gracePeriodFrames opts ->
  isPlankActive st = true ->
  plankLostCount st = 0 ->
  Forall failing frames ->
  let '(st', fired) := detectLoop opts st frames in
  let n := Z.of_nat (List.length frames) in
  fired = (if n <? gracePeriodFrames opts then [] else [onPlankLost])
  /\ isPlankActive st' = (n <? gracePeriodFrames opts)
  /\ plankLostCount st' = n
  /\ (n < gracePeriodFrames opts ->
      forall poses,
        passing poses ->
        let '(st'', fired') := detectPose opts st' poses in
        fired' = [] /\ isPlankActive st'' = true /\ plankLostCount st'' = 0).
Proof.
  intros Hn Hact Hzero Hall.
  pose proof (failing_while_active opts frames st Hall Hact) as Hrun.
  rewrite Hzero in Hrun. specialize (Hrun ltac:(lia)).
  destruct (detectLoop opts st frames) as [st' fired].
  cbn zeta in Hrun |- *. rewrite Z.add_0_l in Hrun.
  destruct Hrun as [Hf [Ha Hl]].
  repeat split; auto.
  intros Hfew poses Hpass.
  pose proof (detectPose_passing opts st' poses Hpass) as Hstep.
  cbn zeta in Hstep.
  destruct (detectPose opts st' poses) as [st'' fired'].
  destruct Hstep as [_ [Hl' [Ha' Hf']]].
  apply Z.ltb_lt in Hfew. rewrite Hfew in Ha. rewrite Ha in Ha', Hf'.
  cbn [negb andb orb] in Ha', Hf'. auto.
Qed.

Lemma position_lost_after_grace_witness :
  let held := fst (detectLoop recorderOptions initialState
                     (repeat [Frames.goodPlank] 5)) in
  let '(st', fired) := detectLoop recorderOptions held (repeat [] 30) in
  let n := Z.of_nat (List.length (repeat (@nil Landmarks) 30)) in
  fired = (if n <? gracePeriodFrames recorderOptions
           then [] else [onPlankLost])
  /\ isPlankActive st' = (n <? gracePeriodFrames recorderOptions)
  /\ plankLostCount st' = n
  /\ (n < gracePeriodFrames recorderOptions ->
      forall poses,
        passing poses ->
        let '(st'', fired') := detectPose recorderOptions st' poses in
        fired' = [] /\ isPlankActive st'' = true /\ plankLostCount st'' = 0).
Proof.
  apply (position_lost_after_grace recorderOptions
           (fst (detectLoop recorderOptions initialState
                   (repeat [Frames.goodPlank] 5)))
           (repeat [] 30)).
  - vm_compute. discriminate.
  - vm_compute. reflexivity.
  - vm_compute. reflexivity.
  - repeat constructor.
Defined.

(** C3 as stated fails for the hook's own default: [gracePeriodFrames] is
    10 there, not 30, so after an acquisition ten frames without a person,
    fewer than 30, already invoke [onPlankLost]. *)
Lemma default_grace_period_is_ten :
  gracePeriodFrames defaultOptions = 10
  /\ let '(st', fired) :=
       detectLoop defaultOptions initialState
         (repeat [Frames.goodPlank] 5 ++ repeat [] 10) in
     fired = [onPlankDetected; onPlankLost] /\ isPlankActive st' = false.
Proof. vm_compute. auto. Qed.

(** In the recorder, with 30 frames of grace, 29 failing frames and a good
    one keep the hold, and 30 failing frames end it. *)
Example recorder_grace_runs :
  gracePeriodFrames recorderOptions = 30
  /\ snd (detectLoop recorderOptions initialState
            (repeat [Frames.goodPlank] 5 ++ repeat [] 29
               ++ [[Frames.goodPlank]] ++ repeat [] 29))
     = [onPlankDetected]
  /\ snd (detectLoop recorderOptions initialState
            (repeat [Frames.goodPlank] 5 ++ repeat [] 30 ++ repeat [] 5))
     = [onPlankDetected; onPlankLost].
Proof. vm_compute. auto. Qed.

(** A frame on which the classifier throws leaves the counters and the
    active flag as they are, invokes no callback and sets the error. *)
Lemma detectPose_throwing (opts : UsePoseDetectionOptions) (st : HookState)
  (poses : list Landmarks) :
  frameVerdict poses = None ->
  detectPose opts st poses
  = (mkHook (plankDetectedCount st) (plankLostCount st) (isPlankActive st)
       (detectionResult st) (Some "Detection error occurred"%string), []).
Proof.
  unfold frameVerdict, detectPose.
  destruct poses as [| landmarks rest]; [discriminate |].
  destruct (detectPlankPosition landmarks); [discriminate | reflexivity].
Qed.

(** [reset] returns the hook to its initial state and invokes nothing. *)
Lemma reset_initial (st : HookState) : reset st = initialState.
Proof. reflexivity. Qed.

End StabilityFacts.

(** ** More about the classifier *)

Module ClassifierMore.
Import JS PoseDetection PoseDetection.POSE_LANDMARKS Analysis Derived.
Import ClassifierFacts.

(** *** What a message costs *)

(** Along a run of checks every message appended costs at least 15
    points. *)
Lemma run_message_cost (checks : list (Score -> Score))
  (qts : list (bool * list string)) :
  Forall2 (fun check qt => forall s, CheckStep (fst qt) (snd qt) s (check s))
    checks qts ->
  forall s,
    (List.length (messages s) <= List.length (messages (runChecks checks s)))%nat
    /\ 15 * Z.of_nat (List.length (messages (runChecks checks s)))
       - 15 * Z.of_nat (List.length (messages s))
       <= points s - points (runChecks checks s).
Proof.
  induction 1 as [| check [quiet texts] checks qts Hstep _ IH]; intro s.
  - cbn. lia.
  - cbn [fst snd] in Hstep. specialize (Hstep s).
    unfold runChecks in *. cbn [fold_left].
    specialize (IH (check s)).
    destruct Hstep as [| Hquiet | p m Hp Hm];
      cbn [deduct push points messages] in *;
      rewrite ?length_app in *; cbn [List.length] in *.
    + exact IH.
    + lia.
    + simpl in Hp. lia.
Qed.

(** Along a run of checks that appends no message at most 10 points go
    for each check that has a quiet tier. *)
Lemma run_quiet_cost (checks : list (Score -> Score))
  (qts : list (bool * list string)) :
  Forall2 (fun check qt => forall s, CheckStep (fst qt) (snd qt) s (check s))
    checks qts ->
  forall s,
    List.length (messages (runChecks checks s)) = List.length (messages s) ->
    points s - points (runChecks checks s)
    <= 10 * Z.of_nat (List.length (filter id (map fst qts))).
Proof.
  induction 1 as [| check [quiet texts] checks qts Hstep Hrest IH]; intro s.
  - cbn. lia.
  - cbn [fst snd] in Hstep. specialize (Hstep s).
    pose proof (run_message_cost _ _ Hrest (check s)) as [Hgrow _].
    unfold runChecks in *. cbn [fold_left map fst filter].
    specialize (IH (check s)).
    destruct Hstep as [| Hquiet | p m Hp Hm];
      cbn [deduct push points messages] in *;
      rewrite ?length_app in *; cbn [List.length] in *; intro Hsame.
    + specialize (IH Hsame). destruct (id quiet); cbn [List.length]; lia.
    + specialize (IH Hsame). subst quiet. cbn [id List.length]. lia.
    + lia.
Qed.

Lemma scoreFrame_message_cost (k : KeyLandmarks) :
  15 * Z.of_nat (List.length (messages (scoreFrame k)))
  <= 100 - points (scoreFrame k).
Proof.
  pose proof (run_message_cost _ _ (formChecks_steps k) initialScore) as [_ H].
  rewrite <- scoreFrame_runChecks in H. cbn [initialScore messages points] in H.
  cbn [List.length Z.of_nat] in H. lia.
Qed.

Lemma scoreFrame_quiet_cost (k : KeyLandmarks) :
  messages (scoreFrame k) = [] -> 80 <= points (scoreFrame k).
Proof.
  intro Hnone.
  pose proof (run_quiet_cost _ _ (formChecks_steps k) initialScore) as H.
  rewrite <- scoreFrame_runChecks in H. rewrite Hnone in H.
  specialize (H eq_refl).
  change (List.length (filter id (map fst (combine checkQuiet checkTexts))))
    with 2%nat in H.
  cbn [initialScore points] in H. lia.
Qed.

(** The cap of three violation messages never decides the verdict: each
    message costs at least 15 points, so a confidence of 55 or more leaves
    room for three at most.  Whatever the frame, the classifier returns
    [isPlank] exactly when it returns a confidence of at least 55. *)
Theorem verdict_by_confidence (landmarks : Landmarks) :
  match detectPlankPosition landmarks with
  | Returned r => isPlank r = (55 <=? confidence r)
  | Threw _ => slotsPresent landmarks = false
  end.
Proof.
  destruct (detectPlankPosition_outcome landmarks) as [_ | k _ _ _ | _ Hp].
  - reflexivity.
  - pose proof (scoreFrame_message_cost k) as Hcost.
    unfold verdict, PASS_THRESHOLD, MAX_VIOLATIONS. cbn [isPlank confidence].
    destruct (55 <=? points (scoreFrame k)) eqn:Hpass.
    + apply Z.leb_le in Hpass.
      replace (55 <=? Z.max 0 (points (scoreFrame k))) with true
        by (symmetry; apply Z.leb_le; lia).
      cbn [andb]. apply Nat.leb_le. lia.
    + apply Z.leb_gt in Hpass. cbn [andb].
      symmetry. apply Z.leb_gt. lia.
  - exact Hp.
Qed.

(** The feedback of a result is never empty: a pass starts with an
    affirmation, a frame that fails the gate carries the no-person message,
    and a frame that passes the gate and fails the checks carries at least
    one violation message, since the quiet tiers alone cost 20 points at
    most. *)
Theorem feedback_never_empty (landmarks : Landmarks) :
  match detectPlankPosition landmarks with
  | Returned r =>
      feedback r <> []
      /\ (isPlank r = true -> exists a rest,
            In a affirmationTexts /\ feedback r = a :: rest
            /\ (List.length rest <= 3)%nat)
      /\ (isPlank r = false -> forall a,
            In a affirmationTexts -> ~ In a (feedback r))
  | Threw _ => slotsPresent landmarks = false
  end.
Proof.
  destruct (detectPlankPosition_outcome landmarks) as [_ | k _ _ _ | _ Hp].
  - cbn [feedback isPlank]. split; [discriminate |]. split; [discriminate |].
    intros _ a Ha [Heq | []].
    apply (noPersonFeedback_distinct landmarks).
    rewrite Heq. apply in_or_app. right. exact Ha.
  - pose proof (verdict_feedback landmarks (scoreFrame k)) as Hfb.
    pose proof (verdict_isPlank landmarks (scoreFrame k)) as Hiff.
    cbn zeta in Hfb.
    destruct (isPlank (verdict landmarks (scoreFrame k))) eqn:Hplank.
    + destruct Hfb as [a [Ha Hfb]]. rewrite Hfb.
      split; [discriminate |]. split; [| discriminate].
      intros _. exists a, (messages (scoreFrame k)).
      repeat split; auto. tauto.
    + rewrite Hfb. split; [| split; [discriminate |]].
      * intro Hnone. pose proof (scoreFrame_quiet_cost k Hnone) as Hhigh.
        rewrite Hnone in Hiff. cbn [List.length] in Hiff.
        assert (Hc : 55 <= confidence (verdict landmarks (scoreFrame k)))
          by (unfold verdict; cbn [confidence]; lia).
        assert (false = true) by (apply Hiff; split; [exact Hc | lia]).
        discriminate.
      * intros _ a Ha Hin.
        destruct (scoreFrame_facts k) as [added [Hmsg Hord _ _ _ _]].
        rewrite <- scoreFrame_runChecks in Hmsg.
        cbn [initialScore messages app] in Hmsg. rewrite Hmsg in Hin.
        assert (Hviol : forall l1 l2 : list string,
                  Subseq l1 l2 -> forall t, In t l1 -> In t l2).
        { induction 1; intros t Ht; simpl in *; intuition. }
        apply (Hviol _ _ Hord) in Hin.
        revert Ha Hin. cbn. intuition (subst; discriminate).
  - exact Hp.
Qed.

(** *** The visibility gate *)

Lemma leb_trans (a b c : float) :
  (a <=? b)%float = true -> (b <=? c)%float = true -> (a <=? c)%float = true.
Proof.
  rewrite !leb_spec. unfold SFleb.
  destruct (Prim2SF a) as [sa | sa | | sa ma ea],
    (Prim2SF b) as [sb | sb | | sb mb eb],
    (Prim2SF c) as [sc | sc | | sc mc ec]; cbn;
    try (destruct sa); try (destruct sb); try (destruct sc); cbn;
    try discriminate; try reflexivity; intros H1 H2.
  all: try (destruct (Z.compare_spec ea eb); try discriminate H1;
            destruct (Z.compare_spec eb ec); try discriminate H2;
            destruct (Z.compare_spec ea ec); try reflexivity; try lia; subst).
  all: try (rewrite ?Pos.compare_cont_spec in *;
            destruct (Pos.compare_spec ma mb); try discriminate H1;
            destruct (Pos.compare_spec mb mc); try discriminate H2;
            destruct (Pos.compare_spec ma mc); try reflexivity; lia).
Qed.

Lemma filter_length_le {A : Type} (p q : A -> bool) (l : list A) :
  (forall a, p a = true -> q a = true) ->
  (List.length (filter p l) <= List.length (filter q l))%nat.
Proof.
  intro Hpq. induction l as [| a l IH]; cbn [filter]; [lia |].
  destruct (p a) eqn:Hp.
  - rewrite (Hpq a Hp). cbn [List.length]. lia.
  - destruct (q a); cbn [List.length]; lia.
Qed.

Lemma visibleAt_lower (landmarks : Landmarks) (low high : float) (idx : nat) :
  (low <=? high)%float = true ->
  visibleAt landmarks high idx = true -> visibleAt landmarks low idx = true.
Proof.
  intro Hle. unfold visibleAt.
  destruct (at_index landmarks idx) as [l |]; [| discriminate].
  rewrite !andb_true_iff. intros [Ht Hv]. split; [exact Ht |].
  exact (leb_trans _ _ _ Hle Hv).
Qed.

(** Raising the threshold can only close the gate: a frame visible at a
    threshold is visible at every lower one. *)
Theorem gate_monotone (landmarks : Landmarks) (low high : float) :
  (low <=? high)%float = true ->
  areLandmarksVisible landmarks high = true ->
  areLandmarksVisible landmarks low = true.
Proof.
  intro Hle. unfold areLandmarksVisible.
  destruct (forallb (visibleAt landmarks high) criticalIndices) eqn:Hcrit;
    cbn [negb]; [| discriminate].
  rewrite forallb_forall in Hcrit.
  replace (forallb (visibleAt landmarks low) criticalIndices) with true.
  - cbn [negb]. rewrite !Nat.leb_le. intro Hopt.
    pose proof (filter_length_le (visibleAt landmarks high)
                  (visibleAt landmarks low) optionalIndices
                  (fun i => visibleAt_lower landmarks low high i Hle)).
    lia.
  - symmetry. apply forallb_forall. intros i Hi.
    apply (visibleAt_lower landmarks low high i Hle), Hcrit, Hi.
Qed.

Lemma gate_monotone_witness :
  areLandmarksVisible Frames.goodPlank 0.3 = true.
Proof.
  apply (gate_monotone Frames.goodPlank 0.3 0.9); vm_compute; reflexivity.
Defined.

Lemma visibleAt_present (landmarks : Landmarks) (t : float) (idx : nat) :
  visibleAt landmarks t idx = true -> present landmarks idx = true.
Proof.
  unfold visibleAt, present. destruct (at_index landmarks idx); auto.
Qed.

Lemma gate_critical (landmarks : Landmarks) (t : float) :
  areLandmarksVisible landmarks t = true ->
  forall idx, In idx criticalIndices -> visibleAt landmarks t idx = true.
Proof.
  unfold areLandmarksVisible.
  destruct (forallb (visibleAt landmarks t) criticalIndices) eqn:Hcrit;
    cbn [negb]; [| discriminate].
  intros _. apply forallb_forall, Hcrit.
Qed.

(** What the gate leaves open.  When the classifier throws, the nose, both
    shoulders and both hips are present with a visibility of at least 0.3,
    and the absent landmark is an elbow, a knee or an ankle; of these six
    at most two are absent. *)
Theorem throw_blames_optional (landmarks : Landmarks) (e : error) :
  detectPlankPosition landmarks = Threw e ->
  (forall idx, In idx criticalIndices ->
               visibleAt landmarks defaultMinVisibility idx = true)
  /\ (exists idx, In idx optionalIndices /\ at_index landmarks idx = None)
  /\ (List.length (filter (fun idx => negb (present landmarks idx))
                     optionalIndices) <= 2)%nat.
Proof.
  intro Hthrow.
  destruct (detectPlankPosition_outcome landmarks) as [_ | k _ _ _ | Hg Hp];
    try discriminate Hthrow.
  pose proof (gate_critical landmarks _ Hg) as Hcrit.
  split; [exact Hcrit | split].
  - assert (Hpres : forall idx, In idx criticalIndices ->
                                present landmarks idx = true)
      by (intros idx Hi; eapply visibleAt_present, Hcrit, Hi).
    unfold slotsPresent, formSlots in Hp. cbn [forallb] in Hp.
    rewrite (Hpres LEFT_SHOULDER), (Hpres RIGHT_SHOULDER), (Hpres LEFT_HIP),
      (Hpres RIGHT_HIP), (Hpres NOSE) in Hp by (simpl; tauto).
    cbn [andb] in Hp. unfold present in Hp.
    repeat match type of Hp with
      | context [at_index landmarks ?i] =>
          destruct (at_index landmarks i) eqn:?;
          [| exists i; split; [simpl; tauto | assumption]]
      end.
    discriminate Hp.
  - unfold areLandmarksVisible in Hg.
    destruct (forallb _ criticalIndices); cbn [negb] in Hg;
      [| discriminate Hg].
    apply Nat.leb_le in Hg.
    pose proof (filter_length_le (visibleAt landmarks defaultMinVisibility)
                  (present landmarks) optionalIndices
                  (visibleAt_present landmarks defaultMinVisibility)) as Hle.
    pose proof (filter_length (present landmarks) optionalIndices) as Hsum.
    change (List.length optionalIndices) with 6%nat in Hsum. lia.
Qed.

Lemma throw_blames_optional_witness :
  (forall idx, In idx criticalIndices ->
               visibleAt Frames.anklesCutOff defaultMinVisibility idx = true)
  /\ (exists idx, In idx optionalIndices
                  /\ at_index Frames.anklesCutOff idx = None)
  /\ (List.length (filter (fun idx => negb (present Frames.anklesCutOff idx))
                     optionalIndices) <= 2)%nat.
Proof.
  apply (throw_blames_optional Frames.anklesCutOff TypeError).
  vm_compute. reflexivity.
Defined.

Lemma at_index_beyond (landmarks : Landmarks) (idx : nat) :
  (List.length landmarks <= idx)%nat -> at_index landmarks idx = None.
Proof.
  intro H. unfold at_index.
  now rewrite (proj2 (nth_error_None landmarks idx) H).
Qed.

Lemma at_index_defined (landmarks : Landmarks) (idx : nat) :
  (idx < List.length landmarks)%nat ->
  Forall (fun entry => entry <> None) landmarks ->
  present landmarks idx = true.
Proof.
  intros Hlt Hall. unfold present, at_index.
  destruct (nth_error landmarks idx) as [entry |] eqn:Hnth.
  - rewrite Forall_forall in Hall.
    specialize (Hall entry (nth_error_In _ _ Hnth)).
    destruct entry; [reflexivity | contradiction].
  - apply nth_error_None in Hnth. lia.
Qed.

(** An array that stops before the hips (fewer than 25 entries) always gets
    the no-person outcome, the empty array included. *)
Theorem short_frame_no_person (landmarks : Landmarks) :
  (List.length landmarks <= 24)%nat ->
  detectPlankPosition landmarks
  = Returned (mkResult false 0 [noPersonFeedback landmarks] (Some landmarks)).
Proof.
  intro Hshort.
  destruct (detectPlankPosition_outcome landmarks) as [_ | k Hg _ _ | Hg _];
    [reflexivity | |];
    assert (Hhip : visibleAt landmarks defaultMinVisibility RIGHT_HIP = true)
      by (apply (gate_critical landmarks _ Hg); do 4 right; left; reflexivity);
    unfold visibleAt in Hhip;
    rewrite (at_index_beyond landmarks RIGHT_HIP Hshort) in Hhip;
    discriminate Hhip.
Qed.

Lemma short_frame_no_person_witness :
  detectPlankPosition (firstn 24 Frames.goodPlank)
  = Returned (mkResult false 0 [noPersonFeedback (firstn 24 Frames.goodPlank)]
                (Some (firstn 24 Frames.goodPlank))).
Proof.
  apply (short_frame_no_person (firstn 24 Frames.goodPlank)).
  simpl. lia.
Defined.

(** On an array of at least 29 entries none of which is [undefined], as
    the estimator delivers them, the classifier returns. *)
Theorem full_frame_returns (landmarks : Landmarks) :
  (29 <= List.length landmarks)%nat ->
  Forall (fun entry => entry <> None) landmarks ->
  exists r, detectPlankPosition landmarks = Returned r.
Proof.
  intros Hlen Hall.
  assert (Hpresent : slotsPresent landmarks = true).
  { unfold slotsPresent. apply forallb_forall. intros idx Hidx.
    apply at_index_defined; [| exact Hall].
    assert (idx <= 28)%nat
      by (simpl in Hidx; unfold NOSE, LEFT_SHOULDER, RIGHT_SHOULDER,
            LEFT_ELBOW, RIGHT_ELBOW, LEFT_HIP, RIGHT_HIP, LEFT_KNEE,
            RIGHT_KNEE, LEFT_ANKLE, RIGHT_ANKLE in Hidx; lia).
    lia. }
  destruct (detectPlankPosition_outcome landmarks) as [_ | k _ _ _ | _ Hp];
    [eexists; reflexivity | eexists; reflexivity | congruence].
Qed.

Lemma full_frame_returns_witness :
  exists r, detectPlankPosition Frames.standing = Returned r.
Proof.
  apply (full_frame_returns Frames.standing).
  - simpl. lia.
  - repeat constructor; discriminate.
Defined.

(** *** What the classifier looks at *)

Lemma sameView_slot (landmarks landmarks' : Landmarks) (idx : nat) :
  sameView landmarks landmarks' -> In idx formSlots ->
  (at_index landmarks idx = None /\ at_index landmarks' idx = None)
  \/ (exists l l',
        at_index landmarks idx = Some l /\ at_index landmarks' idx = Some l'
        /\ x l' = x l /\ y l' = y l /\ visibility l' = visibility l).
Proof.
  intros Hsame Hin. specialize (Hsame idx Hin).
  destruct (at_index landmarks idx) as [l |],
    (at_index landmarks' idx) as [l' |]; cbn in Hsame; try discriminate.
  - right. exists l, l'. unfold planar in Hsame.
    injection Hsame as Hx Hy Hv. auto.
  - left. auto.
Qed.

Lemma sameView_visibleAt (landmarks landmarks' : Landmarks) (t : float)
  (idx : nat) :
  sameView landmarks landmarks' -> In idx formSlots ->
  visibleAt landmarks' t idx = visibleAt landmarks t idx.
Proof.
  intros Hsame Hin. unfold visibleAt.
  destruct (sameView_slot _ _ idx Hsame Hin)
    as [[-> ->] | [l [l' [-> [-> [_ [_ ->]]]]]]]; reflexivity.
Qed.

Lemma sameView_notSeen (landmarks landmarks' : Landmarks) (idx : nat) :
  sameView landmarks landmarks' -> In idx formSlots ->
  notSeen (at_index landmarks' idx) = notSeen (at_index landmarks idx).
Proof.
  intros Hsame Hin. unfold notSeen.
  destruct (sameView_slot _ _ idx Hsame Hin)
    as [[-> ->] | [l [l' [-> [-> [_ [_ ->]]]]]]]; reflexivity.
Qed.

Lemma sameView_gate (landmarks landmarks' : Landmarks) (t : float) :
  sameView landmarks landmarks' ->
  areLandmarksVisible landmarks' t = areLandmarksVisible landmarks t.
Proof.
  intro Hsame. unfold areLandmarksVisible, criticalIndices, optionalIndices.
  cbn [forallb filter].
  rewrite !(sameView_visibleAt landmarks landmarks' t _ Hsame)
    by (simpl; tauto).
  reflexivity.
Qed.

Lemma sameView_noPersonFeedback (landmarks landmarks' : Landmarks) :
  sameView landmarks landmarks' ->
  noPersonFeedback landmarks' = noPersonFeedback landmarks.
Proof.
  intro Hsame. unfold noPersonFeedback. cbn zeta.
  rewrite !(sameView_notSeen landmarks landmarks' _ Hsame) by (simpl; tauto).
  reflexivity.
Qed.

Lemma sameView_keyLandmarks (landmarks landmarks' : Landmarks) :
  sameView landmarks landmarks' ->
  match keyLandmarks landmarks, keyLandmarks landmarks' with
  | Returned k, Returned k' => scoreFrame k' = scoreFrame k
  | Threw _, Threw _ => True
  | _, _ => False
  end.
Proof.
  intro Hsame. unfold keyLandmarks. cbn zeta.
  repeat match goal with
    | |- context [deref (at_index landmarks ?i)] =>
        let l := fresh "l" in
        let l' := fresh "l'" in
        let Hx := fresh "Hx" in
        let Hy := fresh "Hy" in
        destruct (sameView_slot _ _ i Hsame ltac:(simpl; tauto))
          as [[-> ->] | [l [l' [-> [-> [Hx [Hy _]]]]]]];
        cbn [deref bind]; [exact I |]
    end.
  unfold scoreFrame, bodyLevelness, noseShoulderDiff, leftArmExtended,
    rightArmExtended, elbowLevelness, shoulderWidth, legStraightness,
    avgBodyY, leftRightSymmetry, shoulderY, hipY, kneeY, ankleY,
    getVerticalDistance, getHorizontalDistance.
  cbn [kNose kLeftShoulder kRightShoulder kLeftElbow kRightElbow kLeftHip
       kRightHip kLeftKnee kRightKnee kLeftAnkle kRightAnkle].
  repeat match goal with
    | H : x _ = x _ |- _ => rewrite H; clear H
    | H : y _ = y _ |- _ => rewrite H; clear H
    end.
  reflexivity.
Qed.

(** The verdict is a function of the [x], [y] and [visibility] of eleven
    landmarks: nose, shoulders, elbows, hips, knees and ankles.  Two frames
    that agree there get the same verdict, confidence and feedback, or both
    make the classifier throw, whatever their depths [z], their other
    twenty-two slots and their lengths. *)
Theorem verdict_depends_on_view (landmarks landmarks' : Landmarks) :
  sameView landmarks landmarks' ->
  match detectPlankPosition landmarks, detectPlankPosition landmarks' with
  | Returned r, Returned r' => sameVerdict r r'
  | Threw _, Threw _ => True
  | _, _ => False
  end.
Proof.
  intro Hsame. unfold detectPlankPosition.
  rewrite (sameView_gate _ _ _ Hsame), (sameView_noPersonFeedback _ _ Hsame).
  destruct (areLandmarksVisible landmarks defaultMinVisibility); cbn [negb].
  - pose proof (sameView_keyLandmarks _ _ Hsame) as Hkey.
    destruct (keyLandmarks landmarks) as [k |],
      (keyLandmarks landmarks') as [k' |]; cbn [bind]; try exact Hkey.
    unfold sameVerdict, verdict. rewrite Hkey. cbn. auto.
  - unfold sameVerdict. cbn. auto.
Qed.

Lemma verdict_depends_on_view_witness :
  match detectPlankPosition Frames.goodPlank,
        detectPlankPosition goodPlankDeep with
  | Returned r, Returned r' => sameVerdict r r'
  | Threw _, Threw _ => True
  | _, _ => False
  end.
Proof.
  apply (verdict_depends_on_view Frames.goodPlank goodPlankDeep).
  intros i Hin. simpl in Hin.
  repeat destruct Hin as [<- | Hin]; try reflexivity. contradiction.
Defined.

(** *** The pose angles *)

Section PoseAngles.
Variable Math_atan2 : float -> float -> float.

(** [calculatePoseAngles] returns exactly on the arrays that hold both
    shoulders, elbows, wrists, hips, knees and ankles, and throws on all
    others. *)
Lemma calculatePoseAngles_returns (landmarks : Landmarks) :
  (exists angles, calculatePoseAngles Math_atan2 landmarks = Returned angles)
  <-> forallb (present landmarks) angleSlots = true.
Proof.
  unfold calculatePoseAngles, angleAt, angleSlots, present.
  cbn [forallb].
  repeat match goal with
    | |- context [at_index landmarks ?i] =>
        destruct (at_index landmarks i);
        cbn [deref bind andb];
        try (split; [intros [angles Hangles]; discriminate Hangles
                    | discriminate])
    end.
  split; [reflexivity | eexists; reflexivity].
Qed.

(** The angle at a vertex is a function of the positions of the three
    points. *)
Lemma calculateAngle_positions (a b c a' b' c' : NormalizedLandmark) :
  position a = position a' -> position b = position b' ->
  position c = position c' ->
  calculateAngle Math_atan2 a b c = calculateAngle Math_atan2 a' b' c'.
Proof.
  unfold position, calculateAngle. intros Ha Hb Hc.
  injection Ha as -> ->. injection Hb as -> ->. injection Hc as -> ->.
  reflexivity.
Qed.

Lemma angleAt_outline (landmarks landmarks' : Landmarks) (ia ib ic : nat) :
  sameOutline landmarks landmarks' ->
  In ia angleSlots -> In ib angleSlots -> In ic angleSlots ->
  angleAt Math_atan2 landmarks ia ib ic
  = angleAt Math_atan2 landmarks' ia ib ic.
Proof.
  intros Hsame Ha Hb Hc. unfold angleAt.
  pose proof (Hsame ia Ha) as Ea. pose proof (Hsame ib Hb) as Eb.
  pose proof (Hsame ic Hc) as Ec.
  destruct (at_index landmarks ia) as [a |],
    (at_index landmarks' ia) as [a' |]; try discriminate Ea;
    cbn [deref bind]; [| reflexivity].
  destruct (at_index landmarks ib) as [b |],
    (at_index landmarks' ib) as [b' |]; try discriminate Eb;
    cbn [deref bind]; [| reflexivity].
  destruct (at_index landmarks ic) as [c |],
    (at_index landmarks' ic) as [c' |]; try discriminate Ec;
    cbn [deref bind]; [| reflexivity].
  cbn [option_map] in Ea, Eb, Ec.
  assert (Pa : position a = position a') by congruence.
  assert (Pb : position b = position b') by congruence.
  assert (Pc : position c = position c') by congruence.
  rewrite (calculateAngle_positions a b c a' b' c' Pa Pb Pc). reflexivity.
Qed.

(** What [calculatePoseAngles] reads.  It returns exactly on the arrays
    that hold both shoulders, elbows, wrists, hips, knees and ankles, and
    throws on all others; and what it returns is a function of the [x] and
    [y] of these twelve landmarks: two arrays that agree there get the same
    angles or both make it throw, whatever their nose and other slots,
    their visibilities, their depths and their lengths, and whatever
    [Math.atan2] is. *)
Theorem calculatePoseAngles_reads_positions (landmarks : Landmarks) :
  ((exists angles,
       calculatePoseAngles Math_atan2 landmarks = Returned angles)
   <-> forallb (present landmarks) angleSlots = true)
  /\ (forall landmarks',
        sameOutline landmarks landmarks' ->
        calculatePoseAngles Math_atan2 landmarks'
        = calculatePoseAngles Math_atan2 landmarks).
Proof.
  split; [apply calculatePoseAngles_returns |].
  intros landmarks' Hsame. unfold calculatePoseAngles.
  rewrite !(angleAt_outline landmarks landmarks') by
    (try exact Hsame; unfold angleSlots; simpl; tauto).
  reflexivity.
Qed.

(** The nose, the depths and the visibilities do not enter the angles. *)
Example goodPlank_outline :
  sameOutline Frames.goodPlank
    (map (option_map (fun l => mkLandmark (x l) (y l) 0.7 0.1))
       (None :: tl Frames.goodPlank)).
Proof.
  intros i Hi. unfold angleSlots in Hi. simpl in Hi.
  repeat (destruct Hi as [<- | Hi]; [reflexivity |]). contradiction.
Qed.

End PoseAngles.

End ClassifierMore.

(** ** More about the stability filter *)

Module StabilityMore.
Import JS PoseDetection UsePoseDetection Analysis Derived.
Import StabilityFacts.

(** The three ways a frame goes through [detectPose]. *)
Lemma frameVerdict_cases (poses : list Landmarks) :
  passing poses \/ failing poses \/ frameVerdict poses = None.
Proof.
  unfold passing, failing.
  destruct (frameVerdict poses) as [[|] |]; auto.
Qed.

Section Loop.
Variable opts : UsePoseDetectionOptions.

(** One frame invokes at most one callback, in turn. *)
Lemma detectPose_turn (st : HookState) (poses : list Landmarks) :
  let '(st', fired) := detectPose opts st poses in
  takesTurns (isPlankActive st) fired = true
  /\ isPlankActive st' = activeAfter (isPlankActive st) fired
  /\ (List.length fired <= 1)%nat.
Proof.
  destruct (frameVerdict_cases poses) as [Hp | [Hf | Ht]].
  - pose proof (detectPose_passing opts st poses Hp) as H. cbn zeta in H.
    destruct (detectPose opts st poses) as [st' fired].
    destruct H as [_ [_ [Ha ->]]]. rewrite Ha.
    destruct (isPlankActive st), (stabilityFrames opts <=? _); cbn; auto.
  - pose proof (detectPose_failing opts st poses Hf) as H. cbn zeta in H.
    destruct (detectPose opts st poses) as [st' fired].
    destruct H as [_ [_ [Ha ->]]]. rewrite Ha.
    destruct (isPlankActive st), (gracePeriodFrames opts <=? _); cbn; auto.
  - rewrite (detectPose_throwing opts st poses Ht). cbn. auto.
Qed.

Lemma takesTurns_app (active : bool) (fired later : list Callback) :
  takesTurns active fired = true ->
  takesTurns (activeAfter active fired) later = true ->
  takesTurns active (fired ++ later) = true.
Proof.
  revert active. induction fired as [| callback fired IH]; intro active;
    cbn [app takesTurns]; unfold activeAfter; cbn [fold_left]; [auto |].
  destruct callback; rewrite !andb_true_iff; intros [Ha Hrest] Hlater;
    (split; [exact Ha | apply IH; assumption]).
Qed.

(** The callbacks take turns.  Over any sequence of frames, passing,
    failing, empty or throwing, and for any thresholds, [onPlankDetected]
    is invoked only while the filter is inactive and [onPlankLost] only
    while it is active, each flipping the flag; so from a fresh hook the
    first callback is [onPlankDetected], the two alternate, and the filter
    is active exactly when the last callback was [onPlankDetected].  No
    frame invokes more than one callback. *)
Theorem callbacks_take_turns (st : HookState) (frames : list (list Landmarks)) :
  let '(st', fired) := detectLoop opts st frames in
  takesTurns (isPlankActive st) fired = true
  /\ isPlankActive st' = activeAfter (isPlankActive st) fired
  /\ (List.length fired <= List.length frames)%nat.
Proof.
  revert st. induction frames as [| poses rest IH]; intro st.
  - cbn. auto.
  - cbn [detectLoop].
    pose proof (detectPose_turn st poses) as Hstep.
    destruct (detectPose opts st poses) as [st1 fired].
    specialize (IH st1).
    destruct (detectLoop opts st1 rest) as [st2 later].
    destruct Hstep as [Hturn [Hact Hone]]. destruct IH as [Hturn' [Hact' Hlen]].
    rewrite Hact in Hturn', Hact'.
    repeat split.
    + apply takesTurns_app; assumption.
    + rewrite Hact'. unfold activeAfter. now rewrite fold_left_app.
    + rewrite length_app. cbn [List.length]. lia.
Qed.

Lemma detectPose_shape (st : HookState) (poses : list Landmarks) :
  1 <= stabilityFrames opts -> 1 <= gracePeriodFrames opts ->
  countersInShape opts st ->
  countersInShape opts (fst (detectPose opts st poses)).
Proof.
  intros Hn Hg [Hd [Hl [Hzero Hact]]]. unfold countersInShape.
  destruct (frameVerdict_cases poses) as [Hp | [Hf | Ht]].
  - pose proof (detectPose_passing opts st poses Hp) as H. cbn zeta in H.
    destruct (detectPose opts st poses) as [st' fired]. cbn [fst].
    destruct H as [-> [-> [-> _]]].
    destruct (isPlankActive st); cbn [negb andb orb].
    + lia.
    + destruct (stabilityFrames opts <=? plankDetectedCount st + 1) eqn:He;
        [apply Z.leb_le in He | apply Z.leb_gt in He]; lia.
  - pose proof (detectPose_failing opts st poses Hf) as H. cbn zeta in H.
    destruct (detectPose opts st poses) as [st' fired]. cbn [fst].
    destruct H as [-> [-> [-> _]]].
    destruct (isPlankActive st); cbn [negb andb orb].
    + destruct (gracePeriodFrames opts <=? plankLostCount st + 1) eqn:He;
        [apply Z.leb_le in He | apply Z.leb_gt in He]; cbn [negb]; lia.
    + lia.
  - rewrite (detectPose_throwing opts st poses Ht). cbn. auto.
Qed.

(** The counters keep their shape.  With both thresholds at least 1, in
    every state the loop reaches from a fresh hook the two counters are
    not negative and one of them is 0, an inactive filter has counted
    fewer passes than [stabilityFrames], and an active one fewer failures
    than [gracePeriodFrames]. *)
Theorem counters_keep_shape (st : HookState) (frames : list (list Landmarks)) :
  1 <= stabilityFrames opts -> 1 <= gracePeriodFrames opts ->
  countersInShape opts st ->
  countersInShape opts (fst (detectLoop opts st frames)).
Proof.
  intros Hn Hg. revert st.
  induction frames as [| poses rest IH]; intros st Hshape; [exact Hshape |].
  cbn [detectLoop].
  pose proof (detectPose_shape st poses Hn Hg Hshape) as Hstep.
  destruct (detectPose opts st poses) as [st1 fired]. cbn [fst] in Hstep.
  specialize (IH st1 Hstep).
  destruct (detectLoop opts st1 rest) as [st2 later]. exact IH.
Qed.

(** *** Frames on which the classifier throws *)

Lemma detectPose_result (st : HookState) (poses : list Landmarks) :
  detectionResult (fst (detectPose opts st poses))
  = match poses with
    | [] => Some noPersonResult
    | landmarks :: _ =>
        match detectPlankPosition landmarks with
        | Returned r => Some r
        | Threw _ => detectionResult st
        end
    end.
Proof.
  unfold detectPose. destruct poses as [| landmarks rest].
  - destruct (isPlankActive st && _); reflexivity.
  - destruct (detectPlankPosition landmarks) as [r |]; [| reflexivity].
    destruct (isPlank r);
      [destruct (negb (isPlankActive st) && _)
      | destruct (isPlankActive st && _)]; reflexivity.
Qed.

(** A frame on which the classifier throws is passed over by the filter: a
    loop run on all frames and a loop run on the frames that do not throw
    invoke the same callbacks and end with the same counters, flag and
    detection result. *)
Theorem throwing_frames_passed_over (st : HookState)
  (frames : list (list Landmarks)) :
  let '(st1, fired1) := detectLoop opts st frames in
  let '(st2, fired2) :=
    detectLoop opts st (filter (fun poses => negb (throwsOn poses)) frames) in
  fired1 = fired2
  /\ plankDetectedCount st1 = plankDetectedCount st2
  /\ plankLostCount st1 = plankLostCount st2
  /\ isPlankActive st1 = isPlankActive st2
  /\ detectionResult st1 = detectionResult st2.
Proof.
  assert (Hgen : forall frames st st',
    plankDetectedCount st = plankDetectedCount st' ->
    plankLostCount st = plankLostCount st' ->
    isPlankActive st = isPlankActive st' ->
    detectionResult st = detectionResult st' ->
    let '(st1, fired1) := detectLoop opts st frames in
    let '(st2, fired2) :=
      detectLoop opts st' (filter (fun poses => negb (throwsOn poses)) frames) in
    fired1 = fired2
    /\ plankDetectedCount st1 = plankDetectedCount st2
    /\ plankLostCount st1 = plankLostCount st2
    /\ isPlankActive st1 = isPlankActive st2
    /\ detectionResult st1 = detectionResult st2).
  { clear st frames.
    induction frames as [| poses rest IH]; intros st st' Hd Hl Ha Hr.
    - cbn. auto.
    - cbn [detectLoop filter]. unfold throwsOn at 1.
      destruct (frameVerdict_cases poses) as [Hp | [Hf | Ht]].
      + rewrite Hp. cbn [negb detectLoop].
        pose proof (detectPose_passing opts st poses Hp) as H1.
        pose proof (detectPose_passing opts st' poses Hp) as H2.
        cbn zeta in H1, H2.
        assert (Hres : detectionResult (fst (detectPose opts st poses))
                       = detectionResult (fst (detectPose opts st' poses))).
        { rewrite !detectPose_result, Hr. reflexivity. }
        destruct (detectPose opts st poses) as [sa fa].
        destruct (detectPose opts st' poses) as [sb fb].
        destruct H1 as [Hd1 [Hl1 [Ha1 ->]]]. destruct H2 as [Hd2 [Hl2 [Ha2 ->]]].
        cbn [fst] in Hres.
        specialize (IH sa sb ltac:(congruence) ltac:(congruence)
                      ltac:(congruence) Hres).
        destruct (detectLoop opts sa rest) as [s1 f1].
        destruct (detectLoop opts sb _) as [s2 f2].
        destruct IH as [-> IH]. split; [| exact IH].
        rewrite Ha, Hd. reflexivity.
      + rewrite Hf. cbn [negb detectLoop].
        pose proof (detectPose_failing opts st poses Hf) as H1.
        pose proof (detectPose_failing opts st' poses Hf) as H2.
        cbn zeta in H1, H2.
        assert (Hres : detectionResult (fst (detectPose opts st poses))
                       = detectionResult (fst (detectPose opts st' poses))).
        { rewrite !detectPose_result, Hr. reflexivity. }
        destruct (detectPose opts st poses) as [sa fa].
        destruct (detectPose opts st' poses) as [sb fb].
        destruct H1 as [Hd1 [Hl1 [Ha1 ->]]]. destruct H2 as [Hd2 [Hl2 [Ha2 ->]]].
        cbn [fst] in Hres.
        specialize (IH sa sb ltac:(congruence) ltac:(congruence)
                      ltac:(congruence) Hres).
        destruct (detectLoop opts sa rest) as [s1 f1].
        destruct (detectLoop opts sb _) as [s2 f2].
        destruct IH as [-> IH]. split; [| exact IH].
        rewrite Ha, Hl. reflexivity.
      + rewrite Ht. cbn [negb].
        rewrite (detectPose_throwing opts st poses Ht).
        specialize (IH (mkHook (plankDetectedCount st) (plankLostCount st)
                          (isPlankActive st) (detectionResult st)
                          (Some "Detection error occurred"%string))
                      st' Hd Hl Ha Hr).
        destruct (detectLoop opts (mkHook _ _ _ _ _) rest) as [s1 f1].
        destruct (detectLoop opts st' _) as [s2 f2].
        cbn [app]. exact IH. }
  apply Hgen; reflexivity.
Qed.

(** The error of a throwing frame stays.  [detectPose] sets the error when
    the classifier throws and never clears it: after a loop the error is
    the one message if some frame threw and what it was before if none
    did. *)
Theorem error_after_loop (st : HookState) (frames : list (list Landmarks)) :
  error (fst (detectLoop opts st frames))
  = if existsb throwsOn frames
    then Some "Detection error occurred"%string
    else error st.
Proof.
  assert (Hstep : forall st poses,
    error (fst (detectPose opts st poses))
    = if throwsOn poses then Some "Detection error occurred"%string
      else error st).
  { clear. intros st poses. unfold throwsOn, frameVerdict, detectPose.
    destruct poses as [| landmarks rest].
    - destruct (isPlankActive st && _); reflexivity.
    - destruct (detectPlankPosition landmarks) as [r |]; [| reflexivity].
      destruct (isPlank r);
        [destruct (negb (isPlankActive st) && _)
        | destruct (isPlankActive st && _)]; reflexivity. }
  revert st. induction frames as [| poses rest IH]; intro st; [reflexivity |].
  cbn [detectLoop existsb].
  specialize (Hstep st poses).
  destruct (detectPose opts st poses) as [st1 fired]. cbn [fst] in Hstep.
  specialize (IH st1).
  destruct (detectLoop opts st1 rest) as [st2 later]. cbn [fst] in IH |- *.
  rewrite IH, Hstep.
  destruct (throwsOn poses), (existsb throwsOn rest); reflexivity.
Qed.

(** *** Runs that are too short *)

Lemma longestFailRun_ge (frames : list (list Landmarks)) :
  forall current, current <= longestFailRun current frames.
Proof.
  induction frames as [| poses rest IH]; intro current; cbn; [lia |].
  destruct (frameVerdict poses) as [[|] |].
  - lia.
  - specialize (IH (current + 1)). lia.
  - apply IH.
Qed.

Lemma longestPassRun_ge (frames : list (list Landmarks)) :
  forall current, current <= longestPassRun current frames.
Proof.
  induction frames as [| poses rest IH]; intro current; cbn; [lia |].
  destruct (frameVerdict poses) as [[|] |].
  - specialize (IH (current + 1)). lia.
  - lia.
  - apply IH.
Qed.

(** A hold survives every glitch shorter than the grace period.  While the
    filter is active, a sequence of frames in which no run of failing
    frames, counted from the failures already on the counter, reaches
    [gracePeriodFrames] invokes no callback and leaves the filter active,
    however many such runs there are. *)
Theorem hold_survives_glitches (frames : list (list Landmarks)) :
  forall st,
    isPlankActive st = true ->
    longestFailRun (plankLostCount st) frames < gracePeriodFrames opts ->
    let '(st', fired) := detectLoop opts st frames in
    fired = [] /\ isPlankActive st' = true.
Proof.
  induction frames as [| poses rest IH]; intros st Hact Hrun.
  - cbn. auto.
  - cbn [detectLoop]. cbn [longestFailRun] in Hrun.
    destruct (frameVerdict_cases poses) as [Hp | [Hf | Ht]].
    + rewrite Hp in Hrun.
      pose proof (detectPose_passing opts st poses Hp) as H. cbn zeta in H.
      destruct (detectPose opts st poses) as [st1 fired1].
      destruct H as [_ [Hl [Ha ->]]]. rewrite Hact in Ha |- *.
      cbn [negb andb orb] in Ha |- *.
      specialize (IH st1 Ha). rewrite Hl in IH. specialize (IH ltac:(lia)).
      destruct (detectLoop opts st1 rest) as [st2 fired2]. exact IH.
    + rewrite Hf in Hrun.
      pose proof (longestFailRun_ge rest (plankLostCount st + 1)) as Hge.
      pose proof (detectPose_failing opts st poses Hf) as H. cbn zeta in H.
      destruct (detectPose opts st poses) as [st1 fired1].
      destruct H as [_ [Hl [Ha ->]]]. rewrite Hact in Ha |- *.
      replace (gracePeriodFrames opts <=? plankLostCount st + 1) with false
        in Ha |- * by (symmetry; apply Z.leb_gt; lia).
      cbn [negb andb] in Ha |- *.
      specialize (IH st1 Ha). rewrite Hl in IH. specialize (IH Hrun).
      destruct (detectLoop opts st1 rest) as [st2 fired2]. exact IH.
    + rewrite Ht in Hrun.
      rewrite (detectPose_throwing opts st poses Ht).
      specialize (IH (mkHook (plankDetectedCount st) (plankLostCount st)
                        (isPlankActive st) (detectionResult st)
                        (Some "Detection error occurred"%string))
                    Hact Hrun).
      destruct (detectLoop opts (mkHook _ _ _ _ _) rest) as [st2 fired2].
      exact IH.
Qed.

(** No start without a streak.  While the filter is inactive, a sequence
    of frames in which no run of passing frames, counted from the passes
    already on the counter, reaches [stabilityFrames] invokes no callback
    and leaves the filter inactive. *)
Theorem no_start_without_streak (frames : list (list Landmarks)) :
  forall st,
    isPlankActive st = false ->
    longestPassRun (plankDetectedCount st) frames < stabilityFrames opts ->
    let '(st', fired) := detectLoop opts st frames in
    fired = [] /\ isPlankActive st' = false.
Proof.
  induction frames as [| poses rest IH]; intros st Hact Hrun.
  - cbn. auto.
  - cbn [detectLoop]. cbn [longestPassRun] in Hrun.
    destruct (frameVerdict_cases poses) as [Hp | [Hf | Ht]].
    + rewrite Hp in Hrun.
      pose proof (longestPassRun_ge rest (plankDetectedCount st + 1)) as Hge.
      pose proof (detectPose_passing opts st poses Hp) as H. cbn zeta in H.
      destruct (detectPose opts st poses) as [st1 fired1].
      destruct H as [Hd [_ [Ha ->]]]. rewrite Hact in Ha |- *.
      replace (stabilityFrames opts <=? plankDetectedCount st + 1) with false
        in Ha |- * by (symmetry; apply Z.leb_gt; lia).
      cbn [negb andb orb] in Ha |- *.
      specialize (IH st1 Ha). rewrite Hd in IH. specialize (IH Hrun).
      destruct (detectLoop opts st1 rest) as [st2 fired2]. exact IH.
    + rewrite Hf in Hrun.
      pose proof (detectPose_failing opts st poses Hf) as H. cbn zeta in H.
      destruct (detectPose opts st poses) as [st1 fired1].
      destruct H as [Hd [_ [Ha ->]]]. rewrite Hact in Ha |- *.
      cbn [negb andb] in Ha |- *.
      specialize (IH st1 Ha). rewrite Hd in IH. specialize (IH ltac:(lia)).
      destruct (detectLoop opts st1 rest) as [st2 fired2]. exact IH.
    + rewrite Ht in Hrun.
      rewrite (detectPose_throwing opts st poses Ht).
      specialize (IH (mkHook (plankDetectedCount st) (plankLostCount st)
                        (isPlankActive st) (detectionResult st)
                        (Some "Detection error occurred"%string))
                    Hact Hrun).
      destruct (detectLoop opts (mkHook _ _ _ _ _) rest) as [st2 fired2].
      exact IH.
Qed.

End Loop.

Lemma counters_keep_shape_witness :
  countersInShape recorderOptions
    (fst (detectLoop recorderOptions initialState
            (repeat [Frames.goodPlank] 7 ++ repeat [] 12))).
Proof.
  apply (counters_keep_shape recorderOptions initialState
           (repeat [Frames.goodPlank] 7 ++ repeat [] 12)).
  - vm_compute. discriminate.
  - vm_compute. discriminate.
  - unfold countersInShape. cbn. lia.
Defined.

Lemma hold_survives_glitches_witness :
  let '(st', fired) :=
    detectLoop recorderOptions
      (fst (detectLoop recorderOptions initialState
              (repeat [Frames.goodPlank] 5)))
      (repeat [] 29 ++ [[Frames.goodPlank]; [Frames.anklesCutOff]]
         ++ repeat [Frames.standing] 29) in
  fired = [] /\ isPlankActive st' = true.
Proof.
  apply (hold_survives_glitches recorderOptions
           (repeat [] 29 ++ [[Frames.goodPlank]; [Frames.anklesCutOff]]
              ++ repeat [Frames.standing] 29)).
  - vm_compute. reflexivity.
  - vm_compute. reflexivity.
Defined.

Lemma no_start_without_streak_witness :
  let '(st', fired) :=
    detectLoop recorderOptions initialState
      (repeat [Frames.goodPlank] 4 ++ [[Frames.standing]]
         ++ repeat [Frames.goodPlank] 4 ++ [[]]) in
  fired = [] /\ isPlankActive st' = false.
Proof.
  apply (no_start_without_streak recorderOptions
           (repeat [Frames.goodPlank] 4 ++ [[Frames.standing]]
              ++ repeat [Frames.goodPlank] 4 ++ [[]])).
  - reflexivity.
  - vm_compute. reflexivity.
Defined.

End StabilityMore.

(** ** The overlays *)

Module OverlayFacts.
Import JS PoseDetection PoseDetection.POSE_LANDMARKS Analysis Derived.
Import PoseOverlay ClassifierFacts.
#[local] Open Scope Z_scope.

(** *** The skeleton *)

Lemma at_index_In (landmarks : Landmarks) (idx : nat) (l : NormalizedLandmark) :
  at_index landmarks idx = Some l -> In (Some l) landmarks.
Proof.
  unfold at_index. destruct (nth_error landmarks idx) as [entry |] eqn:Hnth;
    [| discriminate].
  intros ->. exact (nth_error_In _ _ Hnth).
Qed.

(** The skeleton touches seen landmarks only.  Every end of a segment and
    every centre of a dot that [drawPoseSkeleton] draws is a landmark of
    the array with a visibility above 0.5, scaled by the size of the
    canvas; this on every array, short ones and ones with [undefined]
    entries included. *)
Theorem skeleton_touches_seen_landmarks (landmarks : Landmarks)
  (canvasWidth canvasHeight : float) (color : string) :
  Forall (fun point =>
            exists l, In (Some l) landmarks
                      /\ (0.5 <? visibility l)%float = true
                      /\ point = onCanvas canvasWidth canvasHeight l)
    (flat_map touched
       (drawPoseSkeleton landmarks canvasWidth canvasHeight color)).
Proof.
  unfold drawPoseSkeleton.
  rewrite !flat_map_app. cbn [flat_map touched app].
  apply Forall_app. split.
  - rewrite Forall_forall. intros point Hin.
    apply in_flat_map in Hin as [call [Hcall Hpoint]].
    apply in_flat_map in Hcall as [[start finish] [_ Hcall]].
    unfold drawConnection in Hcall.
    destruct (at_index landmarks start) as [s |] eqn:Hs; [| contradiction].
    destruct (at_index landmarks finish) as [e |] eqn:He; [| contradiction].
    destruct (drawn (Some s) && drawn (Some e)) eqn:Hdrawn; [| contradiction].
    apply andb_prop in Hdrawn as [Hds Hde]. cbn [drawn] in Hds, Hde.
    apply andb_prop in Hds as [_ Hds]. apply andb_prop in Hde as [_ Hde].
    simpl in Hcall.
    destruct Hcall as [<- | [<- | [<- | [<- | []]]]]; simpl in Hpoint;
      try contradiction; destruct Hpoint as [<- | []].
    + exists s. eauto using at_index_In.
    + exists e. eauto using at_index_In.
  - rewrite Forall_forall. intros point Hin.
    apply in_flat_map in Hin as [call [Hcall Hpoint]].
    apply in_flat_map in Hcall as [entry [Hentry Hcall]].
    unfold drawLandmark in Hcall.
    destruct entry as [l |]; [| contradiction].
    destruct (drawn (Some l)) eqn:Hdrawn; [| contradiction].
    cbn [drawn] in Hdrawn. apply andb_prop in Hdrawn as [_ Hdl].
    simpl in Hcall.
    destruct Hcall as [<- | [<- | [<- | []]]]; simpl in Hpoint;
      try contradiction; destruct Hpoint as [<- | []].
    exists l. auto.
Qed.

(** A frame without a landmark above visibility 0.5 gets no skeleton: the
    three style settings are all [drawPoseSkeleton] does, although such a
    frame may pass the visibility gate, whose threshold is 0.3. *)
Theorem skeleton_of_unseen_frame (landmarks : Landmarks)
  (canvasWidth canvasHeight : float) (color : string) :
  Forall (fun entry => drawn entry = false) landmarks ->
  drawPoseSkeleton landmarks canvasWidth canvasHeight color
  = [SetStrokeStyle color; SetLineWidth 3; SetFillStyle color].
Proof.
  intro Hunseen. unfold drawPoseSkeleton.
  assert (Hat : forall idx, drawn (at_index landmarks idx) = false).
  { intro idx. destruct (at_index landmarks idx) as [l |] eqn:Hl;
      [| reflexivity].
    rewrite Forall_forall in Hunseen.
    exact (Hunseen _ (at_index_In _ _ _ Hl)). }
  assert (Hsegments :
    flat_map (drawConnection landmarks canvasWidth canvasHeight) connections
    = []).
  { induction connections as [| [start finish] rest IH]; [reflexivity |].
    cbn [flat_map]. rewrite IH. unfold drawConnection.
    rewrite (Hat start).
    destruct (at_index landmarks start), (at_index landmarks finish);
      reflexivity. }
  assert (Hdots : flat_map (drawLandmark canvasWidth canvasHeight) landmarks
                  = []).
  { clear Hat Hsegments.
    induction Hunseen as [| entry rest Hentry _ IH]; [reflexivity |].
    cbn [flat_map]. rewrite IH. unfold drawLandmark.
    destruct entry as [l |]; [rewrite Hentry |]; reflexivity. }
  rewrite Hsegments, Hdots. reflexivity.
Qed.

Lemma skeleton_of_unseen_frame_witness :
  drawPoseSkeleton goodPlankFaint 1280 720 defaultColor
  = [SetStrokeStyle defaultColor; SetLineWidth 3; SetFillStyle defaultColor].
Proof.
  apply (skeleton_of_unseen_frame goodPlankFaint 1280 720 defaultColor).
  repeat constructor.
Defined.

(** The faint frame passes the gate and is classified a perfect plank. *)
Example goodPlankFaint_result :
  detectPlankPosition goodPlankFaint
  = Returned (mkResult true 100 ["Perfect plank form! 💪"%string]
                (Some goodPlankFaint)).
Proof. vm_compute. reflexivity. Qed.

(** *** The feedback panel and the meter *)

Lemma sumZ_fives (ds : list Z) :
  Forall (fun p => In p [10; 15; 20; 25; 30]) ds ->
  exists q, sumZ ds = 5 * q.
Proof.
  induction 1 as [| p ds Hp _ [q IH]].
  - exists 0. reflexivity.
  - cbn [sumZ fold_right] in *. unfold sumZ in *. cbn [fold_right].
    simpl in Hp.
    destruct Hp as [<- | [<- | [<- | [<- | [<- | []]]]]];
      [exists (q + 2) | exists (q + 3) | exists (q + 4) | exists (q + 5)
       | exists (q + 6)]; lia.
Qed.

Lemma In_confidenceValues (c : Z) :
  0 <= c <= 100 -> (exists q, c = 5 * q) -> In c confidenceValues.
Proof.
  intros Hrange [q ->]. unfold confidenceValues.
  apply in_map_iff. exists (Z.to_nat q). split; [lia |].
  apply in_seq. lia.
Qed.

(** The confidence of a result is a multiple of 5 between 0 and 100. *)
Lemma returned_confidence (landmarks : Landmarks) (r : PlankDetectionResult) :
  detectPlankPosition landmarks = Returned r ->
  In (confidence r) confidenceValues.
Proof.
  intro Hr.
  destruct (detectPlankPosition_outcome landmarks) as [_ | k _ _ _ | _ _];
    [| | discriminate]; injection Hr as <-.
  - cbn [confidence]. apply In_confidenceValues; [lia | exists 0; lia].
  - destruct (scoreFrame_facts k) as [added Hfacts].
    pose proof (run_points _ _ _ _ _ Hfacts) as Hpoints.
    pose proof (run_penalties _ _ _ _ _ Hfacts) as Hpen.
    destruct (sumZ_fives _ Hpen) as [q Hq].
    assert (Hnonneg : 0 <= sumZ (deductions (formChecks k) initialScore)).
    { clear - Hpen. induction Hpen as [| p ds Hp _ IH]; [cbn; lia |].
      unfold sumZ in *. cbn [fold_right]. simpl in Hp. lia. }
    change (runChecks (formChecks k) initialScore) with (scoreFrame k)
      in Hpoints || rewrite <- scoreFrame_runChecks in Hpoints.
    cbn [initialScore points] in Hpoints.
    unfold verdict. cbn [confidence].
    apply In_confidenceValues; [lia |].
    destruct (Z.max_spec 0 (points (scoreFrame k))) as [[_ ->] | [_ ->]].
    + exists (20 - q). lia.
    + exists 0. lia.
Qed.

(** The meter never leaves its track.  Whatever the frame, the width of
    the bar that [drawDetectionFeedback] fills for the classifier's result
    lies between 0 and the 200 pixels of the meter, the division and the
    multiplication being those of doubles. *)
Theorem meter_within_track (landmarks : Landmarks) :
  match detectPlankPosition landmarks with
  | Returned r =>
      (0 <=? fillWidth r)%float = true
      /\ (fillWidth r <=? meterWidth)%float = true
  | Threw _ => slotsPresent landmarks = false
  end.
Proof.
  destruct (detectPlankPosition landmarks) as [r |] eqn:Hr.
  - pose proof (returned_confidence _ _ Hr) as Hc.
    unfold fillWidth. revert Hc. generalize (confidence r). intros c Hc.
    assert (Hall : forallb (fun c =>
                      (0 <=? number c / 100 * meterWidth)%float
                      && (number c / 100 * meterWidth <=? meterWidth)%float)
                     confidenceValues = true)
      by (vm_compute; reflexivity).
    rewrite forallb_forall in Hall. specialize (Hall c Hc).
    apply andb_prop in Hall. exact Hall.
  - destruct (detectPlankPosition_outcome landmarks) as [_ | k _ _ _ | _ Hp];
      [discriminate | discriminate | exact Hp].
Qed.

(** At a confidence of 55 the width of the bar is not the 110 pixels one
    would compute by hand. *)
Example fillWidth_at_55 :
  fillWidth (mkResult true 55 [] None) = 0x1.b800000000001p+6%float.
Proof. vm_compute. reflexivity. Qed.

(** The colour of the meter and the verdict.  A green meter always goes
    with a detected plank; a detected plank is shown with a red meter at a
    confidence of exactly 55 and at no other. *)
Theorem meter_colour_and_verdict (landmarks : Landmarks)
  (r : PlankDetectionResult) :
  detectPlankPosition landmarks = Returned r ->
  (meterColor r = "#00FF00"%string -> isPlank r = true)
  /\ (isPlank r = true -> meterColor r = "#FF0000"%string ->
      confidence r = 55).
Proof.
  intro Hr. pose proof (returned_confidence _ _ Hr) as Hc.
  assert (Hverdict : isPlank r = (55 <=? confidence r)).
  { destruct (detectPlankPosition_outcome landmarks) as [_ | k _ _ _ | _ _];
      [| | discriminate]; injection Hr as <-; [reflexivity |].
    pose proof (ClassifierMore.scoreFrame_message_cost k) as Hcost.
    unfold verdict, PASS_THRESHOLD, MAX_VIOLATIONS. cbn [isPlank confidence].
    destruct (55 <=? points (scoreFrame k)) eqn:Hpass.
    - apply Z.leb_le in Hpass.
      replace (55 <=? Z.max 0 (points (scoreFrame k))) with true
        by (symmetry; apply Z.leb_le; lia).
      cbn [andb]. apply Nat.leb_le. lia.
    - apply Z.leb_gt in Hpass. cbn [andb].
      symmetry. apply Z.leb_gt. lia. }
  rewrite Hverdict. unfold meterColor.
  revert Hc. generalize (confidence r). intros c Hc.
  unfold confidenceValues in Hc. simpl in Hc.
  repeat (destruct Hc as [<- | Hc]; [split; intros; try reflexivity;
                                      try discriminate |]);
    contradiction.
Qed.

Lemma meter_colour_and_verdict_witness :
  (meterColor (mkResult true 100 ["Perfect plank form! 💪"%string]
                 (Some Frames.goodPlank)) = "#00FF00"%string ->
   true = true)
  /\ (true = true ->
      meterColor (mkResult true 100 ["Perfect plank form! 💪"%string]
                    (Some Frames.goodPlank)) = "#FF0000"%string ->
      100 = 55).
Proof.
  apply (meter_colour_and_verdict Frames.goodPlank
           (mkResult true 100 ["Perfect plank form! 💪"%string]
              (Some Frames.goodPlank))).
  vm_compute. reflexivity.
Defined.

Section Panel.
Variable numberToString : float -> string.

Lemma textsIn_later_lines (style : string) (isPlank : bool)
  (lineHeight : float) (texts : list string) :
  forall (index : Z) (current next : string) (tail : list CanvasCall),
    0 < index ->
    textsIn style current
      (drawFeedbackLines isPlank lineHeight index texts
         ++ SetFillStyle next :: tail)
    = (if String.eqb "#FFFF00" style then texts else [])
        ++ textsIn style next tail.
Proof.
  induction texts as [| text rest IH]; intros index current next tail Hindex.
  - cbn [drawFeedbackLines app textsIn].
    destruct (String.eqb "#FFFF00" style); reflexivity.
  - cbn [drawFeedbackLines].
    replace (index =? 0) with false by (symmetry; apply Z.eqb_neq; lia).
    rewrite andb_false_r. cbn [app textsIn].
    rewrite (IH (index + 1) "#FFFF00"%string next tail) by lia.
    destruct (String.eqb "#FFFF00" style); reflexivity.
Qed.

Lemma textsIn_panel (style : string) (result : PlankDetectionResult)
  (canvasWidth canvasHeight : float) (current : string) :
  style = "#00FF00"%string \/ style = "#FFFF00"%string ->
  textsIn style current
    (drawDetectionFeedback numberToString result canvasWidth canvasHeight)
  = match feedback result with
    | [] => []
    | first :: rest =>
        (if String.eqb (if isPlank result then "#00FF00" else "#FFFF00")
              style
         then [first] else [])
          ++ (if String.eqb "#FFFF00" style then rest else [])
    end.
Proof.
  intro Hstyle. unfold drawDetectionFeedback. cbn zeta.
  cbn [app textsIn].
  destruct (feedback result) as [| first rest].
  - cbn [drawFeedbackLines app textsIn].
    destruct Hstyle as [-> | ->]; reflexivity.
  - cbn [drawFeedbackLines]. rewrite Z.eqb_refl, andb_true_r.
    cbn [app textsIn].
    rewrite textsIn_later_lines by lia.
    cbn [textsIn].
    destruct Hstyle as [-> | ->]; destruct (isPlank result);
      cbn; rewrite ?app_nil_r; reflexivity.
Qed.

(** What the panel shows in green is an affirmation.  For the result of
    the classifier on any frame, [drawDetectionFeedback] draws every line
    of the feedback, in green or in yellow; a detected plank has one green
    line, which is one of the three affirmations, any other result has
    none; every other line, so every correction, is yellow.  The texts of
    the meter are in neither colour. *)
Theorem green_line_is_affirmation (landmarks : Landmarks)
  (canvasWidth canvasHeight : float) (current : string) :
  match detectPlankPosition landmarks with
  | Returned r =>
      let calls :=
        drawDetectionFeedback numberToString r canvasWidth canvasHeight in
      let green := textsIn "#00FF00" current calls in
      let yellow := textsIn "#FFFF00" current calls in
      feedback r = green ++ yellow
      /\ Forall (fun text => In text affirmationTexts) green
      /\ List.length green = (if isPlank r then 1 else 0)%nat
  | Threw _ => slotsPresent landmarks = false
  end.
Proof.
  destruct (detectPlankPosition_outcome landmarks) as [_ | k _ _ _ | _ Hp];
    [| | exact Hp]; cbn zeta; rewrite !textsIn_panel by auto.
  - cbn. repeat split; constructor.
  - pose proof (verdict_feedback landmarks (scoreFrame k)) as Hfeedback.
    cbn zeta in Hfeedback.
    destruct (isPlank (verdict landmarks (scoreFrame k))).
    + destruct Hfeedback as [a [Ha ->]]. cbn.
      repeat split; [constructor; [exact Ha | constructor]].
    + rewrite Hfeedback.
      destruct (messages (scoreFrame k)) as [| first rest]; cbn;
        repeat split; constructor.
Qed.

End Panel.

End OverlayFacts.

(** ** The recorder *)

Module RecorderFacts.
Import VideoRecorderUtil Derived.

Section Recorder.
Variable Blob : Type.
Variable size : Blob -> Z.
Variable MediaStream : Type.
Variable isTypeSupported : string -> bool.


(** The choice of the MIME type.  [getSupportedMimeType] returns one of
    its four candidates, every candidate before it in the list being
    unsupported; what it returns is supported exactly when some candidate
    is, so the fallback is returned unsupported when nothing is. *)
Theorem getSupportedMimeType_choice :
  (exists before after,
      types = before ++ getSupportedMimeType isTypeSupported :: after
      /\ forallb (fun type => negb (isTypeSupported type)) before = true)
  /\ isTypeSupported (getSupportedMimeType isTypeSupported)
     = existsb isTypeSupported types.
Proof.
  unfold getSupportedMimeType, types. cbn [firstSupported existsb].
  destruct (isTypeSupported "video/webm;codecs=vp9") eqn:Hvp9.
  { split; [exists [], (tl types); split; reflexivity | exact Hvp9]. }
  destruct (isTypeSupported "video/webm;codecs=vp8") eqn:Hvp8.
  { split; [| exact Hvp8].
    exists ["video/webm;codecs=vp9"%string], (tl (tl types)).
    split; [reflexivity |]. cbn. rewrite Hvp9. reflexivity. }
  assert (Hbefore :
    forallb (fun type => negb (isTypeSupported type))
      ["video/webm;codecs=vp9"; "video/webm;codecs=vp8"]%string = true)
    by (cbn; rewrite Hvp9, Hvp8; reflexivity).
  destruct (isTypeSupported "video/webm") eqn:Hwebm.
  { split; [| exact Hwebm].
    exists ["video/webm;codecs=vp9"; "video/webm;codecs=vp8"]%string,
      ["video/mp4"%string].
    split; [reflexivity | exact Hbefore]. }
  destruct (isTypeSupported "video/mp4") eqn:Hmp4.
  { split; [| exact Hmp4].
    exists ["video/webm;codecs=vp9"; "video/webm;codecs=vp8";
            "video/webm"]%string, [].
    split; [reflexivity |]. cbn. rewrite Hvp9, Hvp8, Hwebm. reflexivity. }
  split; [| exact Hwebm].
  exists ["video/webm;codecs=vp9"; "video/webm;codecs=vp8"]%string,
    ["video/mp4"%string].
  split; [reflexivity | exact Hbefore].
Qed.

Lemma step_options (this : VideoRecorder Blob MediaStream)
  (event : Event Blob MediaStream) :
  options (step size this event) = options this.
Proof.
  destruct event as [[| |] canvasStream | [blob |] | browserThrows];
    cbn; try reflexivity.
  destruct (0 <? size blob); reflexivity.
Qed.

Lemma run_options (events : list (Event Blob MediaStream))
  (this : VideoRecorder Blob MediaStream) :
  options (run size events this) = options this.
Proof.
  revert this. induction events as [| event rest IH]; intro this;
    [reflexivity |].
  unfold run in *. cbn [fold_left]. rewrite IH. apply step_options.
Qed.

Lemma run_chunks (events : list (Event Blob MediaStream))
  (this : VideoRecorder Blob MediaStream) :
  forallb (fun event => negb (isStart event)) events = true ->
  recordedChunks (run size events this)
  = recordedChunks this ++ delivered size events.
Proof.
  revert this. induction events as [| event rest IH]; intros this Hevents.
  - cbn. rewrite app_nil_r. reflexivity.
  - cbn [forallb] in Hevents. apply andb_prop in Hevents as [Hevent Hrest].
    unfold run in *. cbn [fold_left]. rewrite (IH _ Hrest).
    unfold delivered. cbn [flat_map].
    destruct event as [browser canvasStream | [blob |] | browserThrows];
      [discriminate | | |]; cbn [step ondataavailable];
      rewrite ?app_nil_l; try reflexivity.
    destruct (0 <? size blob); cbn [recordedChunks];
      rewrite <- ?app_assoc; reflexivity.
Qed.

(** The blob holds the current recording, and nothing else.  Whatever
    happened to the recorder before, once [start] has been called, however
    the call went in the browser, the blob that the [stop] handler makes
    consists of the non-empty data delivered since that call, in the order
    of delivery; it is given the MIME type that the recorder was
    constructed with. *)
Theorem blob_holds_current_recording (given : RecorderOptions)
  (earlier later : list (Event Blob MediaStream)) (browser : BrowserStart)
  (canvasStream : MediaStream) :
  forallb (fun event => negb (isStart event)) later = true ->
  onstop
    (run size (earlier ++ CallStart browser canvasStream :: later)
       (new_VideoRecorder Blob MediaStream isTypeSupported given))
  = mkBlobArguments (delivered size later)
      (read (spreadOver (getSupportedMimeType isTypeSupported)
               (mimeType given))).
Proof.
  intro Hlater. unfold onstop, run. rewrite fold_left_app.
  cbn [fold_left]. fold (run size earlier
    (new_VideoRecorder Blob MediaStream isTypeSupported given)).
  set (this := run size earlier _).
  fold (run size later (step size this (CallStart browser canvasStream))).
  rewrite run_options, step_options. unfold this. rewrite run_options.
  rewrite (run_chunks later _ Hlater).
  f_equal. destruct browser; reflexivity.
Qed.

Lemma run_mediaRecorder (events : list (Event Blob MediaStream))
  (this : VideoRecorder Blob MediaStream) :
  mediaRecorder (run size events this)
  = mediaRecorder this || existsb constructs events.
Proof.
  revert this. induction events as [| event rest IH]; intro this.
  - cbn. rewrite orb_false_r. reflexivity.
  - unfold run in *. cbn [fold_left existsb]. rewrite IH.
    destruct event as [[| |] canvasStream | [blob |] | browserThrows];
      cbn [step start fst ondataavailable constructs mediaRecorder];
      rewrite ?orb_false_l, ?orb_true_l, ?orb_true_r; try reflexivity.
    destruct (0 <? size blob); reflexivity.
Qed.

(** When [stop] finds no recording.  After any history of a recorder,
    [stop] rejects with [No active recording] exactly when no call of
    [start] has got a [MediaRecorder] made; the field is never cleared, so
    after a finished recording [stop] does not reject that way. *)
Theorem stop_no_active_recording (given : RecorderOptions)
  (events : list (Event Blob MediaStream)) (browserThrows : bool) :
  stop browserThrows
    (run size events
       (new_VideoRecorder Blob MediaStream isTypeSupported given))
  = Rejected (NewError "No active recording")
  <-> existsb constructs events = false.
Proof.
  unfold stop. rewrite run_mediaRecorder.
  cbn [new_VideoRecorder mediaRecorder orb].
  destruct (existsb constructs events); cbn [negb].
  - destruct browserThrows; split; discriminate.
  - split; reflexivity.
Qed.

End Recorder.

Lemma blob_holds_current_recording_witness :
  onstop
    (run (fun blob : list nat => Z.of_nat (List.length blob))
       ([CallStart StartOk tt; DataAvailable (Some [1; 2]%nat);
         CallStop false]
          ++ CallStart StartOk tt
             :: [DataAvailable (Some [3]%nat); DataAvailable (Some []);
                 DataAvailable None; CallStop false;
                 DataAvailable (Some [4; 5]%nat)])
       (new_VideoRecorder (list nat) unit vp8Only noOptions))
  = mkBlobArguments [[3]; [4; 5]]%nat (Some "video/webm;codecs=vp8"%string).
Proof.
  apply (blob_holds_current_recording (list nat)
           (fun blob => Z.of_nat (List.length blob)) unit vp8Only noOptions
           [CallStart StartOk tt; DataAvailable (Some [1; 2]%nat);
            CallStop false]
           [DataAvailable (Some [3]%nat); DataAvailable (Some []);
            DataAvailable None; CallStop false;
            DataAvailable (Some [4; 5]%nat)]
           StartOk tt).
  reflexivity.
Defined.

End RecorderFacts.

(** ** The arm check and the elbow angle *)

Module ArmCheckFacts.
Import JS PoseDetection Analysis Derived AngleNotions.


Section ElbowAngles.
Variable Math_atan2 : float -> float -> float.

(** The two elbow angles of [elbowsAt135] as [calculatePoseAngles]
    computes them, with the values of [Math.atan2] on the axes and the
    doubles nearest to the arctangents at the two forearms: just below 135
    on the left and 135 on the right, outside both bands. *)
Remark elbowsAt135_angles :
  atan2OnAxes Math_atan2 ->
  Math_atan2 (0.6 - 0.55) (0.45 - 0.4) = 0x1.921fb54442d13p-1%float ->
  Math_atan2 (0.6 - 0.55) (0.55 - 0.6) = 0x1.2d97c7f3321d2p+1%float ->
  exists angles,
    calculatePoseAngles Math_atan2 elbowsAt135 = Returned angles
    /\ leftElbow angles = 0x1.0dfffffffffffp+7%float
    /\ rightElbow angles = 135%float
    /\ inBand (leftElbow angles) = false
    /\ inBand (rightElbow angles) = false.
Proof.
  intros [_ [_ [_ Hdown]]] Hleft Hright.
  eexists. split.
  - cbv -[calculateAngle PrimFloat.add PrimFloat.div]. reflexivity.
  - cbn [leftElbow rightElbow]. unfold calculateAngle. cbn [x y].
    rewrite Hleft, Hright.
    replace (0.4 - 0.4)%float with 0%float by reflexivity.
    replace (0.6 - 0.6)%float with 0%float by reflexivity.
    rewrite (Hdown (0.5 - 0.55)%float) by reflexivity.
    vm_compute. repeat split; reflexivity.
Qed.

End ElbowAngles.

(** The frame of the unit test [should detect when elbow position is
    incorrect], which expects a confidence below 100 and a message about
    the arms: this classifier returns a perfect plank. *)
Example elbowTestFrame_result :
  detectPlankPosition elbowTestFrame
  = Returned (mkResult true 100 ["Perfect plank form! 💪"%string]
                (Some elbowTestFrame)).
Proof. vm_compute. reflexivity. Qed.

End ArmCheckFacts.

(** ** Rounding in binary64

    What the range of [calculateAngle] needs of the arithmetic of doubles:
    an operation whose exact result does not exceed a normal number returns
    at most that number, and a difference has the sign of the order of its
    operands.  Proved on [SpecFloat], from its definition of rounding. *)

Module Rounding.
Import Binary64.
#[local] Open Scope Z_scope.


(** *** Digits *)

Lemma digits2_pos_bounds (p : positive) :
  2 ^ (Z.pos (digits2_pos p) - 1) <= Z.pos p < 2 ^ Z.pos (digits2_pos p).
Proof.
  induction p as [p IH | p IH |]; cbn [digits2_pos].
  - rewrite Pos2Z.inj_succ.
    replace (Z.succ (Z.pos (digits2_pos p)) - 1) with
      (Z.succ (Z.pos (digits2_pos p) - 1)) by lia.
    rewrite !Z.pow_succ_r by lia. lia.
  - rewrite Pos2Z.inj_succ.
    replace (Z.succ (Z.pos (digits2_pos p)) - 1) with
      (Z.succ (Z.pos (digits2_pos p) - 1)) by lia.
    rewrite !Z.pow_succ_r by lia. lia.
  - cbn. lia.
Qed.

Lemma Zdigits2_bounds (m : Z) :
  0 < m -> 2 ^ (Zdigits2 m - 1) <= m < 2 ^ Zdigits2 m.
Proof.
  destruct m as [| p | p]; try lia. intros _. apply digits2_pos_bounds.
Qed.

Lemma Zdigits2_nonneg (m : Z) : 0 <= Zdigits2 m.
Proof. destruct m; cbn; lia. Qed.

Lemma Zdigits2_le (m k : Z) : 0 <= m -> 0 <= k -> m < 2 ^ k -> Zdigits2 m <= k.
Proof.
  intros Hm Hk Hlt. destruct (Z.eq_dec m 0) as [-> | Hne]; [cbn; lia |].
  destruct (Zdigits2_bounds m ltac:(lia)) as [Hlo _].
  destruct (Z_lt_le_dec k (Zdigits2 m)) as [Hgt |]; [| assumption].
  assert (2 ^ k <= 2 ^ (Zdigits2 m - 1)) by (apply Z.pow_le_mono_r; lia).
  lia.
Qed.

Lemma Zdigits2_ge (m k : Z) : 0 <= k -> 2 ^ k <= m -> k < Zdigits2 m.
Proof.
  intros Hk Hle.
  assert (0 < m) by (pose proof (Z.pow_pos_nonneg 2 k); lia).
  destruct (Zdigits2_bounds m ltac:(lia)) as [_ Hhi].
  destruct (Z_lt_le_dec k (Zdigits2 m)) as [| Hge]; [assumption |].
  assert (2 ^ Zdigits2 m <= 2 ^ k)
    by (apply Z.pow_le_mono_r; [lia | assumption]).
  lia.
Qed.

(** *** Shifting right *)

Lemma shr_1_spec (mrs : shr_record) :
  0 <= shr_m mrs ->
  shr_m (shr_1 mrs) = shr_m mrs / 2
  /\ (noBitsLost mrs -> shr_m mrs mod 2 = 0 -> noBitsLost (shr_1 mrs)).
Proof.
  destruct mrs as [m r s]. unfold noBitsLost. cbn [shr_m shr_r shr_s].
  intro Hm. destruct m as [| [p | p |] | p]; try lia;
    cbn [shr_1 shr_m shr_r shr_s].
  - split; [reflexivity |]. intros [-> ->] _. auto.
  - split.
    + rewrite Pos2Z.inj_xI. apply Z.div_unique with (r := 1); lia.
    + intros _ H. rewrite Pos2Z.inj_xI in H.
      rewrite Z.add_comm, Z.mul_comm, Z.mod_add in H by lia. discriminate H.
  - split.
    + rewrite Pos2Z.inj_xO. apply Z.div_unique with (r := 0); lia.
    + intros [-> ->] _. auto.
  - split; [reflexivity |]. intros _ H. discriminate H.
Qed.

Lemma iter_shr_1_spec (p : positive) :
  forall mrs,
    0 <= shr_m mrs ->
    shr_m (SpecFloat.iter_pos shr_1 p mrs) = shr_m mrs / 2 ^ Z.pos p
    /\ (noBitsLost mrs -> shr_m mrs mod 2 ^ Z.pos p = 0 ->
        noBitsLost (SpecFloat.iter_pos shr_1 p mrs)).
Proof.
  induction p as [p IH | p IH |]; intros mrs Hm; cbn [SpecFloat.iter_pos].
  - destruct (shr_1_spec mrs Hm) as [H1 E1].
    assert (H1' : 0 <= shr_m (shr_1 mrs)) by (rewrite H1; apply Z.div_pos; lia).
    destruct (IH _ H1') as [H2 E2].
    assert (H2' : 0 <= shr_m (SpecFloat.iter_pos shr_1 p (shr_1 mrs)))
      by (rewrite H2; apply Z.div_pos; [lia | apply Z.pow_pos_nonneg; lia]).
    destruct (IH _ H2') as [H3 E3].
    assert (Hpow : 2 ^ Z.pos p~1 = 2 * (2 ^ Z.pos p * 2 ^ Z.pos p)).
    { rewrite <- Z.pow_add_r, <- Z.pow_succ_r by lia. f_equal. lia. }
    assert (Hp : 0 < 2 ^ Z.pos p) by (apply Z.pow_pos_nonneg; lia).
    split.
    + rewrite H3, H2, H1, Hpow.
      rewrite !Z.div_div by lia. reflexivity.
    + intros Hex Hmod. rewrite Hpow in Hmod.
      apply Z.mod_divide in Hmod; [| lia]. destruct Hmod as [k Hk].
      apply E3.
      * apply E2.
        -- apply E1; [exact Hex |]. rewrite Hk.
           replace (k * (2 * (2 ^ Z.pos p * 2 ^ Z.pos p)))
             with ((k * (2 ^ Z.pos p * 2 ^ Z.pos p)) * 2) by ring.
           apply Z.mod_mul; lia.
        -- rewrite H1, Hk.
           replace (k * (2 * (2 ^ Z.pos p * 2 ^ Z.pos p)))
             with ((k * 2 ^ Z.pos p * 2 ^ Z.pos p) * 2) by ring.
           rewrite Z.div_mul by lia. apply Z.mod_mul; lia.
      * rewrite H2, H1, Hk.
        replace (k * (2 * (2 ^ Z.pos p * 2 ^ Z.pos p)))
          with ((k * 2 ^ Z.pos p * 2 ^ Z.pos p) * 2) by ring.
        rewrite Z.div_mul by lia. rewrite Z.div_mul by lia.
        apply Z.mod_mul; lia.
  - destruct (IH _ Hm) as [H2 E2].
    assert (Hp : 0 < 2 ^ Z.pos p) by (apply Z.pow_pos_nonneg; lia).
    assert (H2' : 0 <= shr_m (SpecFloat.iter_pos shr_1 p mrs))
      by (rewrite H2; apply Z.div_pos; lia).
    destruct (IH _ H2') as [H3 E3].
    assert (Hpow : 2 ^ Z.pos p~0 = 2 ^ Z.pos p * 2 ^ Z.pos p).
    { rewrite <- Z.pow_add_r by lia. f_equal. lia. }
    split.
    + rewrite H3, H2, Hpow. rewrite Z.div_div by lia. reflexivity.
    + intros Hex Hmod. rewrite Hpow in Hmod.
      apply Z.mod_divide in Hmod; [| lia]. destruct Hmod as [k Hk].
      apply E3.
      * apply E2; [exact Hex |]. rewrite Hk.
        replace (k * (2 ^ Z.pos p * 2 ^ Z.pos p))
          with ((k * 2 ^ Z.pos p) * 2 ^ Z.pos p) by ring.
        apply Z.mod_mul; lia.
      * rewrite H2, Hk.
        replace (k * (2 ^ Z.pos p * 2 ^ Z.pos p))
          with ((k * 2 ^ Z.pos p) * 2 ^ Z.pos p) by ring.
        rewrite Z.div_mul by lia. apply Z.mod_mul; lia.
  - change (2 ^ 1) with 2. apply shr_1_spec, Hm.
Qed.

Lemma shr_spec (m : Z) (l : location) (e n : Z) :
  0 <= m ->
  e + Z.max 0 n = snd (shr (shr_record_of_loc m l) e n)
  /\ shr_m (fst (shr (shr_record_of_loc m l) e n)) = m / 2 ^ Z.max 0 n
  /\ (l = loc_Exact -> m mod 2 ^ Z.max 0 n = 0 ->
      loc_of_shr_record (fst (shr (shr_record_of_loc m l) e n)) = loc_Exact).
Proof.
  intro Hm.
  assert (Hrec : shr_m (shr_record_of_loc m l) = m)
    by (destruct l as [| []]; reflexivity).
  destruct n as [| p | p]; cbn [shr fst snd Z.max].
  - rewrite Z.add_0_r, Hrec. change (2 ^ Z.max 0 0) with 1.
    rewrite Z.div_1_r. repeat split. intros -> _. reflexivity.
  - replace (Z.max 0 (Z.pos p)) with (Z.pos p) by lia.
    destruct (iter_shr_1_spec p (shr_record_of_loc m l)) as [Hq Hex];
      [rewrite Hrec; exact Hm |].
    rewrite Hrec in Hq, Hex. repeat split; [exact Hq |].
    intros -> Hmod.
    destruct (Hex (conj eq_refl eq_refl) Hmod) as [Hr Hs].
    destruct (SpecFloat.iter_pos shr_1 p _) as [m' r' s'].
    cbn in Hr, Hs. subst. reflexivity.
  - replace (Z.max 0 (Z.neg p)) with 0 by lia.
    rewrite Z.add_0_r, Hrec. change (2 ^ 0) with 1.
    rewrite Z.div_1_r. repeat split. intros -> _. reflexivity.
Qed.

Lemma round_nearest_even_bounds (m : Z) (l : location) :
  m <= round_nearest_even m l <= m + 1.
Proof.
  destruct l as [| []]; cbn; try lia. destruct (Z.even m); lia.
Qed.

Lemma fexp_spec (e : Z) : fexp prec emax e = Z.max (e - 53) (-1074).
Proof. reflexivity. Qed.

(** Rounding stays below a normal number that the value rounded does not
    exceed. *)
Lemma binary_round_aux_upper (sx : bool) (mx ex : Z) (lx : location)
  (mb : positive) (eb : Z) :
  0 <= mx -> normal mb -> -1074 <= eb <= 971 ->
  ex <= fexp prec emax (Zdigits2 mx + ex) ->
  fexp prec emax (Zdigits2 mx + ex) <= eb ->
  (fexp prec emax (Zdigits2 mx + ex) = eb ->
   (lx = loc_Exact /\ mx <= Z.pos mb * 2 ^ (eb - ex))
   \/ mx < Z.pos mb * 2 ^ (eb - ex)) ->
  bounded_by sx (binary_round_aux prec emax sx mx ex lx) mb eb.
Proof.
  intros Hmx [Hblo Hbhi] Heb Hn Ht Hval.
  unfold binary_round_aux, shr_fexp.
  set (t := fexp prec emax (Zdigits2 mx + ex)) in *.
  destruct (shr_spec mx lx ex (t - ex) Hmx) as [He' [Hq Hexact]].
  destruct (shr (shr_record_of_loc mx lx) ex (t - ex)) as [mrs' e'].
  cbn [fst snd] in He', Hq, Hexact.
  replace (Z.max 0 (t - ex)) with (t - ex) in * by lia.
  assert (Het : e' = t) by lia. clear He'. subst e'.
  set (n := t - ex) in *.
  assert (Hpn : 0 < 2 ^ n) by (apply Z.pow_pos_nonneg; lia).
  pose proof (round_nearest_even_bounds (shr_m mrs')
                (loc_of_shr_record mrs')) as Hm1.
  set (m1 := round_nearest_even (shr_m mrs') (loc_of_shr_record mrs')) in *.
  assert (Hq0 : 0 <= shr_m mrs') by (rewrite Hq; apply Z.div_pos; lia).
  assert (Htlo : -1074 <= t) by (unfold t; rewrite fexp_spec; lia).
  (* the mantissa after the first shift has at most 53 digits *)
  assert (Hq53 : shr_m mrs' < 2 ^ 53).
  { rewrite Hq. apply Z.div_lt_upper_bound; [lia |].
    destruct (Z.eq_dec mx 0) as [-> | Hne].
    - pose proof (Z.pow_pos_nonneg 2 53). lia.
    - destruct (Zdigits2_bounds mx ltac:(lia)) as [_ Hhi].
      rewrite <- Z.pow_add_r by lia.
      eapply Z.lt_le_trans; [exact Hhi |].
      apply Z.pow_le_mono_r; [lia |].
      unfold n, t. rewrite fexp_spec. lia. }
  (* the value hypothesis gives the mantissa when the exponents agree *)
  assert (Hsame : t = eb -> m1 <= Z.pos mb).
  { intro Heq. specialize (Hval Heq).
    replace (eb - ex) with n in Hval by (unfold n; lia).
    destruct Hval as [[-> Hle] | Hlt].
    - assert (Hqb : shr_m mrs' <= Z.pos mb).
      { rewrite Hq. apply Z.lt_succ_r. apply Z.div_lt_upper_bound; lia. }
      destruct (Z.eq_dec (shr_m mrs') (Z.pos mb)) as [Heqb | Hneb]; [| lia].
      assert (Hmod : mx mod 2 ^ n = 0).
      { pose proof (Z.div_mod mx (2 ^ n) ltac:(lia)) as Hdm.
        pose proof (Z.mod_pos_bound mx (2 ^ n) Hpn) as Hmb.
        rewrite <- Hq, Heqb in Hdm. lia. }
      unfold m1. rewrite (Hexact eq_refl Hmod). cbn. lia.
    - assert (shr_m mrs' < Z.pos mb)
        by (rewrite Hq; apply Z.div_lt_upper_bound; lia).
      lia. }
  (* the second shift *)
  assert (Hm10 : 0 <= m1) by lia.
  destruct (shr_spec m1 loc_Exact t
              (fexp prec emax (Zdigits2 m1 + t) - t) Hm10) as [He'' [Hq' _]].
  destruct (shr (shr_record_of_loc m1 loc_Exact) t
              (fexp prec emax (Zdigits2 m1 + t) - t)) as [mrs'' e''].
  cbn [fst snd] in He'', Hq'.
  destruct (Z.eq_dec m1 (2 ^ 53)) as [Hfull | Hnotfull].
  - (* the rounding carried into a 54th digit *)
    assert (Hd : Zdigits2 m1 = 54) by (rewrite Hfull; reflexivity).
    rewrite Hd, fexp_spec in He'', Hq'.
    replace (Z.max 0 (Z.max (54 + t - 53) (-1074) - t)) with 1 in * by lia.
    rewrite Hq', Hfull. change (2 ^ 53 / 2 ^ 1) with (Z.pos (2 ^ 52)%positive).
    assert (t < eb).
    { destruct (Z.eq_dec t eb) as [Heq |]; [| lia].
      specialize (Hsame Heq). lia. }
    replace (e'' <=? emax - prec) with true
      by (symmetry; apply Z.leb_le; unfold emax, prec; lia).
    right. exists (2 ^ 52)%positive, e''. split; [reflexivity |].
    change (Z.pos (2 ^ 52)) with (2 ^ 52). lia.
  - assert (Hd : Zdigits2 m1 <= 53) by (apply Zdigits2_le; lia).
    rewrite fexp_spec in He'', Hq'.
    replace (Z.max 0 (Z.max (Zdigits2 m1 + t - 53) (-1074) - t)) with 0 in *
      by lia.
    rewrite Hq'. change (2 ^ 0) with 1. rewrite Z.div_1_r.
    destruct m1 as [| p | p]; [left; reflexivity | | lia].
    replace (e'' <=? emax - prec) with true
      by (symmetry; apply Z.leb_le; unfold emax, prec; lia).
    right. exists p, e''. split; [reflexivity |].
    destruct (Z.eq_dec t eb) as [Heq |]; [| lia].
    specialize (Hsame Heq). lia.
Qed.

Lemma bounded_by_within (s : bool) (f : spec_float) (mb : positive) (eb : Z) :
  bounded_by s f mb eb -> within f mb eb.
Proof. intros [-> | [m [e [-> H]]]]; cbn; auto. Qed.

Lemma within_weaken (f : spec_float) (mb : positive) (eb eb' : Z) :
  within f mb eb -> eb < eb' -> within f mb eb'.
Proof. destruct f; cbn; auto. intros [H | [H _]] Hlt; left; lia. Qed.

(** *** Valid floats *)

Lemma valid_finite (s : bool) (m : positive) (e : Z) :
  valid_binary (S754_finite s m e) = true ->
  -1074 <= e <= 971 /\ Z.pos m < 2 ^ 53 /\ (-1074 < e -> normal m).
Proof.
  unfold SpecFloat.valid_binary, bounded, canonical_mantissa.
  rewrite andb_true_iff, Z.eqb_eq, Z.leb_le, fexp_spec.
  unfold emax, prec. intros [Hcan Hmax].
  pose proof (digits2_pos_bounds m) as [Hlo Hhi].
  assert (Hd : Z.pos (digits2_pos m) <= 53) by lia.
  assert (Hm : Z.pos m < 2 ^ 53).
  { eapply Z.lt_le_trans; [exact Hhi |]. apply Z.pow_le_mono_r; lia. }
  repeat split; try lia.
  assert (Z.pos (digits2_pos m) = 53) as Heq by lia.
  rewrite Heq in Hlo. exact Hlo.
Qed.

Lemma pow2_split (a b : Z) : 0 <= a -> 0 <= b -> 2 ^ (a + b) = 2 ^ a * 2 ^ b.
Proof. intros. apply Z.pow_add_r; assumption. Qed.

(** The magnitude of a float within a bound, both scaled to integers. *)
Lemma within_value (s : bool) (m : positive) (e : Z) (mb : positive) (eb : Z) :
  valid_binary (S754_finite s m e) = true -> normal mb ->
  within (S754_finite s m e) mb eb ->
  Z.pos m * 2 ^ (e + 1074) <= Z.pos mb * 2 ^ (eb + 1074).
Proof.
  intros Hv [Hblo Hbhi] Hw. destruct (valid_finite _ _ _ Hv) as [He [Hm _]].
  cbn in Hw. destruct Hw as [Hlt | [-> Hle]].
  - replace (eb + 1074) with ((eb - e - 1) + 1 + (e + 1074)) by lia.
    rewrite (pow2_split (eb - e - 1 + 1) (e + 1074)) by lia.
    rewrite (pow2_split (eb - e - 1) 1) by lia. change (2 ^ 1) with 2.
    assert (0 < 2 ^ (e + 1074)) by (apply Z.pow_pos_nonneg; lia).
    assert (0 < 2 ^ (eb - e - 1)) by (apply Z.pow_pos_nonneg; lia).
    change (2 ^ 53) with (2 * 2 ^ 52) in Hm.
    assert (Hm2 : Z.pos m <= 2 * Z.pos mb) by lia.
    apply Z.le_trans with (2 * Z.pos mb * 2 ^ (e + 1074)).
    + apply Z.mul_le_mono_nonneg_r; lia.
    + set (W := Z.pos mb * 2 ^ (e + 1074)).
      assert (0 < W) by (apply Z.mul_pos_pos; lia).
      replace (2 * Z.pos mb * 2 ^ (e + 1074)) with (W * 2) by (unfold W; ring).
      replace (Z.pos mb * (2 ^ (eb - e - 1) * 2 * 2 ^ (e + 1074)))
        with (W * 2 * 2 ^ (eb - e - 1)) by (unfold W; ring).
      nia.
  - apply Z.mul_le_mono_nonneg_r; [apply Z.pow_nonneg |]; lia.
Qed.

(** *** Aligning a mantissa *)

Lemma iter_xO (m d : positive) :
  Z.pos (Pos.iter xO m d) = Z.pos m * 2 ^ Z.pos d.
Proof.
  induction d as [| d IH] using Pos.peano_ind.
  - cbn. lia.
  - rewrite Pos.iter_succ, Pos2Z.inj_xO, IH, Pos2Z.inj_succ, Z.pow_succ_r
      by lia.
    ring.
Qed.

Lemma shl_align_spec (m : positive) (e t : Z) :
  snd (shl_align m e t) = Z.min e t
  /\ Z.pos (fst (shl_align m e t)) = Z.pos m * 2 ^ (e - Z.min e t).
Proof.
  unfold shl_align. destruct (t - e) as [| d | d] eqn:Hd; cbn [fst snd].
  - replace (Z.min e t) with e by lia. rewrite Z.sub_diag. cbn. lia.
  - replace (Z.min e t) with e by lia. rewrite Z.sub_diag. cbn. lia.
  - replace (Z.min e t) with t by lia.
    replace (e - t) with (Z.pos d) by lia. split; [reflexivity | apply iter_xO].
Qed.

Lemma Zdigits2_unique (m k : Z) :
  2 ^ (k - 1) <= m < 2 ^ k -> 0 < k -> Zdigits2 m = k.
Proof.
  intros [Hlo Hhi] Hk.
  assert (0 < m) by (pose proof (Z.pow_pos_nonneg 2 (k - 1)); lia).
  pose proof (Zdigits2_le m k ltac:(lia) ltac:(lia) Hhi).
  pose proof (Zdigits2_ge m (k - 1) ltac:(lia) Hlo). lia.
Qed.

Lemma Zdigits2_shift (m : positive) (d : Z) :
  0 <= d -> Zdigits2 (Z.pos m * 2 ^ d) = Z.pos (digits2_pos m) + d.
Proof.
  intro Hd. pose proof (digits2_pos_bounds m) as [Hlo Hhi].
  assert (0 < 2 ^ d) by (apply Z.pow_pos_nonneg; lia).
  apply Zdigits2_unique; [| lia].
  replace (Z.pos (digits2_pos m) + d - 1)
    with ((Z.pos (digits2_pos m) - 1) + d) by lia.
  rewrite (pow2_split (Z.pos (digits2_pos m) - 1) d) by lia.
  rewrite (pow2_split (Z.pos (digits2_pos m)) d) by lia. nia.
Qed.

(** Rounding an integer multiple of a power of two stays below a normal
    number that the multiple does not exceed. *)
Lemma binary_round_upper (s : bool) (m : positive) (e : Z)
  (mb : positive) (eb : Z) :
  normal mb -> -1074 <= eb <= 971 -> -1074 <= e ->
  Z.pos m * 2 ^ (e + 1074) <= Z.pos mb * 2 ^ (eb + 1074) ->
  bounded_by s (binary_round prec emax s m e) mb eb.
Proof.
  intros Hb Heb He Hval. pose proof Hb as [Hblo Hbhi].
  unfold binary_round.
  set (t := fexp prec emax (Z.pos (digits2_pos m) + e)).
  destruct (shl_align_spec m e t) as [Hez Hmz].
  destruct (shl_align m e t) as [mz ez]. cbn [fst snd] in Hez, Hmz.
  assert (Htlo : -1074 <= t) by (unfold t; rewrite fexp_spec; lia).
  assert (Hdz : Zdigits2 (Z.pos mz) + ez = Z.pos (digits2_pos m) + e).
  { rewrite Hmz, Zdigits2_shift by lia. lia. }
  pose proof (digits2_pos_bounds m) as [Hlo Hhi].
  assert (Hpe : 0 < 2 ^ (e + 1074)) by (apply Z.pow_pos_nonneg; lia).
  (* the target exponent is at most that of the bound *)
  assert (Ht : t <= eb).
  { unfold t. rewrite fexp_spec.
    destruct (Z_lt_le_dec (eb + 53) (Z.pos (digits2_pos m) + e)) as [Hgt |];
      [| lia].
    exfalso.
    assert (2 ^ (eb + 53 + 1074)
            <= 2 ^ (Z.pos (digits2_pos m) - 1 + (e + 1074)))
      by (apply Z.pow_le_mono_r; lia).
    rewrite (pow2_split (Z.pos (digits2_pos m) - 1) (e + 1074)) in H by lia.
    assert (Z.pos mb * 2 ^ (eb + 1074) < 2 ^ (eb + 53 + 1074)).
    { replace (eb + 53 + 1074) with (53 + (eb + 1074)) by lia.
      rewrite (pow2_split 53 (eb + 1074)) by lia.
      assert (0 < 2 ^ (eb + 1074)) by (apply Z.pow_pos_nonneg; lia). nia. }
    nia. }
  apply binary_round_aux_upper; rewrite ?Hdz; fold t; try lia; try assumption.
  intro Heq. left. split; [reflexivity |].
  rewrite Hmz.
  assert (Hzlo : -1074 <= ez) by lia.
  assert (Hpz : 0 < 2 ^ (ez + 1074)) by (apply Z.pow_pos_nonneg; lia).
  replace (e + 1074) with ((e - ez) + (ez + 1074)) in Hval by lia.
  replace (eb + 1074) with ((eb - ez) + (ez + 1074)) in Hval by lia.
  rewrite (pow2_split (e - ez) (ez + 1074)) in Hval by lia.
  rewrite (pow2_split (eb - ez) (ez + 1074)) in Hval by lia.
  rewrite <- Hez. nia.
Qed.

(** *** The operations *)

Lemma aligned_value (m : positive) (e ez : Z) :
  -1074 <= ez <= e ->
  Z.pos (fst (shl_align m e ez)) * 2 ^ (ez + 1074) = Z.pos m * 2 ^ (e + 1074).
Proof.
  intro H. destruct (shl_align_spec m e ez) as [_ ->].
  replace (Z.min e ez) with ez by lia.
  replace (e + 1074) with ((e - ez) + (ez + 1074)) by lia.
  rewrite (pow2_split (e - ez) (ez + 1074)) by lia. ring.
Qed.

Lemma double_bound (mb : positive) (eb : Z) :
  -1074 <= eb ->
  2 * (Z.pos mb * 2 ^ (eb + 1074)) = Z.pos mb * 2 ^ (eb + 1 + 1074).
Proof.
  intro H. replace (eb + 1 + 1074) with (Z.succ (eb + 1074)) by lia.
  rewrite Z.pow_succ_r by lia. ring.
Qed.

(** The difference of two floats within a bound is within twice the
    bound. *)
Lemma SFsub_within (u v : spec_float) (mb : positive) (eb : Z) :
  valid_binary u = true -> valid_binary v = true ->
  normal mb -> -1074 <= eb < 971 ->
  within u mb eb -> within v mb eb ->
  within (SF64sub u v) mb (eb + 1).
Proof.
  intros Hu Hv Hb Heb Wu Wv.
  destruct u as [su | su | | su mu eu]; try contradiction;
    destruct v as [sv | sv | | sv mv ev]; try contradiction.
  - destruct su, sv; exact I.
  - apply within_weaken with eb; [exact Wv | lia].
  - apply within_weaken with eb; [exact Wu | lia].
  - pose proof (within_value _ _ _ _ _ Hu Hb Wu) as Vu.
    pose proof (within_value _ _ _ _ _ Hv Hb Wv) as Vv.
    destruct (valid_finite _ _ _ Hu) as [Heu _].
    destruct (valid_finite _ _ _ Hv) as [Hev _].
    unfold SF64sub, SFsub.
    set (ez := Z.min eu ev).
    pose proof (aligned_value mu eu ez ltac:(lia)) as HU.
    pose proof (aligned_value mv ev ez ltac:(lia)) as HV.
    set (U := Z.pos (fst (shl_align mu eu ez))) in *.
    set (V := Z.pos (fst (shl_align mv ev ez))) in *.
    assert (HP : 0 < 2 ^ (ez + 1074)) by (apply Z.pow_pos_nonneg; lia).
    pose proof (double_bound mb eb ltac:(lia)) as Hdouble.
    assert (HUV : (U + V) * 2 ^ (ez + 1074) <= Z.pos mb * 2 ^ (eb + 1 + 1074))
      by lia.
    assert (HU0 : 0 < U) by (unfold U; lia).
    assert (HV0 : 0 < V) by (unfold V; lia).
    destruct (cond_Zopp su U - cond_Zopp sv V) as [| p | p] eqn:HD;
      cbn [binary_normalize]; [exact I | |];
      apply (bounded_by_within _ _ _ _
               (binary_round_upper _ p ez mb (eb + 1) Hb ltac:(lia) ltac:(lia)
                  ltac:(destruct su, sv; cbn [cond_Zopp] in HD; nia))).
Qed.

(** The product of a float within a bound and a normal constant. *)
Lemma SFmul_within (u : spec_float) (mc : positive) (ec : Z)
  (mb : positive) (eb : Z) (mB : positive) :
  valid_binary u = true -> normal mc -> normal mb -> normal mB ->
  -1074 <= eb + ec + 53 <= 971 ->
  Z.pos mb * Z.pos mc <= Z.pos mB * 2 ^ 53 ->
  within u mb eb ->
  within (SF64mul u (S754_finite false mc ec)) mB (eb + ec + 53).
Proof.
  intros Hu Hc Hb HB HeB Hprod Wu.
  destruct u as [su | su | | su mu eu]; try contradiction; [exact I |].
  destruct (valid_finite _ _ _ Hu) as [Heu [Hmu _]].
  pose proof Hc as [Hclo Hchi]. pose proof Hb as [Hblo Hbhi].
  pose proof HB as [HBlo HBhi].
  unfold SF64mul, SFmul.
  apply bounded_by_within with (xorb su false).
  assert (Heub : eu <= eb) by (cbn in Wu; lia).
  assert (Hd1 : 52 < Zdigits2 (Z.pos (mu * mc))).
  { apply Zdigits2_ge; [lia |]. rewrite Pos2Z.inj_mul. nia. }
  assert (Hd2 : Zdigits2 (Z.pos (mu * mc)) <= 106).
  { apply Zdigits2_le; [lia | lia |]. rewrite Pos2Z.inj_mul.
    change (2 ^ 106) with (2 ^ 53 * 2 ^ 53). nia. }
  apply binary_round_aux_upper; rewrite ?fexp_spec; try lia; try assumption.
  intros Ht. left. split; [reflexivity |].
  rewrite Pos2Z.inj_mul.
  replace (eb + ec + 53 - (eu + ec)) with (53 + (eb - eu)) by lia.
  rewrite (pow2_split 53 (eb - eu)) by lia.
  cbn in Wu. destruct Wu as [Hlt | [_ Hle]].
  - replace (eb - eu) with (Z.succ (eb - eu - 1)) by lia.
    rewrite Z.pow_succ_r by lia.
    assert (0 < 2 ^ (eb - eu - 1)) by (apply Z.pow_pos_nonneg; lia).
    apply Z.le_trans with (2 ^ 53 * 2 ^ 53); [nia |].
    apply Z.le_trans with (Z.pos mB * (2 ^ 53 * 2)).
    + change (2 ^ 53) with (2 * 2 ^ 52). nia.
    + set (W := Z.pos mB * (2 ^ 53 * 2)).
      replace (Z.pos mB * (2 ^ 53 * (2 * 2 ^ (eb - eu - 1))))
        with (W * 2 ^ (eb - eu - 1)) by (unfold W; ring).
      assert (0 < W) by (unfold W; lia). nia.
  - assert (0 < 2 ^ (eb - eu)) by (apply Z.pow_pos_nonneg; lia).
    apply Z.le_trans with (Z.pos mb * Z.pos mc); [nia |].
    apply Z.le_trans with (Z.pos mB * 2 ^ 53); [exact Hprod |].
    set (W := Z.pos mB * 2 ^ 53).
    replace (Z.pos mB * (2 ^ 53 * 2 ^ (eb - eu)))
      with (W * 2 ^ (eb - eu)) by (unfold W; ring).
    assert (0 < W) by (unfold W; lia). nia.
Qed.

Lemma new_location_exact (steps : Z) : new_location steps 0 = loc_Exact.
Proof.
  unfold new_location, new_location_even, new_location_odd.
  destruct (Z.even steps); reflexivity.
Qed.

Lemma normal_digits (m : positive) : normal m -> Zdigits2 (Z.pos m) = 53.
Proof. intros [Hlo Hhi]. apply Zdigits2_unique; [split; assumption | lia]. Qed.

(** The quotient of a float within a bound by a normal constant. *)
Lemma SFdiv_within (u : spec_float) (mc : positive) (ec : Z)
  (mb : positive) (eb : Z) (mB : positive) :
  valid_binary u = true -> normal mc -> normal mb -> normal mB ->
  -1074 <= eb - ec - 53 <= 971 ->
  Z.pos mb * 2 ^ 53 <= Z.pos mB * Z.pos mc ->
  within u mb eb ->
  within (SF64div u (S754_finite false mc ec)) mB (eb - ec - 53).
Proof.
  intros Hu Hc Hb HB HeB Hquot Wu.
  destruct u as [su | su | | su mu eu]; try contradiction; [exact I |].
  destruct (valid_finite _ _ _ Hu) as [Heu [Hmu _]].
  pose proof Hc as [Hclo Hchi]. pose proof Hb as [Hblo Hbhi].
  pose proof HB as [HBlo HBhi].
  pose proof (digits2_pos_bounds mu) as [Hdlo Hdhi].
  assert (Hd53 : Z.pos (digits2_pos mu) <= 53).
  { change (Z.pos (digits2_pos mu)) with (Zdigits2 (Z.pos mu)).
    apply Zdigits2_le; lia. }
  assert (Heub : eu <= eb) by (cbn in Wu; lia).
  unfold SF64div, SFdiv, SFdiv_core_binary.
  rewrite (normal_digits mc Hc). cbn [Zdigits2].
  set (d1 := Z.pos (digits2_pos mu)) in *.
  rewrite fexp_spec.
  set (e' := Z.min (Z.max (d1 + eu - (53 + ec) - 53) (-1074)) (eu - ec)).
  set (eB := eb - ec - 53) in *.
  set (s := eu - ec - e').
  assert (Hs : 0 <= s) by (unfold s, e'; lia).
  assert (He'B : e' <= eB) by (unfold e', eB; lia).
  set (m' := match s with
             | 0 => Z.pos mu
             | Z.pos _ => Z.shiftl (Z.pos mu) s
             | Z.neg _ => 0
             end).
  assert (Hm' : m' = Z.pos mu * 2 ^ s).
  { unfold m'. destruct s as [| p | p] eqn:Hsp; [cbn; lia | | lia].
    apply Z.shiftl_mul_pow2. lia. }
  pose proof (Z_div_mod m' (Z.pos mc) ltac:(lia)) as Hdiv.
  destruct (Z.div_eucl m' (Z.pos mc)) as [Q R]. destruct Hdiv as [Hdm HR].
  rewrite Hm' in Hdm.
  assert (Hps : 0 < 2 ^ s) by (apply Z.pow_pos_nonneg; lia).
  assert (HQ0 : 0 <= Q) by nia.
  assert (HpB : 0 < 2 ^ (eB - e')) by (apply Z.pow_pos_nonneg; lia).
  (* the dividend against the bound *)
  assert (Hstar : Z.pos mu * 2 ^ 53 <= Z.pos mB * Z.pos mc * 2 ^ (eb - eu)).
  { cbn in Wu. destruct Wu as [Hlt | [Heq Hle]].
    - replace (eb - eu) with (Z.succ (eb - eu - 1)) by lia.
      rewrite Z.pow_succ_r by lia.
      assert (0 < 2 ^ (eb - eu - 1)) by (apply Z.pow_pos_nonneg; lia).
      apply Z.le_trans with (2 * (Z.pos mb * 2 ^ 53)).
      + change (2 ^ 53) with (2 * 2 ^ 52) in Hmu. nia.
      + set (W := Z.pos mB * Z.pos mc) in *.
        replace (W * (2 * 2 ^ (eb - eu - 1)))
          with (2 * W * 2 ^ (eb - eu - 1)) by ring.
        assert (0 < W) by (unfold W; lia). nia.
    - rewrite Heq, Z.sub_diag. change (2 ^ 0) with 1. nia. }
  assert (Hdividend : Z.pos mu * 2 ^ s <= Z.pos mB * Z.pos mc * 2 ^ (eB - e')).
  { assert (Hexp : eb - eu + s = eB - e' + 53) by (unfold s, eB; lia).
    assert (Z.pos mu * 2 ^ s * 2 ^ 53
            <= Z.pos mB * Z.pos mc * 2 ^ (eB - e') * 2 ^ 53).
    { replace (Z.pos mB * Z.pos mc * 2 ^ (eB - e') * 2 ^ 53)
        with (Z.pos mB * Z.pos mc * 2 ^ (eB - e' + 53))
        by (rewrite (pow2_split (eB - e') 53) by lia; ring).
      rewrite <- Hexp, (pow2_split (eb - eu) s) by lia.
      replace (Z.pos mu * 2 ^ s * 2 ^ 53) with (Z.pos mu * 2 ^ 53 * 2 ^ s)
        by ring.
      replace (Z.pos mB * Z.pos mc * (2 ^ (eb - eu) * 2 ^ s))
        with (Z.pos mB * Z.pos mc * 2 ^ (eb - eu) * 2 ^ s) by ring.
      apply Z.mul_le_mono_nonneg_r; lia. }
    apply Z.mul_le_mono_pos_r with (2 ^ 53); lia. }
  assert (HQB : Q <= Z.pos mB * 2 ^ (eB - e')).
  { apply Z.mul_le_mono_pos_l with (Z.pos mc); [lia |].
    replace (Z.pos mc * (Z.pos mB * 2 ^ (eB - e')))
      with (Z.pos mB * Z.pos mc * 2 ^ (eB - e')) by ring. lia. }
  assert (HdQ : Zdigits2 Q <= 53 + (eB - e')).
  { apply Zdigits2_le; [lia | lia |].
    rewrite (pow2_split 53 (eB - e')) by lia. nia. }
  apply bounded_by_within with (xorb su false).
  apply binary_round_aux_upper; rewrite ?fexp_spec; try lia; try assumption.
  - (* the quotient has enough digits *)
    destruct (Z_le_gt_dec e' (-1074)) as [| Hgt]; [lia |].
    assert (He' : e' = d1 + eu - ec - 106) by (unfold e' in *; lia).
    assert (Hs' : s = 106 - d1) by (unfold s; lia).
    assert (Hbig : 2 ^ 105 <= Z.pos mu * 2 ^ s).
    { rewrite Hs'. replace 105 with ((d1 - 1) + (106 - d1)) by lia.
      rewrite (pow2_split (d1 - 1) (106 - d1)) by lia.
      apply Z.mul_le_mono_nonneg_r; [apply Z.pow_nonneg; lia | exact Hdlo]. }
    assert (2 ^ 52 <= Q).
    { change (2 ^ 105) with (2 ^ 53 * 2 ^ 52) in Hbig. nia. }
    pose proof (Zdigits2_ge Q 52 ltac:(lia) H). lia.
  - intros Ht.
    destruct (Z.eq_dec R 0) as [-> | HRne].
    + left. split; [apply new_location_exact | exact HQB].
    + right. apply Z.mul_lt_mono_pos_l with (Z.pos mc); [lia |].
      replace (Z.pos mc * (Z.pos mB * 2 ^ (eB - e')))
        with (Z.pos mB * Z.pos mc * 2 ^ (eB - e')) by ring. lia.
Qed.

(** The order of two positive finite floats, read off their fields. *)
Lemma SFltb_finite (m1 : positive) (e1 : Z) (m2 : positive) (e2 : Z) :
  SFltb (S754_finite false m1 e1) (S754_finite false m2 e2) = true
  <-> e1 < e2 \/ (e1 = e2 /\ Z.pos m1 < Z.pos m2).
Proof.
  unfold SFltb, SFcompare.
  destruct (Z.compare_spec e1 e2) as [Heq | Hlt | Hgt].
  - change (Pos.compare_cont Eq m1 m2) with (Pos.compare m1 m2).
    destruct (Pos.compare_spec m1 m2) as [Hm | Hm | Hm];
      split; try discriminate; try lia; intros _; right; lia.
  - split; [intros _; left; exact Hlt | reflexivity].
  - split; [discriminate | lia].
Qed.

Lemma lt_value (s1 : bool) (m1 : positive) (e1 : Z)
  (s2 : bool) (m2 : positive) (e2 : Z) :
  valid_binary (S754_finite s1 m1 e1) = true ->
  valid_binary (S754_finite s2 m2 e2) = true ->
  e1 < e2 \/ (e1 = e2 /\ Z.pos m1 < Z.pos m2) ->
  Z.pos m1 * 2 ^ (e1 + 1074) < Z.pos m2 * 2 ^ (e2 + 1074).
Proof.
  intros H1 H2 Hlt.
  destruct (valid_finite _ _ _ H1) as [He1 [Hm1 _]].
  destruct (valid_finite _ _ _ H2) as [He2 [_ Hn2]].
  destruct Hlt as [Hlt | [-> Hlt]].
  - destruct (Hn2 ltac:(lia)) as [Hlo _].
    assert (0 < 2 ^ (e1 + 1074)) by (apply Z.pow_pos_nonneg; lia).
    assert (0 < 2 ^ (e2 - e1 - 1)) by (apply Z.pow_pos_nonneg; lia).
    replace (e2 + 1074) with ((e2 - e1 - 1) + 1 + (e1 + 1074)) by lia.
    rewrite (pow2_split (e2 - e1 - 1 + 1) (e1 + 1074)) by lia.
    rewrite (pow2_split (e2 - e1 - 1) 1) by lia. change (2 ^ 1) with 2.
    change (2 ^ 53) with (2 * 2 ^ 52) in Hm1.
    apply Z.lt_le_trans with (2 * Z.pos m2 * 2 ^ (e1 + 1074)).
    + apply Z.mul_lt_mono_pos_r; lia.
    + set (W := Z.pos m2 * 2 ^ (e1 + 1074)).
      assert (0 < W) by (apply Z.mul_pos_pos; lia).
      replace (2 * Z.pos m2 * 2 ^ (e1 + 1074)) with (W * 2) by (unfold W; ring).
      replace (Z.pos m2 * (2 ^ (e2 - e1 - 1) * 2 * 2 ^ (e1 + 1074)))
        with (W * 2 * 2 ^ (e2 - e1 - 1)) by (unfold W; ring).
      nia.
  - apply Z.mul_lt_mono_pos_r; [apply Z.pow_pos_nonneg |]; lia.
Qed.

(** Folding an angle above the bound [mc * 2 ^ e] and at most twice the
    bound: the difference from twice the bound is not negative and at most
    the bound. *)
Lemma SFsub_fold (mc : positive) (e : Z) (ma : positive) (ea : Z) :
  valid_binary (S754_finite false ma ea) = true ->
  valid_binary (S754_finite false mc e) = true ->
  normal mc -> e < 971 ->
  SFltb (S754_finite false mc e) (S754_finite false ma ea) = true ->
  within (S754_finite false ma ea) mc (e + 1) ->
  bounded_by false
    (SF64sub (S754_finite false mc (e + 1)) (S754_finite false ma ea)) mc e.
Proof.
  intros Ha Hcv Hc He Hlt Hw.
  destruct (valid_finite _ _ _ Ha) as [Hea _].
  destruct (valid_finite _ _ _ Hcv) as [Hec _].
  apply SFltb_finite in Hlt.
  pose proof (lt_value _ _ _ _ _ _ Hcv Ha Hlt) as Vlt.
  pose proof (within_value _ _ _ _ _ Ha Hc Hw) as Vle.
  unfold SF64sub, SFsub. cbn [cond_Zopp].
  assert (Hez : Z.min (e + 1) ea = ea) by (cbn in Hw; lia).
  rewrite Hez.
  pose proof (aligned_value mc (e + 1) ea ltac:(cbn in Hw; lia)) as HU.
  pose proof (aligned_value ma ea ea ltac:(lia)) as HV.
  set (U := Z.pos (fst (shl_align mc (e + 1) ea))) in *.
  set (V := Z.pos (fst (shl_align ma ea ea))) in *.
  assert (HP : 0 < 2 ^ (ea + 1074)) by (apply Z.pow_pos_nonneg; lia).
  pose proof (double_bound mc e ltac:(lia)) as Hdouble.
  destruct (U - V) as [| p | p] eqn:HD; cbn [binary_normalize].
  - left. reflexivity.
  - apply binary_round_upper; try assumption; try lia; nia.
  - exfalso. nia.
Qed.


Lemma SFleb_finite (m1 : positive) (e1 : Z) (m2 : positive) (e2 : Z) :
  SFleb (S754_finite false m1 e1) (S754_finite false m2 e2) = true
  <-> e1 < e2 \/ (e1 = e2 /\ Z.pos m1 <= Z.pos m2).
Proof.
  unfold SFleb, SFcompare.
  destruct (Z.compare_spec e1 e2) as [Heq | Hlt | Hgt].
  - change (Pos.compare_cont Eq m1 m2) with (Pos.compare m1 m2).
    destruct (Pos.compare_spec m1 m2) as [Hm | Hm | Hm];
      split; try discriminate; try lia; intros _; right; lia.
  - split; [intros _; left; exact Hlt | reflexivity].
  - split; [discriminate | lia].
Qed.

Lemma SFleb_finite_negative (m1 : positive) (e1 : Z) (m2 : positive) (e2 : Z) :
  SFleb (S754_finite true m1 e1) (S754_finite true m2 e2) = true
  <-> e2 < e1 \/ (e1 = e2 /\ Z.pos m2 <= Z.pos m1).
Proof.
  unfold SFleb, SFcompare.
  destruct (Z.compare_spec e1 e2) as [Heq | Hlt | Hgt].
  - change (Pos.compare_cont Eq m1 m2) with (Pos.compare m1 m2).
    destruct (Pos.compare_spec m1 m2) as [Hm | Hm | Hm]; cbn [CompOpp];
      split; try discriminate; try lia; intros _; right; lia.
  - split; [discriminate | lia].
  - split; [intros _; left; exact Hgt | reflexivity].
Qed.

(** *** The sign of a difference *)

Lemma binary_round_signed (s : bool) (m : positive) (e : Z) :
  -1074 <= e -> signed s (binary_round prec emax s m e).
Proof.
  intro He. unfold binary_round.
  set (t := fexp prec emax (Z.pos (digits2_pos m) + e)).
  destruct (shl_align_spec m e t) as [Hez Hmz].
  destruct (shl_align m e t) as [mz ez]. cbn [fst snd] in Hez, Hmz.
  assert (Htlo : -1074 <= t) by (unfold t; rewrite fexp_spec; lia).
  assert (Hdz : Zdigits2 (Z.pos mz) + ez = Z.pos (digits2_pos m) + e).
  { rewrite Hmz, Zdigits2_shift by lia. lia. }
  unfold binary_round_aux, shr_fexp. rewrite Hdz. fold t.
  destruct (shr_spec (Z.pos mz) loc_Exact ez (t - ez) ltac:(lia))
    as [He' [Hq _]].
  destruct (shr (shr_record_of_loc (Z.pos mz) loc_Exact) ez (t - ez))
    as [mrs' e'].
  cbn [fst snd] in He', Hq.
  replace (Z.max 0 (t - ez)) with (t - ez) in * by lia.
  assert (Het : e' = t) by lia. clear He'. subst e'.
  set (n := t - ez) in *.
  assert (Hpn : 0 < 2 ^ n) by (apply Z.pow_pos_nonneg; lia).
  pose proof (round_nearest_even_bounds (shr_m mrs')
                (loc_of_shr_record mrs')) as Hm1.
  set (m1 := round_nearest_even (shr_m mrs') (loc_of_shr_record mrs')) in *.
  destruct (Zdigits2_bounds (Z.pos mz) ltac:(lia)) as [Hlo Hhi].
  set (d := Zdigits2 (Z.pos mz)) in *.
  assert (Hq1 : 1 <= shr_m mrs').
  { rewrite Hq. apply Z.div_le_lower_bound; [lia |].
    destruct (Z.eq_dec t (-1074)) as [Heq | Hne].
    - replace n with 0 by (unfold n; lia). cbn. lia.
    - assert (Hn : n = d - 53)
        by (unfold n, t in *; rewrite fexp_spec in *; lia).
      apply Z.le_trans with (2 ^ (d - 1)); [| exact Hlo].
      rewrite Z.mul_1_r. apply Z.pow_le_mono_r; lia. }
  assert (Hq53 : shr_m mrs' < 2 ^ 53).
  { rewrite Hq. apply Z.div_lt_upper_bound; [lia |].
    rewrite <- Z.pow_add_r by lia.
    eapply Z.lt_le_trans; [exact Hhi |].
    apply Z.pow_le_mono_r; [lia |].
    unfold n, t. rewrite fexp_spec. lia. }
  assert (Hm10 : 0 <= m1) by lia.
  destruct (shr_spec m1 loc_Exact t
              (fexp prec emax (Zdigits2 m1 + t) - t) Hm10) as [_ [Hq' _]].
  destruct (shr (shr_record_of_loc m1 loc_Exact) t
              (fexp prec emax (Zdigits2 m1 + t) - t)) as [mrs'' e''].
  cbn [fst snd] in Hq'.
  assert (Hpos : 0 < shr_m mrs'').
  { rewrite Hq'. destruct (Z.eq_dec m1 (2 ^ 53)) as [Hfull | Hnotfull].
    - assert (Hd : Zdigits2 m1 = 54) by (rewrite Hfull; reflexivity).
      rewrite Hd, fexp_spec.
      replace (Z.max 0 (Z.max (54 + t - 53) (-1074) - t)) with 1 by lia.
      rewrite Hfull. reflexivity.
    - assert (Hd : Zdigits2 m1 <= 53) by (apply Zdigits2_le; lia).
      rewrite fexp_spec.
      replace (Z.max 0 (Z.max (Zdigits2 m1 + t - 53) (-1074) - t)) with 0
        by lia.
      change (2 ^ 0) with 1. rewrite Z.div_1_r. lia. }
  destruct (shr_m mrs'') as [| p | p]; try lia.
  destruct (e'' <=? emax - prec); [right; eauto | left; reflexivity].
Qed.

(** The difference of two floats has the sign of their order. *)
Lemma SFsub_signed (u v : spec_float) :
  valid_binary u = true -> valid_binary v = true ->
  SFltb u v = true ->
  signed false (SF64sub v u) /\ signed true (SF64sub u v).
Proof.
  intros Hu Hv Hlt.
  destruct u as [su | su | | su mu eu], v as [sv | sv | | sv mv ev];
    try discriminate Hlt;
    try (destruct su; try discriminate Hlt);
    try (destruct sv; try discriminate Hlt);
    try (cbn; split;
         first [left; reflexivity | right; do 2 eexists; reflexivity]).
  all: destruct (valid_finite _ _ _ Hu) as [Heu _];
    destruct (valid_finite _ _ _ Hv) as [Hev _];
    unfold SF64sub, SFsub; rewrite (Z.min_comm eu ev);
    set (ez := Z.min ev eu);
    pose proof (aligned_value mu eu ez ltac:(lia)) as HU;
    pose proof (aligned_value mv ev ez ltac:(lia)) as HV;
    set (U := Z.pos (fst (shl_align mu eu ez))) in *;
    set (V := Z.pos (fst (shl_align mv ev ez))) in *;
    assert (HP : 0 < 2 ^ (ez + 1074)) by (apply Z.pow_pos_nonneg; lia);
    assert (HU0 : 0 < U) by (unfold U; lia);
    assert (HV0 : 0 < V) by (unfold V; lia);
    cbn [cond_Zopp].
  - (* both negative *)
    assert (Hord : ev < eu \/ (ev = eu /\ Z.pos mv < Z.pos mu)).
    { unfold SFltb, SFcompare in Hlt.
      destruct (Z.compare_spec eu ev) as [Heq | Hl | Hg];
        [| discriminate | left; lia].
      change (Pos.compare_cont Eq mu mv) with (Pos.compare mu mv) in Hlt.
      destruct (Pos.compare_spec mu mv); try discriminate.
      right. lia. }
    pose proof (lt_value _ _ _ _ _ _ Hv Hu Hord) as Vlt.
    assert (HVU : V < U) by nia.
    split.
    + destruct (- V - - U) as [| p | p] eqn:HD; try lia.
      cbn [binary_normalize]. apply binary_round_signed. lia.
    + destruct (- U - - V) as [| p | p] eqn:HD; try lia.
      cbn [binary_normalize]. apply binary_round_signed. lia.
  - (* a negative one below a positive one *)
    split.
    + destruct (V - - U) as [| p | p] eqn:HD; try lia.
      cbn [binary_normalize]. apply binary_round_signed. lia.
    + destruct (- U - V) as [| p | p] eqn:HD; try lia.
      cbn [binary_normalize]. apply binary_round_signed. lia.
  - (* both positive *)
    apply SFltb_finite in Hlt.
    pose proof (lt_value _ _ _ _ _ _ Hu Hv Hlt) as Vlt.
    assert (HUV : U < V) by nia.
    split.
    + destruct (V - U) as [| p | p] eqn:HD; try lia.
      cbn [binary_normalize]. apply binary_round_signed. lia.
    + destruct (U - V) as [| p | p] eqn:HD; try lia.
      cbn [binary_normalize]. apply binary_round_signed. lia.
Qed.

End Rounding.

(** ** The range of the angle primitive *)

Module AngleFacts.
Import JS PoseDetection Binary64 AngleNotions Rounding.
#[local] Open Scope Z_scope.

Lemma normal_PI : normal mantissaPI.
Proof. unfold normal. split; [vm_compute; discriminate | reflexivity]. Qed.
Lemma normal_180 : normal mantissa180.
Proof. unfold normal. split; [vm_compute; discriminate | reflexivity]. Qed.
Lemma normal_Turn : normal mantissaTurn.
Proof. unfold normal. split; [vm_compute; discriminate | reflexivity]. Qed.
Lemma normal_belowTurn : normal (mantissaTurn - 1).
Proof. unfold normal. split; [vm_compute; discriminate | reflexivity]. Qed.


Lemma Prim2SF_PI : Prim2SF Math_PI = S754_finite false mantissaPI (-51).
Proof. vm_compute. reflexivity. Qed.
Lemma Prim2SF_minus_PI :
  Prim2SF (- Math_PI) = S754_finite true mantissaPI (-51).
Proof. vm_compute. reflexivity. Qed.
Lemma Prim2SF_180 : Prim2SF 180 = S754_finite false mantissa180 (-45).
Proof. vm_compute. reflexivity. Qed.
Lemma Prim2SF_360 : Prim2SF 360 = S754_finite false mantissa180 (-45 + 1).
Proof. vm_compute. reflexivity. Qed.
Lemma Prim2SF_0 : Prim2SF 0 = S754_zero false.
Proof. vm_compute. reflexivity. Qed.

Lemma inRange_within (t : float) :
  inRange t = true -> within (Prim2SF t) mantissaPI (-51).
Proof.
  unfold inRange. rewrite andb_true_iff, !leb_spec.
  rewrite Prim2SF_minus_PI, Prim2SF_PI.
  destruct (Prim2SF t) as [s | s | | s m e]; cbn [within].
  - auto.
  - destruct s; intros [H1 H2]; discriminate.
  - intros [H1 H2]; discriminate.
  - destruct s; intros [H1 H2].
    + apply SFleb_finite_negative in H1. lia.
    + apply SFleb_finite in H2. lia.
Qed.

Lemma bounded_by_range (f : spec_float) (mb : positive) (eb : Z) :
  bounded_by false f mb eb ->
  SFleb (S754_zero false) f = true
  /\ SFleb f (S754_finite false mb eb) = true.
Proof.
  intros [-> | [m [e [-> H]]]]; [split; reflexivity |].
  split; [reflexivity | apply SFleb_finite; lia].
Qed.

Lemma within_abs (f : spec_float) (mb : positive) (eb : Z) :
  within f mb eb ->
  SFabs f = S754_zero false
  \/ exists m e, SFabs f = S754_finite false m e
                 /\ (e < eb \/ (e = eb /\ Z.pos m <= Z.pos mb)).
Proof.
  destruct f as [s | s | | s m e]; cbn; try contradiction; eauto.
Qed.

Lemma belowTurn_value : Z.pos (mantissaTurn - 1) = Z.pos mantissaTurn - 1.
Proof. vm_compute. reflexivity. Qed.

Lemma product_below_turn :
  Z.pos mantissaPI * Z.pos mantissa180 <= Z.pos mantissaTurn * 2 ^ 53.
Proof. vm_compute. discriminate. Qed.

Lemma quotient_below_360 :
  Z.pos (mantissaTurn - 1) * 2 ^ 53 <= Z.pos mantissa180 * Z.pos mantissaPI.
Proof. vm_compute. discriminate. Qed.

Lemma turn_by_PI (s : bool) :
  SF64div (S754_finite s mantissaTurn (-42))
    (S754_finite false mantissaPI (-51))
  = S754_finite s mantissa180 (-44).
Proof. destruct s; vm_compute; reflexivity. Qed.

(** The fold of [calculateAngle] on two polar angles in range. *)
Lemma folded_angle_range (t1 t2 : float) :
  inRange t1 = true -> inRange t2 = true ->
  let angle := abs (((t1 - t2) * 180) / Math_PI)%float in
  let result := (if 180 <? angle then 360 - angle else angle)%float in
  (0 <=? result)%float = true /\ (result <=? 180)%float = true.
Proof.
  intros H1 H2 angle result.
  pose proof (inRange_within t1 H1) as W1.
  pose proof (inRange_within t2 H2) as W2.
  (* the difference of the polar angles *)
  assert (Wr : within (Prim2SF (t1 - t2)) mantissaPI (-51 + 1)).
  { rewrite sub_spec.
    apply SFsub_within; try apply Prim2SF_valid; try apply normal_PI;
      try assumption; lia. }
  (* in degrees, before the division *)
  assert (Wx : within (Prim2SF ((t1 - t2) * 180)) mantissaTurn
                 (-51 + 1 + -45 + 53)).
  { rewrite mul_spec, Prim2SF_180.
    apply (SFmul_within _ mantissa180 (-45) mantissaPI (-51 + 1) mantissaTurn).
    - apply Prim2SF_valid.
    - apply normal_180.
    - apply normal_PI.
    - apply normal_Turn.
    - lia.
    - apply product_below_turn.
    - exact Wr. }
  change (-51 + 1 + -45 + 53) with (-42) in Wx.
  (* in degrees *)
  assert (Wq : within (Prim2SF (((t1 - t2) * 180) / Math_PI))
                 mantissa180 (-44)).
  { rewrite div_spec, Prim2SF_PI.
    pose proof (Prim2SF_valid ((t1 - t2) * 180)) as Hv.
    destruct (Prim2SF ((t1 - t2) * 180)) as [s | s | | s m e] eqn:Hx;
      try contradiction; [exact I |].
    assert (Hcases : (e = -42 /\ m = mantissaTurn)
                     \/ within (S754_finite s m e) (mantissaTurn - 1) (-42)).
    { unfold within in Wx |- *. rewrite belowTurn_value.
      destruct Wx as [Hlt | [He Hle]]; [right; left; exact Hlt |].
      destruct (Pos.eq_dec m mantissaTurn) as [-> | Hne];
        [left; split; [exact He | reflexivity] |].
      right. right. split; [exact He |].
      assert (Z.pos m <> Z.pos mantissaTurn) by congruence. lia. }
    destruct Hcases as [[-> ->] | Hbelow].
    - rewrite turn_by_PI. unfold within. right. split; [reflexivity | lia].
    - apply (SFdiv_within _ mantissaPI (-51) (mantissaTurn - 1) (-42)
               mantissa180).
      + exact Hv.
      + apply normal_PI.
      + apply normal_belowTurn.
      + apply normal_180.
      + lia.
      + apply quotient_below_360.
      + exact Hbelow. }
  assert (Habs : Prim2SF angle
                 = SFabs (Prim2SF (((t1 - t2) * 180) / Math_PI)))
    by apply abs_spec.
  unfold result. rewrite ltb_spec, Prim2SF_180.
  destruct (within_abs _ _ _ Wq) as [Hz | [m [e [Hf Hme]]]].
  - rewrite Habs, Hz. cbn [SFltb SFcompare].
    rewrite !leb_spec, Habs, Hz, Prim2SF_0, Prim2SF_180. split; reflexivity.
  - rewrite Habs, Hf.
    destruct (SFltb (S754_finite false mantissa180 (-45))
                (S754_finite false m e)) eqn:Hlt.
    + rewrite !leb_spec, sub_spec, Habs, Hf, Prim2SF_0, Prim2SF_360,
        Prim2SF_180.
      apply bounded_by_range.
      apply SFsub_fold.
      * rewrite <- Hf, <- Habs. apply Prim2SF_valid.
      * rewrite <- Prim2SF_180. apply Prim2SF_valid.
      * apply normal_180.
      * lia.
      * exact Hlt.
      * unfold within. replace (-45 + 1) with (-44) by reflexivity.
        exact Hme.
    + rewrite !leb_spec, Habs, Hf, Prim2SF_0, Prim2SF_180.
      apply bounded_by_range. right. exists m, e. split; [reflexivity |].
      assert (Hnot : ~ (-45 < e \/ (-45 = e /\ Z.pos mantissa180 < Z.pos m))).
      { intro Hc. apply SFltb_finite in Hc. congruence. }
      lia.
Qed.

(** *** Finite numbers *)

Lemma Prim2SF_infinity : Prim2SF infinity = S754_infinity false.
Proof. vm_compute. reflexivity. Qed.

Lemma SFeqb_refl (f : spec_float) : f <> S754_nan -> SFeqb f f = true.
Proof.
  destruct f as [s | s | | s m e]; intro H; try reflexivity.
  - destruct s; reflexivity.
  - contradiction.
  - unfold SFeqb, SFcompare. rewrite Z.compare_refl.
    change (Pos.compare_cont Eq m m) with (Pos.compare m m).
    rewrite Pos.compare_refl. destruct s; reflexivity.
Qed.

Lemma is_nan_false (t : float) : Prim2SF t <> S754_nan -> is_nan t = false.
Proof.
  intro H. unfold is_nan.
  rewrite FloatAxioms.eqb_spec, SFeqb_refl by exact H. reflexivity.
Qed.

Lemma is_finite_cases (t : float) :
  is_finite t = true ->
  match Prim2SF t with
  | S754_zero _ | S754_finite _ _ _ => True
  | _ => False
  end.
Proof.
  unfold is_finite, is_nan, is_infinity.
  rewrite !FloatAxioms.eqb_spec, abs_spec, Prim2SF_infinity.
  destruct (Prim2SF t) as [s | [] | | s m e]; try (intros _; exact I);
    cbn; discriminate.
Qed.

Lemma signed_not_nan (s : bool) (f : spec_float) : signed s f -> f <> S754_nan.
Proof. intros [-> | [m [e ->]]]; discriminate. Qed.

(** The difference of two finite numbers is a number. *)
Lemma finite_difference (u v : float) :
  is_finite u = true -> is_finite v = true -> is_nan (u - v) = false.
Proof.
  intros Hu Hv. apply is_nan_false. rewrite sub_spec.
  pose proof (Prim2SF_valid u) as Vu. pose proof (Prim2SF_valid v) as Vv.
  apply is_finite_cases in Hu, Hv.
  destruct (Prim2SF u) as [su | su | | su mu eu]; try contradiction;
    destruct (Prim2SF v) as [sv | sv | | sv mv ev]; try contradiction;
    try (destruct su, sv; discriminate); try discriminate.
  destruct (valid_finite _ _ _ Vu) as [Heu _].
  destruct (valid_finite _ _ _ Vv) as [Hev _].
  unfold SF64sub, SFsub.
  destruct (cond_Zopp su _ - cond_Zopp sv _) as [| p | p];
    cbn [binary_normalize]; [discriminate | |];
    eapply signed_not_nan; apply binary_round_signed; lia.
Qed.

Lemma finite_diag (t : float) : is_finite t = true -> (t - t)%float = 0%float.
Proof.
  intro H. destruct (FloatFacts.sub_diag t) as [E | E]; [exact E |].
  pose proof (finite_difference t t H H) as Hn. rewrite E in Hn.
  discriminate Hn.
Qed.

(** The sign of the difference of two ordered numbers. *)
Lemma ordered_difference (u v : float) :
  (u <? v)%float = true ->
  (0 <? v - u)%float = true /\ (u - v <? 0)%float = true.
Proof.
  rewrite !ltb_spec, !sub_spec, Prim2SF_0. intro H.
  destruct (SFsub_signed (Prim2SF u) (Prim2SF v)
              (Prim2SF_valid u) (Prim2SF_valid v) H) as [Hp Hn].
  split.
  - destruct Hp as [-> | [m [e ->]]]; reflexivity.
  - destruct Hn as [-> | [m [e ->]]]; reflexivity.
Qed.

(** *** The angle primitive, as amended *)

Section AngleClaim.
Variable Math_atan2 : float -> float -> float.

Lemma finiteLandmark_fields (l : NormalizedLandmark) :
  finiteLandmark l = true -> is_finite (x l) = true /\ is_finite (y l) = true.
Proof. unfold finiteLandmark. apply andb_prop. Qed.

Lemma strictlyBetween_cases (u v w : float) :
  strictlyBetween u v w = true ->
  ((u <? v)%float = true /\ (v <? w)%float = true)
  \/ ((w <? v)%float = true /\ (v <? u)%float = true).
Proof.
  unfold strictlyBetween. rewrite orb_true_iff, !andb_true_iff. tauto.
Qed.

(** On a horizontal or vertical line through the vertex, the fold of the
    two polar angles is half a turn. *)
Lemma half_turn_values :
  (let angle := abs (((0 - Math_PI) * 180) / Math_PI) in
   (if 180 <? angle then 360 - angle else angle) = 180)%float
  /\ (let angle := abs (((Math_PI - 0) * 180) / Math_PI) in
      (if 180 <? angle then 360 - angle else angle) = 180)%float
  /\ (let angle :=
        abs (((Math_PI / 2 - - (Math_PI / 2)) * 180) / Math_PI) in
      (if 180 <? angle then 360 - angle else angle) = 180)%float
  /\ (let angle :=
        abs (((- (Math_PI / 2) - Math_PI / 2) * 180) / Math_PI) in
      (if 180 <? angle then 360 - angle else angle) = 180)%float.
Proof. vm_compute. repeat split; reflexivity. Qed.

(** C9, as the code has it.  For landmarks with finite coordinates, and a
    [Math.atan2] that returns polar angles between [-Math.PI] and
    [Math.PI], [calculateAngle] returns a value between 0 and 180, in
    double arithmetic; it is symmetric in the two outer points; and it
    returns exactly 180 for three points on a horizontal or a vertical
    line with the vertex strictly between the other two, [Math.atan2]
    having on the axes the values ECMAScript names. *)
Theorem calculateAngle_properties (a b c : NormalizedLandmark) :
  atan2InRange Math_atan2 ->
  finiteLandmark a = true -> finiteLandmark b = true ->
  finiteLandmark c = true ->
  ((0 <=? calculateAngle Math_atan2 a b c)%float = true
   /\ (calculateAngle Math_atan2 a b c <=? 180)%float = true)
  /\ calculateAngle Math_atan2 a b c = calculateAngle Math_atan2 c b a
  /\ (atan2OnAxes Math_atan2 -> betweenOnAxis a b c ->
      calculateAngle Math_atan2 a b c = 180%float).
Proof.
  intros Hrange Ha Hb Hc.
  destruct (finiteLandmark_fields a Ha) as [Hax Hay].
  destruct (finiteLandmark_fields b Hb) as [Hbx Hby].
  destruct (finiteLandmark_fields c Hc) as [Hcx Hcy].
  split; [| split].
  - unfold calculateAngle, Math_abs. cbn zeta.
    apply folded_angle_range; apply Hrange; apply finite_difference;
      assumption.
  - unfold calculateAngle, Math_abs. cbn zeta.
    rewrite (FloatFacts.abs_scaled_difference
               (Math_atan2 (y c - y b) (x c - x b))
               (Math_atan2 (y a - y b) (x a - x b))).
    reflexivity.
  - intros [Hxpos [Hxneg [Hypos Hyneg]]] Hline.
    destruct half_turn_values as [V1 [V2 [V3 V4]]].
    unfold calculateAngle, Math_abs. cbn zeta.
    destruct Hline as [[Eya [Eyc Hbetween]] | [Exa [Exc Hbetween]]];
      apply strictlyBetween_cases in Hbetween;
      destruct Hbetween as [[H1 H2] | [H1 H2]];
      destruct (ordered_difference _ _ H1) as [P1 N1];
      destruct (ordered_difference _ _ H2) as [P2 N2].
    + rewrite Eya, Eyc, (finite_diag _ Hby), (Hxpos _ P2), (Hxneg _ N1).
      exact V1.
    + rewrite Eya, Eyc, (finite_diag _ Hby), (Hxneg _ N1), (Hxpos _ P2).
      exact V2.
    + rewrite Exa, Exc, (finite_diag _ Hbx), (Hypos _ P2), (Hyneg _ N1).
      exact V3.
    + rewrite Exa, Exc, (finite_diag _ Hbx), (Hyneg _ N1), (Hypos _ P2).
      exact V4.
Qed.

End AngleClaim.

Lemma knownAtan2_inRange : atan2InRange knownAtan2.
Proof.
  intros y x _ _. unfold knownAtan2.
  destruct (y =? 0)%float.
  - destruct (x <? 0)%float, (get_sign y); vm_compute; reflexivity.
  - destruct (x =? 0)%float;
      [destruct (0 <? y)%float; vm_compute; reflexivity |].
    destruct ((y =? 1) && (x =? 5))%float; [vm_compute; reflexivity |].
    destruct ((y =? -1) && (x =? -5))%float; vm_compute; reflexivity.
Qed.

Lemma knownAtan2_onAxes : atan2OnAxes knownAtan2.
Proof.
  unfold atan2OnAxes, knownAtan2. repeat split.
  - intros x H.
    replace (0 =? 0)%float with true by reflexivity.
    replace (get_sign 0) with false by reflexivity.
    destruct (x <? 0)%float eqn:Hneg; [| reflexivity].
    exfalso. revert H Hneg. rewrite !ltb_spec, Prim2SF_0.
    destruct (Prim2SF x) as [s | [] | | [] m e]; cbn; congruence.
  - intros x H.
    replace (0 =? 0)%float with true by reflexivity.
    replace (get_sign 0) with false by reflexivity.
    rewrite H. reflexivity.
  - intros y H.
    assert (Hy : (y =? 0)%float = false).
    { revert H. rewrite ltb_spec, FloatAxioms.eqb_spec, Prim2SF_0.
      destruct (Prim2SF y) as [s | [] | | [] m e]; cbn; congruence. }
    rewrite Hy. replace (0 =? 0)%float with true by reflexivity.
    rewrite H. reflexivity.
  - intros y H.
    assert (Hy : (y =? 0)%float = false).
    { revert H. rewrite ltb_spec, FloatAxioms.eqb_spec, Prim2SF_0.
      destruct (Prim2SF y) as [s | [] | | [] m e]; cbn; congruence. }
    assert (Hpos : (0 <? y)%float = false).
    { revert H. rewrite !ltb_spec, Prim2SF_0.
      destruct (Prim2SF y) as [s | [] | | [] m e]; cbn; congruence. }
    rewrite Hy, Hpos. replace (0 =? 0)%float with true by reflexivity.
    reflexivity.
Qed.

Lemma calculateAngle_properties_witness :
  ((0 <=? calculateAngle knownAtan2 (planePoint 0 3) (planePoint 1 3)
            (planePoint 4 3))%float = true
   /\ (calculateAngle knownAtan2 (planePoint 0 3) (planePoint 1 3)
         (planePoint 4 3) <=? 180)%float = true)
  /\ calculateAngle knownAtan2 (planePoint 0 3) (planePoint 1 3)
       (planePoint 4 3)
     = calculateAngle knownAtan2 (planePoint 4 3) (planePoint 1 3)
         (planePoint 0 3)
  /\ calculateAngle knownAtan2 (planePoint 0 3) (planePoint 1 3)
       (planePoint 4 3) = 180%float.
Proof.
  destruct (calculateAngle_properties knownAtan2
              (planePoint 0 3) (planePoint 1 3) (planePoint 4 3)
              knownAtan2_inRange eq_refl eq_refl eq_refl)
    as [Hrange [Hswap Hline]].
  split; [exact Hrange | split; [exact Hswap |]].
  apply Hline; [exact knownAtan2_onAxes |].
  left. repeat split.
Defined.

(** C9 as stated fails on the colinear points (0,0), (5,1), (10,2), the
    second the midpoint of the other two: the two polar angles differ by
    one unit in the last place more than [Math.PI], and the angle
    returned is the double just below 180. *)
Lemma colinear_not_exactly_180 :
  finiteLandmark (planePoint 0 0) = true
  /\ finiteLandmark (planePoint 5 1) = true
  /\ finiteLandmark (planePoint 10 2) = true
  /\ calculateAngle knownAtan2 (planePoint 0 0) (planePoint 5 1)
       (planePoint 10 2) = 0x1.67fffffffffffp+7%float
  /\ calculateAngle knownAtan2 (planePoint 0 0) (planePoint 5 1)
       (planePoint 10 2) <> 180%float.
Proof.
  assert (Hvalue : calculateAngle knownAtan2 (planePoint 0 0)
                     (planePoint 5 1) (planePoint 10 2)
                   = 0x1.67fffffffffffp+7%float)
    by (vm_compute; reflexivity).
  repeat split; try reflexivity; try exact Hvalue.
  rewrite Hvalue. intro H.
  assert (Hlt : (0x1.67fffffffffffp+7 <? 180)%float = true) by reflexivity.
  rewrite H in Hlt. discriminate Hlt.
Qed.

End AngleFacts.
